(** * Multi-source installer files and the job scheduler of lutris

    A shallow embedding of
      - [lutris/util/jobs.py]                     (AsyncCall, ProcessManager, idle tasks),
      - [lutris/lists.py]                         (restricted domains),
      - [lutris/installer/installer_file_source.py] (the four source classes),
      - [lutris/installer/installer_file.py]      (InstallerFile),
    with the properties of the specification stated over it.

    Python objects that are shared by reference (the sources of a file,
    the AsyncCall of a job) live in a store and are named by their
    position in it; exceptions are explicit results. *)

From Stdlib Require Import Ascii.
From stdpp Require Import base gmap strings list pretty.

Open Scope string_scope.
Open Scope list_scope.

(** ** Python values shared by the two halves *)

Module Py.

(** The exception classes the modelled code can raise. *)
Inductive exn : Set :=
| NameError
| UnboundLocalError
| AttributeError
| TypeError
| RuntimeError
| ValueError
| IndexError
| RecursionError
| ScriptingError
| OSError
| StopRequested.

#[export] Instance exn_eq_dec : EqDecision exn.
Proof. solve_decision. Defined.

(** [s.startswith(p)] *)
Definition startswith (p s : string) : bool := String.prefix p s.

(** [s[i:j]] for non-negative [i], [j]; empty when [j <= i]. *)
Definition slice (i j : nat) (s : string) : string := String.substring i (j - i) s.

(** [s[i:]] *)
Fixpoint drop (i : nat) (s : string) : string :=
  match i, s with
  | 0, _ => s
  | S _, EmptyString => EmptyString
  | S i', String _ s' => drop i' s'
  end.

(** [s.endswith(p)] *)
Definition endswith (p s : string) : bool :=
  bool_decide (drop (String.length s - String.length p) s = p).

(** Truth value of a [str]: empty strings are false. *)
Definition truthy_str (s : string) : bool := negb (bool_decide (s = "")).

(** Truth value of an optional [str] ([None] is false). *)
Definition truthy_ostr (o : option string) : bool :=
  match o with Some s => truthy_str s | None => false end.

End Py.

(** The result of a call that only reads: the value returned, or the
    exception raised. *)
Inductive result (A : Type) : Type :=
| Ok (a : A)
| Err (e : Py.exn).
Arguments Ok {A} a.
Arguments Err {A} e.

#[export] Instance result_eq_dec {A} `{EqDecision A} : EqDecision (result A).
Proof. pose proof Py.exn_eq_dec. solve_decision. Defined.

(** ** [lutris/util/jobs.py] *)

Module Jobs.

(** A job name as the dictionary sees it: [add_job] stores either the
    caller's name or the integer [id(func)]; an [int] and a [str] are
    never equal keys. *)
Inductive PyKey : Set :=
| KInt (z : Z)
| KStr (s : string).

#[export] Instance PyKey_eq_dec : EqDecision PyKey.
Proof. solve_decision. Defined.

#[export] Instance PyKey_countable : Countable PyKey :=
  inj_countable'
    (λ k, match k with KInt z => inl z | KStr s => inr s end)
    (λ x, match x with inl z => KInt z | inr s => KStr s end)
    (λ k, match k with KInt _ => eq_refl | KStr _ => eq_refl end).

(** [str(name)] *)
Definition py_str (k : PyKey) : string :=
  match k with KInt z => pretty z | KStr s => s end.

(** A function object handed to [add_job]; only its identity [id(func)]
    is visible to the scheduler. *)
Record PyFunction : Set := { py_id : Z }.

(** How the work of a job ends: a value, or an exception caught by
    [except Exception]. *)
Inductive Completion : Set :=
| Returned (v : Z)
| Failed (e : Py.exn).

Definition result_of (c : Completion) : option Z :=
  match c with Returned v => Some v | Failed _ => None end.

Definition error_of (c : Completion) : option Py.exn :=
  match c with Returned _ => None | Failed e => Some e end.

(** The closure [_callback] built by [add_job]: the caller's callback
    (if any) and the name it removes afterwards. *)
Record Callback : Set := { user_callback : option nat; job_name : PyKey }.

(** An [AsyncCall] object. [running] is true until [target] has come to
    its end. *)
Record AsyncCall : Set := {
  function : PyFunction;
  callback : Callback;
  stop_request : bool;
  callback_task : option nat;
  running : bool
}.

(** A call waiting in the main loop, put there by [schedule_at_idle]:
    the AsyncCall whose callback it is, and the arguments. *)
Record IdleCall : Set := {
  idle_job : nat;
  idle_result : option Z;
  idle_error : option Py.exn
}.

(** The process manager together with what it shares with the threads
    and the main loop: the AsyncCall objects (by reference), the queue
    of the main loop, and the callbacks the main loop has run. *)
Record ProcessManager : Type := {
  _active_processes : gmap PyKey nat;
  threads : list AsyncCall;
  main_loop : list IdleCall;
  called : list IdleCall
}.

Definition empty_manager : ProcessManager :=
  {| _active_processes := ∅; threads := []; main_loop := []; called := [] |}.

Definition set_stop (a : AsyncCall) : AsyncCall :=
  {| function := function a; callback := callback a; stop_request := true;
     callback_task := callback_task a; running := running a |}.

Definition set_done (task : option nat) (a : AsyncCall) : AsyncCall :=
  {| function := function a; callback := callback a;
     stop_request := stop_request a;
     callback_task := task; running := false |}.

(** [ProcessManager.add_job]: returns [None] when the name is taken,
    [str(name)] otherwise. *)
Definition add_job (func : PyFunction) (cb : option nat) (name : option PyKey)
    (self : ProcessManager) : ProcessManager * option string :=
  let name := match name with None => KInt (py_id func) | Some n => n end in
  match _active_processes self !! name with
  | Some _ => (self, None)
  | None =>
      let job := {| function := func;
                    callback := {| user_callback := cb; job_name := name |};
                    stop_request := false; callback_task := None;
                    running := true |} in
      ({| _active_processes := <[name := length (threads self)]> (_active_processes self);
          threads := threads self ++ [job];
          main_loop := main_loop self;
          called := called self |},
       Some (py_str name))
  end.

(** What [remove_job] returns: the AsyncCall, or [False]. *)
Inductive Removed : Set :=
| Ref (job : nat)
| PyFalse.

(** [ProcessManager.remove_job] *)
Definition remove_job (name : PyKey) (send_stop_request : bool)
    (self : ProcessManager) : ProcessManager * Removed :=
  match _active_processes self !! name with
  | Some _ref =>
      ({| _active_processes := delete name (_active_processes self);
          threads := if send_stop_request
                     then alter set_stop _ref (threads self)
                     else threads self;
          main_loop := main_loop self;
          called := called self |},
       Ref _ref)
  | None => (self, PyFalse)
  end.

(** [ProcessManager.remove_jobs] *)
Definition remove_jobs (self : ProcessManager) : ProcessManager :=
  {| _active_processes := ∅;
     threads := map_fold (λ _ job ts, alter set_stop job ts)
                 (threads self) (_active_processes self);
     main_loop := main_loop self;
     called := called self |}.

(** [ProcessManager.__contains__] *)
Definition contains (name : PyKey) (self : ProcessManager) : bool :=
  bool_decide (is_Some (_active_processes self !! name)).

(** [ProcessManager.__len__] *)
Definition len (self : ProcessManager) : nat := size (_active_processes self).

(** The end of [AsyncCall.target], once [self.function] has returned
    or raised: the callback is handed to the main loop unless the stop
    request is set. A thread runs [target] once. *)
Definition target (job : nat) (c : Completion) (self : ProcessManager)
    : ProcessManager :=
  match threads self !! job with
  | Some a =>
      if negb (running a) then self
      else if negb (stop_request a) then
        {| _active_processes := _active_processes self;
           threads := <[job := set_done (Some (length (main_loop self))) a]> (threads self);
           main_loop := main_loop self
                        ++ [{| idle_job := job; idle_result := result_of c;
                               idle_error := error_of c |}];
           called := called self |}
      else
        {| _active_processes := _active_processes self;
           threads := <[job := set_done None a]> (threads self);
           main_loop := main_loop self;
           called := called self |}
  | None => self
  end.

(** One turn of the main loop: the oldest waiting call runs, which is
    [_callback(r, e)]: the caller's callback, if there is one, then
    [remove_job(name)]. [raised] is what the caller's callback does
    when it is called: [None] when it returns, the exception when it
    raises. Nothing catches that exception inside [_callback], so
    [remove_job] is not reached then. *)
Definition idle (raised : option Py.exn) (self : ProcessManager) : ProcessManager :=
  match main_loop self with
  | [] => self
  | call :: rest =>
      let self' := {| _active_processes := _active_processes self;
                      threads := threads self;
                      main_loop := rest;
                      called := called self ++ [call] |} in
      match threads self !! idle_job call with
      | Some a =>
          match user_callback (callback a), raised with
          | Some _, Some _ => self'
          | _, _ => fst (remove_job (job_name (callback a)) true self')
          end
      | None => self'
      end
  end.

(** What can happen to a manager, from any thread. The main loop runs
    its oldest call, and the caller's callback returns ([EvIdle]) or
    raises ([EvIdleRaises]). *)
Inductive Event : Set :=
| EvAddJob (func : PyFunction) (cb : option nat) (name : option PyKey)
| EvRemoveJob (name : PyKey) (send_stop_request : bool)
| EvRemoveJobs
| EvTarget (job : nat) (c : Completion)
| EvIdle
| EvIdleRaises (e : Py.exn).

Definition step (ev : Event) (self : ProcessManager) : ProcessManager :=
  match ev with
  | EvAddJob f cb n => fst (add_job f cb n self)
  | EvRemoveJob n s => fst (remove_job n s self)
  | EvRemoveJobs => remove_jobs self
  | EvTarget j c => target j c self
  | EvIdle => idle None self
  | EvIdleRaises e => idle (Some e) self
  end.

Definition run (evs : list Event) (self : ProcessManager) : ProcessManager :=
  foldl (λ s ev, step ev s) self evs.

(** The callbacks of [job] among a list of calls. *)
Definition calls_of (job : nat) (l : list IdleCall) : list IdleCall :=
  filter (λ c, idle_job c = job) l.

(** Successive [add_job] calls under one name; the results in order. *)
Fixpoint add_jobs (name : PyKey) (calls : list (PyFunction * option nat))
    (self : ProcessManager) : ProcessManager * list (option string) :=
  match calls with
  | [] => (self, [])
  | (f, cb) :: rest =>
      let '(self', r) := add_job f cb (Some name) self in
      let '(self'', rs) := add_jobs name rest self' in
      (self'', r :: rs)
  end.

(** The calls of a job the main loop holds or has run. *)
Definition seen_calls (job : nat) (self : ProcessManager) : list IdleCall :=
  calls_of job (called self ++ main_loop self).

(** A job whose [target] has come to its end. *)
Definition ended (job : nat) (self : ProcessManager) : Prop :=
  ∃ a, threads self !! job = Some a ∧ running a = false.

(** A manager with one job, submitted under the name ["probe"]. *)
Definition one_job : ProcessManager :=
  (add_job {| py_id := 7 |} (Some 0) (Some (KStr "probe")) empty_manager).1.

End Jobs.

(** ** [lutris/lists.py] *)

Module Lists.

Definition is_alpha (a : ascii) : bool :=
  let n := nat_of_ascii a in
  ((65 <=? n)%nat && (n <=? 90)%nat) || ((97 <=? n)%nat && (n <=? 122)%nat).

Definition is_scheme_char (a : ascii) : bool :=
  let n := nat_of_ascii a in
  is_alpha a || ((48 <=? n)%nat && (n <=? 57)%nat)
  || bool_decide (a = "+"%char) || bool_decide (a = "-"%char)
  || bool_decide (a = "."%char).

Fixpoint all_chars (p : ascii → bool) (s : string) : bool :=
  match s with
  | EmptyString => true
  | String a s' => p a && all_chars p s'
  end.

(** The text up to the first of [/], [?] and [#]. *)
Fixpoint until_delim (s : string) : string :=
  match s with
  | EmptyString => EmptyString
  | String a s' =>
      if bool_decide (a = "/"%char) || bool_decide (a = "?"%char)
         || bool_decide (a = "#"%char)
      then EmptyString
      else String a (until_delim s')
  end.

(** The characters [urlsplit] strips off the front of a url: the C0
    controls and the space. *)
Definition is_c0_or_space (a : ascii) : bool := (nat_of_ascii a <=? 32)%nat.

Fixpoint lstrip (s : string) : string :=
  match s with
  | EmptyString => EmptyString
  | String a s' => if is_c0_or_space a then lstrip s' else s
  end.

(** The characters [urlsplit] takes out of a url wherever they stand:
    tab, carriage return and line feed. *)
Definition is_unsafe (a : ascii) : bool :=
  let n := nat_of_ascii a in
  (n =? 9)%nat || (n =? 13)%nat || (n =? 10)%nat.

Fixpoint remove_unsafe (s : string) : string :=
  match s with
  | EmptyString => EmptyString
  | String a s' =>
      if is_unsafe a then remove_unsafe s' else String a (remove_unsafe s')
  end.

Definition is_ascii (a : ascii) : bool := (nat_of_ascii a <? 128)%nat.

(** [c in s] *)
Fixpoint has_char (c : ascii) (s : string) : bool :=
  match s with
  | EmptyString => false
  | String a s' => bool_decide (a = c) || has_char c s'
  end.

(** [urlparse(url).netloc] of the Python library ([urlsplit] of
    CPython 3.11): leading controls and spaces are stripped and tabs
    and line ends removed; the scheme, when there is one, is cut off at
    its colon; the network location is what follows a double slash, up
    to the path, query or fragment. One bracket without the other
    raises ValueError. A network location with both brackets, or with a
    character outside ASCII, goes through checks of the library
    ([_check_bracketed_netloc], [_checknetloc]) that are not modelled:
    [checked] tells whether they let it pass, and they raise ValueError
    when they do not. *)
Definition netloc (checked : string → bool) (url : string) : result string :=
  let url := remove_unsafe (lstrip url) in
  let rest :=
    match String.index 0 ":" url with
    | Some (S i) =>
        let scheme := String.substring 0 (S i) url in
        if all_chars is_scheme_char scheme
           && match scheme with String a _ => is_alpha a | _ => false end
        then Py.drop (S (S i)) url
        else url
    | _ => url
    end in
  if Py.startswith "//" rest then
    let netloc := until_delim (Py.drop 2 rest) in
    let opening := has_char "[" netloc in
    let closing := has_char "]" netloc in
    if xorb opening closing then Err Py.ValueError
    else if (opening || negb (all_chars is_ascii netloc)) && negb (checked netloc)
    then Err Py.ValueError
    else Ok netloc
  else Ok "".

(** [restricted_domains()] *)
Definition restricted_domains : list string := ["archive.org"].

(** [restricted_domains_contain(url)] *)
Definition restricted_domains_contain (checked : string → bool) (url : string)
    : result bool :=
  if negb (Py.startswith "http" url) then Ok false
  else
    match netloc checked url with
    | Err e => Err e
    | Ok domain =>
        Ok (existsb (λ restricted_domain, Py.endswith restricted_domain domain)
                    restricted_domains)
    end.

End Lists.

(** ** [lutris/installer/installer_file_source.py] *)

Module Source.

(** The class of a source object. *)
Inductive Class : Set :=
| SourceSteam
| SourceDownload
| SourceUser
| SourceCache.

#[export] Instance Class_eq_dec : EqDecision Class.
Proof. solve_decision. Defined.

(** The values [available] takes: [None], a [bool], or the [-1] of a
    network error. *)
Inductive Availability : Set :=
| AvNone
| AvTrue
| AvFalse
| AvNetError.

#[export] Instance Availability_eq_dec : EqDecision Availability.
Proof. solve_decision. Defined.

Definition truthy_availability (a : Availability) : bool :=
  match a with AvTrue | AvNetError => true | AvNone | AvFalse => false end.

(** A Python [float] as the code uses it. The code stores a speed,
    compares it ([==], and [>] inside [max]) and asks whether it is
    zero; it never computes with one. [Real v] stands for the floats
    that are numbers, the infinities among them, through a map into the
    integers that keeps their order and sends [0.0] and [-0.0] to [0];
    [NaN] is not-a-number, which no comparison finds equal to or
    greater than anything, itself included. *)
Inductive PyFloat : Set :=
| Real (v : Z)
| NaN.

Bind Scope Z_scope with PyFloat.
Coercion Real : Z >-> PyFloat.

#[export] Instance PyFloat_eq_dec : EqDecision PyFloat.
Proof. solve_decision. Defined.

(** [a == b] *)
Definition float_eq (a b : PyFloat) : bool :=
  match a, b with
  | Real x, Real y => bool_decide (x = y)
  | _, _ => false
  end.

(** [a > b] *)
Definition float_gt (a b : PyFloat) : bool :=
  match a, b with
  | Real x, Real y => bool_decide (y < x)%Z
  | _, _ => false
  end.

(** [bool(a)]: not-a-number is true. *)
Definition float_truthy (a : PyFloat) : bool := negb (float_eq a 0).

(** The values [speed] takes: [None] (never tested), [False] (tested,
    not applicable) or a measurement in bytes per second, a float. *)
Inductive Speed : Set :=
| SpNone
| SpFalse
| SpBytes (v : PyFloat).

#[export] Instance Speed_eq_dec : EqDecision Speed.
Proof. solve_decision. Defined.

Definition truthy_speed (s : Speed) : bool :=
  match s with
  | SpBytes v => float_truthy v
  | SpNone | SpFalse => false
  end.

(** A source object. The fields a class does not have keep their
    initial value. The checksum, referer, sizes and alternate file
    names play no part in selection or probing and are left out.
    [connected] tells whether the owning file has connected its
    [on_speed_measured] to the signal [new-speed-measured] of the
    source. *)
Record t : Set := {
  cls : Class;
  source_id : string;
  _url : string;
  _available : Availability;
  _speed : Speed;
  error : option Py.exn;
  error_code : option Z;
  _temporary : bool;
  connected : bool
}.

(** [InstallerFileSource.__init__] through the class given. *)
Definition new (c : Class) (source_id url : string) (temporary : bool) : t :=
  {| cls := c; source_id := source_id; _url := url;
     _available := AvNone; _speed := SpNone;
     error := None; error_code := None; _temporary := temporary;
     connected := false |}.

Definition isinstance (c : Class) (s : t) : bool := bool_decide (cls s = c).

Definition set_source_id (i : string) (s : t) : t :=
  {| cls := cls s; source_id := i; _url := _url s;
     _available := _available s; _speed := _speed s;
     error := error s; error_code := error_code s;
     _temporary := _temporary s; connected := connected s |}.

Definition set_speed (v : Speed) (s : t) : t :=
  {| cls := cls s; source_id := source_id s; _url := _url s;
     _available := _available s; _speed := v;
     error := error s; error_code := error_code s;
     _temporary := _temporary s; connected := connected s |}.

Definition set_available (a : Availability) (s : t) : t :=
  {| cls := cls s; source_id := source_id s; _url := _url s;
     _available := a; _speed := _speed s;
     error := error s; error_code := error_code s;
     _temporary := _temporary s; connected := connected s |}.

Definition set_error (e : option Py.exn) (code : option Z) (s : t) : t :=
  {| cls := cls s; source_id := source_id s; _url := _url s;
     _available := _available s; _speed := _speed s;
     error := e; error_code := code;
     _temporary := _temporary s; connected := connected s |}.

(** [source.connect("new-speed-measured", self.on_speed_measured)] *)
Definition connect (s : t) : t :=
  {| cls := cls s; source_id := source_id s; _url := _url s;
     _available := _available s; _speed := _speed s;
     error := error s; error_code := error_code s;
     _temporary := _temporary s; connected := true |}.

(** The [url] property (the getter is the same in every class). *)
Definition url (s : t) : string := _url s.

(** The [domain] property: the network location for a download, [None]
    for the others; [urlparse] may raise. *)
Definition domain (checked : string → bool) (s : t) : result (option string) :=
  match cls s with
  | SourceDownload =>
      match Lists.netloc checked (_url s) with
      | Ok d => Ok (Some d)
      | Err e => Err e
      end
  | _ => Ok None
  end.

(** The [available] property, on a file system given as the set of the
    paths that exist: [os.path.exists(self.url[7:])] for the user and
    cache sources. *)
Definition available (files : gset string) (s : t) : Availability :=
  match cls s with
  | SourceSteam => AvNone
  | SourceDownload => _available s
  | SourceUser | SourceCache =>
      if bool_decide (Py.drop 7 (url s) ∈ files) then AvTrue else AvFalse
  end.

(** The [speed] property. *)
Definition speed (s : t) : Speed :=
  match cls s with
  | SourceDownload => _speed s
  | _ => SpFalse
  end.

(** The [is_restricted] property of a download source. *)
Definition is_restricted (checked : string → bool) (s : t) : result bool :=
  Lists.restricted_domains_contain checked (_url s).

(** The loop [for _source in _sources: if not _source.is_restricted]:
    the first source that is not restricted, [None] when the loop comes
    to its end, or the exception [is_restricted] raises on the way. *)
Fixpoint first_unrestricted (checked : string → bool) (_sources : list (nat * t))
    : result (option (nat * t)) :=
  match _sources with
  | [] => Ok None
  | _source :: rest =>
      match is_restricted checked _source.2 with
      | Err e => Err e
      | Ok false => Ok (Some _source)
      | Ok true => first_unrestricted checked rest
      end
  end.

(** The [is_pga_cache] property of a cache source. *)
Definition is_pga_cache (s : t) : bool := negb (_temporary s).

End Source.

(** ** [lutris/installer/installer_file.py] *)

Module File.

Import Source.

(** What lies outside the object: the cache configuration, the
    directory layout and the file system, the last as the set of the
    paths that exist; and the network locations the checks of
    [urlparse] let pass (see [Lists.netloc]). *)
Record World : Type := {
  has_valid_custom_cache_path : bool;
  get_url_cache_path : string → string → string → string;
  isdir : string → bool;
  listdir : string → list string;
  writable : string → bool;
  files : gset string;
  valid_netloc : string → bool
}.

Definition set_files (fs : gset string) (w : World) : World :=
  {| has_valid_custom_cache_path := has_valid_custom_cache_path w;
     get_url_cache_path := get_url_cache_path w;
     isdir := isdir w; listdir := listdir w; writable := writable w;
     files := fs; valid_netloc := valid_netloc w |}.

(** An [InstallerFile] object once [__init__] has assigned its
    attributes. A reference to a source is its position in [sources]
    (the list only grows); [None] is Python's [None]. *)
Record t : Set := {
  game_slug : string;
  id : string;
  _filename : option string;
  _multiple_sources : bool;
  _url_override : option string;
  sources : list Source.t;
  _user_source : option nat;
  cache_source : option nat;
  active_source : option nat;
  _first_valid_download_source : option nat;
  _dest_file_override : option string;
  _dest_file_found : option string
}.

Definition set_url_override (v : option string) (self : t) : t :=
  {| game_slug := game_slug self; id := id self; _filename := _filename self;
     _multiple_sources := _multiple_sources self; _url_override := v;
     sources := sources self; _user_source := _user_source self;
     cache_source := cache_source self; active_source := active_source self;
     _first_valid_download_source := _first_valid_download_source self;
     _dest_file_override := _dest_file_override self;
     _dest_file_found := _dest_file_found self |}.

Definition set_sources (v : list Source.t) (self : t) : t :=
  {| game_slug := game_slug self; id := id self; _filename := _filename self;
     _multiple_sources := _multiple_sources self;
     _url_override := _url_override self;
     sources := v; _user_source := _user_source self;
     cache_source := cache_source self; active_source := active_source self;
     _first_valid_download_source := _first_valid_download_source self;
     _dest_file_override := _dest_file_override self;
     _dest_file_found := _dest_file_found self |}.

Definition set_cache_source (v : option nat) (self : t) : t :=
  {| game_slug := game_slug self; id := id self; _filename := _filename self;
     _multiple_sources := _multiple_sources self;
     _url_override := _url_override self;
     sources := sources self; _user_source := _user_source self;
     cache_source := v; active_source := active_source self;
     _first_valid_download_source := _first_valid_download_source self;
     _dest_file_override := _dest_file_override self;
     _dest_file_found := _dest_file_found self |}.

Definition set_active_source (v : option nat) (self : t) : t :=
  {| game_slug := game_slug self; id := id self; _filename := _filename self;
     _multiple_sources := _multiple_sources self;
     _url_override := _url_override self;
     sources := sources self; _user_source := _user_source self;
     cache_source := cache_source self; active_source := v;
     _first_valid_download_source := _first_valid_download_source self;
     _dest_file_override := _dest_file_override self;
     _dest_file_found := _dest_file_found self |}.

Definition set_first_valid_download_source (v : option nat) (self : t) : t :=
  {| game_slug := game_slug self; id := id self; _filename := _filename self;
     _multiple_sources := _multiple_sources self;
     _url_override := _url_override self;
     sources := sources self; _user_source := _user_source self;
     cache_source := cache_source self; active_source := active_source self;
     _first_valid_download_source := v;
     _dest_file_override := _dest_file_override self;
     _dest_file_found := _dest_file_found self |}.

Definition set_dest_file_override (v : option string) (self : t) : t :=
  {| game_slug := game_slug self; id := id self; _filename := _filename self;
     _multiple_sources := _multiple_sources self;
     _url_override := _url_override self;
     sources := sources self; _user_source := _user_source self;
     cache_source := cache_source self; active_source := active_source self;
     _first_valid_download_source := _first_valid_download_source self;
     _dest_file_override := v;
     _dest_file_found := _dest_file_found self |}.

Definition set_dest_file_found (v : option string) (self : t) : t :=
  {| game_slug := game_slug self; id := id self; _filename := _filename self;
     _multiple_sources := _multiple_sources self;
     _url_override := _url_override self;
     sources := sources self; _user_source := _user_source self;
     cache_source := cache_source self; active_source := active_source self;
     _first_valid_download_source := _first_valid_download_source self;
     _dest_file_override := _dest_file_override self;
     _dest_file_found := v |}.

(** The result of a method that may change the object: the object as
    the call leaves it, with the value returned or the exception
    raised. *)
Inductive outcome (A : Type) : Type :=
| Return (a : A) (self : t)
| Raise (e : Py.exn) (self : t).
Arguments Return {A} a self.
Arguments Raise {A} e self.

Definition state_of {A} (o : outcome A) : t :=
  match o with Return _ self => self | Raise _ self => self end.

Definition bind {A B} (m : result A) (k : A → result B) : result B :=
  match m with Ok a => k a | Err e => Err e end.

Notation "'let!' x ':=' m 'in' k" := (bind m (λ x, k))
  (at level 10, x name, m at level 100, k at level 200).

(** *** Source handling *)

(** The sources with their references, in list order. *)
Fixpoint enumerate_from (i : nat) (l : list Source.t) : list (nat * Source.t) :=
  match l with
  | [] => []
  | s :: l' => (i, s) :: enumerate_from (S i) l'
  end.

Definition enumerate (self : t) : list (nat * Source.t) :=
  enumerate_from 0 (sources self).

(** [get_values_from_sources("source_id")] *)
Definition get_values_from_sources_source_id (self : t) : list string :=
  Source.source_id <$> sources self.

(** [get_sources_by_value("source_id", value)] *)
Definition get_sources_by_value_source_id (value : string) (self : t)
    : list (nat * Source.t) :=
  filter (λ rs, Source.source_id rs.2 = value) (enumerate self).

(** [get_sources_by_value("available", True)] *)
Definition get_sources_by_value_available (w : World) (self : t)
    : list (nat * Source.t) :=
  filter (λ rs, Source.available (files w) rs.2 = AvTrue) (enumerate self).

(** [get_sources_by_class(sourceClass)] *)
Definition get_sources_by_class (c : Class) (self : t) : list (nat * Source.t) :=
  filter (λ rs, Source.cls rs.2 = c) (enumerate self).

(** [source_exists(SourceClass)] *)
Definition source_exists (c : Class) (self : t) : bool :=
  existsb (Source.isinstance c) (sources self).

(** The [get_sources_amount] property. *)
Definition get_sources_amount (self : t) : nat := length (sources self).

(** The loop of [_unique_id]: [new_id] is replaced by the id with the
    next counter while it is in the list. [rounds] bounds the number of
    rounds; [unique_loop_leaves] shows that one more than the length of
    the list is enough for the loop to end by its own test. *)
Fixpoint unique_loop (rounds : nat) (source_id new_id : string) (i : nat)
    (id_list : list string) : string :=
  match rounds with
  | 0 => new_id
  | S rounds =>
      if bool_decide (new_id ∈ id_list)
      then unique_loop rounds source_id (source_id +:+ pretty i) (S i) id_list
      else new_id
  end.

(** [_unique_id(source_id, id_list)]. [self] is [None] while
    [self.sources] is not assigned yet (inside
    [_read_sources_from_file]). The result is [None] where the code
    comes to its bare [return]. The id computed by the loop is
    dropped: the code returns [source_id]. *)
Definition _unique_id (self : option t) (source_id : string)
    (id_list : option (list string)) : option string :=
  let source_id :=
    if Py.startswith "|" source_id then Py.slice 1 0 source_id else source_id in
  let id_list :=
    match id_list with
    | Some (_ :: _) => id_list
    | _ => get_values_from_sources_source_id <$> self
    end in
  match id_list with
  | None => None
  | Some id_list =>
      let source_id := if Py.truthy_str source_id then source_id else "source" in
      let new_id := unique_loop (S (length id_list)) source_id source_id 0 id_list in
      Some source_id
  end.

(** [add_source(source)] *)
Definition add_source (source : Source.t) (self : t) : outcome string :=
  if Source.isinstance SourceCache source && bool_decide (is_Some (cache_source self))
  then Raise Py.ValueError self
  else
    match _unique_id (Some self) (Source.source_id source) None with
    | Some new_id =>
        Return new_id
          (set_sources (sources self ++ [Source.set_source_id new_id source]) self)
    | None => Raise Py.TypeError self (* not reached: [self.sources] exists *)
    end.

(** [self._sources]: the class assigns [sources] and [_sources_lock];
    there is no attribute of this name. *)
Definition _sources_attribute (self : t) : result (list Source.t) :=
  Err Py.AttributeError.

(** [url_override(url)] *)
Definition url_override (url : option string) (self : t) : t :=
  set_url_override url self.

(** *** Properties read while selecting *)

(** The names the module [installer_file] binds: what it imports and
    the class it defines. *)
Definition module_names : list string :=
  ["os"; "BytesIO"; "_"; "__"; "Optional"; "Tuple"; "Dict"; "Set"; "urlparse";
   "Lock"; "GObject"; "Gtk"; "get_url_cache_path"; "has_valid_custom_cache_path";
   "save_to_cache"; "DownloadProgressBox"; "ScriptingError"; "system";
   "Downloader"; "is_file_available"; "logger"; "gtk_safe_urls";
   "thread_namespace"; "check_stop"; "StopRequested"; "ProcessManager";
   "schedule_at_idle"; "SourceSteam"; "SourceDownload"; "SourceUser";
   "SourceCache"; "InstallerFile"].

(** The value of a name given as the class to [isinstance]: NameError
    for a name the module does not bind, TypeError for one that is not
    a source class. *)
Definition source_class_named (name : string) : result Class :=
  if bool_decide (name ∈ module_names) then
    if bool_decide (name = "SourceSteam") then Ok SourceSteam
    else if bool_decide (name = "SourceDownload") then Ok SourceDownload
    else if bool_decide (name = "SourceUser") then Ok SourceUser
    else if bool_decide (name = "SourceCache") then Ok SourceCache
    else Err Py.TypeError
  else Err Py.NameError.

(** The [has_no_sources] property:
    [hasattr(self, "sources") and len(self.sources) == 1
     and isinstance(self.active_source, UserSource)].
    [self] is [None] while [self.sources] is not assigned yet. *)
Definition has_no_sources (self : option t) : result bool :=
  match self with
  | None => Ok false
  | Some self =>
      if bool_decide (length (sources self) = 1) then
        let! UserSource := source_class_named "UserSource" in
        Ok (match active_source self ≫= (sources self !!.) with
            | Some s => Source.isinstance UserSource s
            | None => false
            end)
      else Ok false
  end.

(** [uses_pga_cache()] *)
Definition uses_pga_cache (w : World) (self : option t) : result bool :=
  let! no_sources := has_no_sources self in
  if no_sources then Ok false else Ok (has_valid_custom_cache_path w).

(** The [url] property. *)
Definition url (self : t) : result string :=
  if Py.truthy_ostr (_url_override self)
  then Ok (default "" (_url_override self))
  else
    match active_source self ≫= (sources self !!.) with
    | Some s => Ok (Source.url s)
    | None => Err Py.AttributeError
    end.

(** The [_cache_path] property. *)
Definition _cache_path (w : World) (self : t) : result string :=
  let! u := url self in
  Ok (get_url_cache_path w u (id self) (game_slug self)).

(** The [cached_filename] property. *)
Definition cached_filename (w : World) (self : t) : result string :=
  let! p := _cache_path w self in
  Ok (default "" (head (listdir w p))).

(** [os.path.basename] *)
Fixpoint basename_from (acc : string) (p : string) : string :=
  match p with
  | EmptyString => acc
  | String a p' =>
      if bool_decide (a = "/"%char) then basename_from p' p' else basename_from acc p'
  end.

Definition basename (p : string) : string := basename_from p p.

(** [os.path.join(a, b)] *)
Definition path_join (a b : string) : string :=
  if Py.startswith "/" b then b
  else if negb (Py.truthy_str a) || Py.endswith "/" a then a +:+ b
  else a +:+ "/" +:+ b.

(** The [filename] property; [None] when it falls off its end. *)
Definition filename (w : World) (self : t) : result (option string) :=
  match sources self with
  | [] => Ok None
  | _ :: _ =>
      if _multiple_sources self then
        if negb (Py.truthy_ostr (_filename self)) then Err Py.ScriptingError
        else Ok (_filename self)
      else
        let! single :=
          if bool_decide (length (sources self) = 1) then
            let! pga := uses_pga_cache w (Some self) in
            let! dir := (if pga then let! p := _cache_path w self in Ok (isdir w p)
                         else Ok false) in
            if dir then let! f := cached_filename w self in Ok (Some (Some f))
            else Ok (Some (Some ""))
          else Ok None in
        match single with
        | Some f => Ok f
        | None =>
            match find (λ s, negb (Source.isinstance SourceUser s)) (sources self) with
            | None => Err Py.AttributeError
            | Some external_source =>
                if Source.isinstance SourceSteam external_source then
                  match active_source self ≫= (sources self !!.) with
                  | Some s => Ok (Some (Source.url s))
                  | None => Err Py.AttributeError
                  end
                else Ok (Some (basename (Source.url external_source)))
            end
        end
  end.

(** *** Selection *)

(** [select_source(source_id)]. The method calls itself; [depth] is
    the number of nested calls the interpreter still allows. The last
    branch evaluates [self.filename] and then the [domain] of the new
    active source for its log line, after the assignment. *)
Fixpoint select_source (w : World) (depth : nat) (source_id : string)
    (self : t) : outcome nat :=
  match depth with
  | 0 => Raise Py.RecursionError self
  | S depth =>
      let self := url_override None self in
      let selected :=
        match active_source self with
        | None => Ok None
        | Some a =>
            match sources self !! a with
            | Some s =>
                Ok (if bool_decide (Source.source_id s = source_id)
                    then Some a else None)
            | None => Err Py.AttributeError
            end
        end in
      match selected with
      | Err e => Raise e self
      | Ok (Some a) => Return a self
      | Ok None =>
          if bool_decide (source_id = "|init") then
            match cache_source self with
            | Some c =>
                match sources self !! c with
                | Some s => select_source w depth (Source.source_id s) self
                | None => Raise Py.AttributeError self
                end
            | None =>
                let user :=
                  match _user_source self ≫= (sources self !!.) with
                  | Some s => select_source w depth (Source.source_id s) self
                  | None => Raise Py.AttributeError self
                  end in
                if bool_decide (1 < get_sources_amount self) then
                  match get_sources_by_class SourceSteam self with
                  | (_, s) :: _ => select_source w depth (Source.source_id s) self
                  | [] =>
                      match get_sources_by_class SourceDownload self with
                      | ((r0, s0) :: _) as _sources =>
                          match Source.first_unrestricted (valid_netloc w) _sources with
                          | Err e => Raise e self
                          | Ok (Some (r, _source)) =>
                              select_source w depth (Source.source_id _source)
                                (set_first_valid_download_source (Some r) self)
                          | Ok None =>
                              select_source w depth (Source.source_id s0)
                                (set_first_valid_download_source (Some r0) self)
                          end
                      | [] => user
                      end
                  end
                else user
            end
          else if bool_decide (source_id = "|auto_available") then
            let _sources := get_sources_by_class SourceDownload self in
            match Source.first_unrestricted (valid_netloc w) _sources with
            | Err e => Raise e self
            | Ok (Some (_, _source)) =>
                select_source w depth (Source.source_id _source) self
            | Ok None =>
                match _sources_attribute self with
                | Err e => Raise e self
                | Ok [] => Raise Py.IndexError self
                | Ok (first :: _) =>
                    if truthy_availability (Source.available (files w) first) then
                      match _sources with
                      | (_, s0) :: _ =>
                          select_source w depth (Source.source_id s0) self
                      | [] => Raise Py.IndexError self
                      end
                    else Raise Py.RuntimeError self
                end
            end
          else
            if negb (bool_decide (source_id ∈ get_values_from_sources_source_id self))
            then select_source w depth "|init" self
            else
              match get_sources_by_value_source_id source_id self with
              | (r, source) :: _ =>
                  let self := set_active_source (Some r) self in
                  match filename w self with
                  | Ok _ =>
                      match Source.domain (valid_netloc w) source with
                      | Ok _ => Return r self
                      | Err e => Raise e self
                      end
                  | Err e => Raise e self
                  end
              | [] => Raise Py.IndexError self
              end
      end
  end.

(** *** Destination *)

(** [get_alternate_filenames()] for the active source: no source class
    has an attribute [_alternate_filenames], so the list is empty. *)
Definition get_alternate_filenames (self : t) : result (list string) :=
  match active_source self ≫= (sources self !!.) with
  | None => Err Py.AttributeError
  | Some a =>
      match get_sources_by_value_source_id (Source.source_id a) self with
      | [] => Err Py.IndexError
      | _ :: _ => Ok []
      end
  end.

(** [find_dest_file()] inside the [dest_file] property. *)
Definition find_dest_file (w : World) (self : t) : result string :=
  let! alternates := get_alternate_filenames self in
  let! found :=
    (fix look (names : list string) : result (option string) :=
       match names with
       | [] => Ok None
       | alt_name :: rest =>
           let! p := _cache_path w self in
           let alt_path := path_join p alt_name in
           if bool_decide (alt_path ∈ files w) then Ok (Some alt_path) else look rest
       end) alternates in
  match found with
  | Some alt_path => Ok alt_path
  | None =>
      let! p := _cache_path w self in
      let! f := filename w self in
      match f with
      | Some f => Ok (path_join p f)
      | None => Err Py.TypeError
      end
  end.

(** The [dest_file] property; it keeps what it found. *)
Definition dest_file (w : World) (self : t) : outcome string :=
  if Py.truthy_ostr (_dest_file_override self)
  then Return (default "" (_dest_file_override self)) self
  else if Py.truthy_ostr (_dest_file_found self)
  then Return (default "" (_dest_file_found self)) self
  else
    match find_dest_file w self with
    | Ok p => Return p (set_dest_file_found (Some p) self)
    | Err e => Raise e self
    end.

(** The [download_file] property. *)
Definition download_file (w : World) (self : t) : outcome string :=
  match dest_file w self with
  | Return p self => Return (p +:+ ".tmp") self
  | Raise e self => Raise e self
  end.

(** The [is_dest_file_overridden] property. *)
Definition is_dest_file_overridden (self : t) : bool :=
  Py.truthy_ostr (_dest_file_override self).

(** The [is_cached] property. *)
Definition is_cached (w : World) (self : t) : outcome bool :=
  match uses_pga_cache w (Some self) with
  | Err e => Raise e self
  | Ok false => Return false self
  | Ok true =>
      match dest_file w self with
      | Return p self => Return (bool_decide (p ∈ files w)) self
      | Raise e self => Raise e self
      end
  end.

(** [prepare()]: the directories it makes are not files of [World]. *)
Definition prepare (w : World) (self : t) : outcome unit :=
  if negb (is_dest_file_overridden self) then
    match url self with
    | Ok _ => Return () self
    | Err e => Raise e self
    end
  else Return () self.

(** *** Construction *)

(** A nested dict of the [files] section: its [url], when it has one. *)
Record SourceMeta : Set := { meta_url : option string }.

(** A dict of the [files] section: the [filename] and [url] it may
    have, and its dict-valued entries in order, with their keys. *)
Record DictMeta : Set := {
  meta_filename : option string;
  meta_top_url : option string;
  meta_items : list (string * SourceMeta)
}.

(** [file_meta]: a plain url, or a dict. *)
Inductive FileMeta : Set :=
| MetaUrl (url : string)
| MetaDict (d : DictMeta).

(** [_new_source(_dict, source_id)], on the url of the dict. *)
Definition _new_source (_url : string) (source_id : string) : result Source.t :=
  if Py.startswith "$STEAM" _url then Ok (Source.new SourceSteam source_id _url false)
  else if Py.startswith "N/A" _url then Ok (Source.new SourceUser source_id _url false)
  else if Py.startswith "http" _url || Py.startswith "file" _url
  then Ok (Source.new SourceDownload source_id _url false)
  else Err Py.ValueError.

(** [str(source_id)] in [InstallerFileSource.__init__]. *)
Definition str_of_id (i : option string) : string := default "None" i.

(** The loop of [_read_sources_from_file] over the dict-valued entries. *)
Fixpoint read_items (items : list (string * SourceMeta))
    (sources : list Source.t) (used_ids : list string) : result (list Source.t) :=
  match items with
  | [] => Ok sources
  | (key, value) :: rest =>
      match meta_url value with
      | None => Err Py.ScriptingError
      | Some u =>
          let new_id :=
            match used_ids with
            | [] => Some key
            | _ :: _ => _unique_id None key (Some used_ids)
            end in
          let! _new := _new_source u (str_of_id new_id) in
          read_items rest (sources ++ [_new])%list (used_ids ++ [Source.source_id _new])%list
      end
  end.

(** [_read_sources_from_file(file_meta)]: the sources, with the
    [_filename] and [_multiple_sources] it sets on the way. The object
    has no [sources] yet. With a valid custom cache path the cache
    check goes on to [self.is_cached], whose [dest_file] asks for
    [self._dest_file_override] before [__init__] has assigned it: the
    cache source of the PGA cache is never made, and the url it would
    get is left empty here. *)
Definition _read_sources_from_file (w : World) (file_meta : FileMeta)
    : result (list Source.t * option string * bool) :=
  let! read :=
    match file_meta with
    | MetaDict d =>
        match meta_top_url d with
        | Some u =>
            let! s := _new_source u "1" in Ok ([s], meta_filename d)
        | None =>
            let! l := read_items (meta_items d) [] [] in Ok (l, meta_filename d)
        end
    | MetaUrl u =>
        let! s := _new_source u "1" in Ok ([s], Some "")
    end in
  let '(sources, name) := read in
  let sources :=
    (λ source, if Source.isinstance SourceDownload source
               then Source.connect source else source) <$> sources in
  let sources :=
    if existsb (Source.isinstance SourceUser) sources then sources
    else (sources
          ++ [Source.new SourceUser
                (str_of_id (_unique_id None "user" (Some (Source.source_id <$> sources))))
                "N/A" false])%list in
  let! pga := uses_pga_cache w None in
  let! cached := (if pga then Err Py.AttributeError else Ok false) in
  let sources :=
    if cached : bool then
      sources
      ++ [Source.new SourceCache
            (str_of_id (_unique_id None "cache" (Some (Source.source_id <$> sources))))
            "" false]
    else sources in
  Ok (sources, name,
      bool_decide (1 < length (filter (λ s, Source.cls s ≠ SourceUser) sources))).

(** [str.replace("-", "_")] *)
Fixpoint replace_dash (s : string) : string :=
  match s with
  | EmptyString => EmptyString
  | String a s' =>
      String (if bool_decide (a = "-"%char) then "_"%char else a) (replace_dash s')
  end.

(** [InstallerFile.__init__]: the object, or the exception that ends
    the construction. *)
Definition __init__ (w : World) (depth : nat) (game_slug file_id : string)
    (file_meta : FileMeta) : result t :=
  let! read := _read_sources_from_file w file_meta in
  let '(sources, name, multiple) := read in
  let self :=
    {| game_slug := game_slug; id := replace_dash file_id;
       _filename := name; _multiple_sources := multiple;
       _url_override := None; sources := sources;
       _user_source := None; cache_source := None; active_source := None;
       _first_valid_download_source := None;
       _dest_file_override := None; _dest_file_found := None |} in
  match filter (λ rs, Source.cls rs.2 = SourceUser) (enumerate self) with
  | [] => Err Py.IndexError
  | (user, _) :: _ =>
      let self :=
        {| game_slug := game_slug; id := replace_dash file_id;
           _filename := name; _multiple_sources := multiple;
           _url_override := None; sources := sources;
           _user_source := Some user; cache_source := None;
           active_source := None;
           _first_valid_download_source := None;
           _dest_file_override := None; _dest_file_found := None |} in
      match select_source w depth "|init" self with
      | Return _ self => Ok self
      | Raise e _ => Err e
      end
  end.

(** *** The source a selection of ["|init"] should end on, in the
    words of the specification: the cache source; else the first Steam
    source; else the first download source that is not restricted;
    else the first download source; else the user source. *)
Definition first_ref (l : list (nat * Source.t)) : option nat := fst <$> head l.


(** The invariants of the data model: the ids are unique and none is
    reserved; [cache_source] and [_user_source] are the references the
    code says they are; the active source is an owned source. *)
Record wf (self : t) : Prop := {
  wf_ids : NoDup (get_values_from_sources_source_id self);
  wf_reserved :
    Forall (λ s, Py.startswith "|" (Source.source_id s) = false) (sources self);
  wf_cache : cache_source self = first_ref (get_sources_by_class SourceCache self);
  wf_user : _user_source self = first_ref (get_sources_by_class SourceUser self);
  wf_has_user : is_Some (_user_source self);
  wf_active : ∀ a, active_source self = Some a → a < length (sources self)
}.

(** The active source is one of the owned sources. *)
Definition has_active (self : t) : Prop :=
  ∃ r s, active_source self = Some r ∧ sources self !! r = Some s.

(** The attributes [select_source] never assigns. *)
Definition frame (self : t) :=
  (game_slug self, id self, _filename self, _multiple_sources self,
   sources self, _user_source self, cache_source self,
   _dest_file_override self, _dest_file_found self).

(** The reference ["|init"] records as the first valid download
    source, when it gets as far as the download sources. *)
Definition init_download (w : World) (self : t) : option nat :=
  match cache_source self with
  | Some _ => None
  | None =>
      if bool_decide (1 < get_sources_amount self) then
        match get_sources_by_class SourceSteam self with
        | _ :: _ => None
        | [] =>
            match get_sources_by_class SourceDownload self with
            | ((r0, _) :: _) as _sources =>
                match Source.first_unrestricted (valid_netloc w) _sources with
                | Err _ => None
                | Ok (Some (r, _)) => Some r
                | Ok None => Some r0
                end
            | [] => None
            end
        end
      else None
  end.

(** *** Example files *)

(** A world with no custom cache, an empty disk, and the cache
    directory of a file under the home of the user. *)
Definition example_world : World :=
  {| has_valid_custom_cache_path := false;
     get_url_cache_path :=
       λ _ file_id game_slug,
         "/home/user/.cache/lutris/installer/" +:+ game_slug +:+ "/" +:+ file_id;
     isdir := λ _, false;
     listdir := λ _, [];
     writable := λ _, true;
     files := ∅;
     valid_netloc := λ _, true |}.

(** Two mirrors, under the ids [a] and [b]. *)
Definition two_mirrors : FileMeta :=
  MetaDict
    {| meta_filename := Some "f.zip"; meta_top_url := None;
       meta_items := [("a", {| meta_url := Some "http://a.test/f.zip" |});
                      ("b", {| meta_url := Some "http://b.test/f.zip" |})] |}.

(** The object [__init__] makes of them: the sources [a], [b] and the
    user source, with [a] active. *)
Definition two_mirrors_file : t :=
  {| game_slug := "game"; id := "file";
     _filename := Some "f.zip"; _multiple_sources := true;
     _url_override := None;
     sources := [Source.connect (Source.new SourceDownload "a" "http://a.test/f.zip" false);
                 Source.connect (Source.new SourceDownload "b" "http://b.test/f.zip" false);
                 Source.new SourceUser "user" "N/A" false];
     _user_source := Some 2; cache_source := None; active_source := Some 0;
     _first_valid_download_source := Some 0;
     _dest_file_override := None; _dest_file_found := None |}.

(** The availability check has found the source [r] unreachable. *)
Definition found_unavailable (r : nat) (self : t) : t :=
  set_sources (alter (Source.set_available AvFalse) r (sources self)) self.

(** A file whose only mirror has the id ["user"]. *)
Definition mirror_called_user : FileMeta :=
  MetaDict
    {| meta_filename := None; meta_top_url := None;
       meta_items := [("user", {| meta_url := Some "http://a.test/f.zip" |})] |}.

(** A file whose first mirror has an id that starts with the bar. *)
Definition mirror_called_bar : FileMeta :=
  MetaDict
    {| meta_filename := None; meta_top_url := None;
       meta_items := [("|x", {| meta_url := Some "http://a.test/f.zip" |})] |}.

(** A file whose first mirror has the id a speed test gives the cache
    source it adds. *)
Definition mirror_called_tempcache : FileMeta :=
  MetaDict
    {| meta_filename := Some "f.zip"; meta_top_url := None;
       meta_items := [("tempcache", {| meta_url := Some "http://a.test/f.zip" |});
                      ("b", {| meta_url := Some "http://b.test/f.zip" |})] |}.

(** A file whose first mirror has a url with an opening bracket and no
    closing one. *)
Definition mirror_with_bracket : FileMeta :=
  MetaDict
    {| meta_filename := Some "f.zip"; meta_top_url := None;
       meta_items := [("a", {| meta_url := Some "http://[a.test/f.zip" |});
                      ("b", {| meta_url := Some "http://b.test/f.zip" |})] |}.

(** A file with one mirror, given as a plain url. *)
Definition one_mirror : FileMeta := MetaUrl "http://a.test/f.zip".

Definition one_mirror_file : t :=
  {| game_slug := "game"; id := "file";
     _filename := Some ""; _multiple_sources := false;
     _url_override := None;
     sources := [Source.connect (Source.new SourceDownload "1" "http://a.test/f.zip" false);
                 Source.new SourceUser "user" "N/A" false];
     _user_source := Some 1; cache_source := None; active_source := Some 0;
     _first_valid_download_source := Some 0;
     _dest_file_override := None; _dest_file_found := None |}.

(** A file with a Steam source, a mirror, and a cache source made by a
    speed test. *)
Definition cached_file : t :=
  {| game_slug := "game"; id := "file";
     _filename := Some "f.zip"; _multiple_sources := true;
     _url_override := Some "http://elsewhere.test/f.zip";
     sources := [Source.connect (Source.new SourceDownload "a" "http://a.test/f.zip" false);
                 Source.new SourceSteam "steam" "$STEAM:123:f.zip" false;
                 Source.new SourceUser "user" "N/A" false;
                 Source.new SourceCache "tempcache"
                   "/home/user/.cache/lutris/installer/game/file/f.zip" true];
     _user_source := Some 2; cache_source := Some 3; active_source := Some 0;
     _first_valid_download_source := Some 0;
     _dest_file_override := None; _dest_file_found := None |}.

(** An object that owns the user source only, as it is when
    [__init__] comes to its [select_source]. *)
Definition user_only_file : t :=
  {| game_slug := "game"; id := "file";
     _filename := None; _multiple_sources := false;
     _url_override := None;
     sources := [Source.new SourceUser "None" "N/A" false];
     _user_source := Some 0; cache_source := None; active_source := None;
     _first_valid_download_source := None;
     _dest_file_override := None; _dest_file_found := None |}.

End File.

(** ** The speed test: [SourceDownload.speed_test] and
  [InstallerFile.run_speedtest], with the calls they defer to the main
  loop *)

Module Probe.

Import Source File.

(** The state a [Downloader] shows. *)
Inductive State : Set :=
| RUNNING
| COMPLETED
| CANCELLED
| ERROR.

(** What one look at the [Downloader] of a speed test gives. *)
Record Observed : Set := {
  state : State;
  average_speed : PyFloat;
  is_file_completed : bool;
  memfile : option (list Byte.byte);
  dl_error : option Py.exn;
  dl_error_code : option Z
}.

(** A transfer: what the downloader shows at each turn of the polling
    loop. *)
Definition Transfer : Set := nat → Observed.

(** A call handed to [schedule_at_idle]. *)
Inductive Task : Set :=
| Emit (signal : string)
| Success (source : nat) (speed : PyFloat)
| Error (source : nat) (speed : PyFloat) (error : option Py.exn) (error_code : option Z)
| Prepare
| AddCached (memfile : list Byte.byte).

(** The thread that runs the speed test: how often it has read its
    stop request, and the calls it has scheduled, oldest first. *)
Record Thread : Set := { reads : nat; scheduled : list Task }.

Definition schedule_at_idle (task : Task) (th : Thread) : Thread :=
  {| reads := reads th; scheduled := scheduled th ++ [task] |}.

Definition after_read (th : Thread) : Thread :=
  {| reads := S (reads th); scheduled := scheduled th |}.

Section WithStopRequest.

(** The stop request as the thread reads it: [stop n] is what the
    [n]-th call of [is_set()] answers. *)
Variable stop : nat → bool.

(** The polling loop of [speed_test], from turn [k] on, with
    [window] turns left before the time is up. [check_stop] reads
    the stop request on entering and on leaving the [with] block; a
    stop request on entry, or after a turn that found the transfer
    running, is caught and ends the test; one that comes after
    [del _speedtest] finds the name unbound in the handler. *)
Fixpoint poll (transfer : Transfer) (source : nat) (window k : nat)
    (th : Thread) : Thread * result (option (list Byte.byte)) :=
  match window with
  | 0 => (th, Ok None)
  | S window =>
      if stop (reads th) then (after_read th, Ok None)
      else
        let th := after_read th in
        let seen := transfer k in
        match state seen with
        | COMPLETED =>
            let th := schedule_at_idle (Success source (average_speed seen)) th in
            let _tmp := if is_file_completed seen then memfile seen else None in
            if stop (reads th) then (after_read th, Err Py.UnboundLocalError)
            else (after_read th, Ok _tmp)
        | CANCELLED | ERROR =>
            let th :=
              schedule_at_idle
                (Error source (average_speed seen) (dl_error seen) (dl_error_code seen))
                th in
            if stop (reads th) then (after_read th, Err Py.UnboundLocalError)
            else (after_read th, Ok None)
        | RUNNING =>
            if stop (reads th) then (after_read th, Ok None)
            else poll transfer source window (S k) (after_read th)
        end
  end.

(** [speed_test()] of the download source [source]. *)
Definition speed_test (transfer : Transfer) (window : nat) (source : nat)
    (th : Thread) : Thread * result (option (list Byte.byte)) :=
  poll transfer source window 0 th.

(** The loop of [run_speedtest] over the download sources. The
    object is read as it was when the run began: the calls the
    thread schedules run on the main loop afterwards. *)
Fixpoint probe (transfers : nat → Transfer) (windows : nat → nat)
    (overwrite_existing : bool) (self : File.t)
    (_list : list (nat * Source.t)) (th : Thread) : Thread * result unit :=
  match _list with
  | [] => (th, Ok ())
  | (r, source) :: rest =>
      if stop (reads th) then (after_read th, Err Py.StopRequested)
      else
        let th := after_read th in
        if negb overwrite_existing && truthy_speed (Source.speed source) then
          if stop (reads th) then (after_read th, Err Py.StopRequested)
          else probe transfers windows overwrite_existing self rest (after_read th)
        else
          match speed_test (transfers r) (windows r) r th with
          | (th, Err e) => (th, Err e)
          | (th, Ok (Some _temp)) =>
              let th :=
                if negb (bool_decide (is_Some (cache_source self)))
                then schedule_at_idle (AddCached _temp) (schedule_at_idle Prepare th)
                else th in
              if stop (reads th) then (after_read th, Err Py.StopRequested)
              else (after_read th, Ok ())
          | (th, Ok None) =>
              if stop (reads th) then (after_read th, Err Py.StopRequested)
              else probe transfers windows overwrite_existing self rest (after_read th)
          end
  end.

(** [run_speedtest(overwrite_existing)] *)
Definition run_speedtest (transfers : nat → Transfer) (windows : nat → nat)
    (overwrite_existing : bool) (self : File.t) (th : Thread)
    : Thread * result unit :=
  let th := schedule_at_idle (Emit "processing-start") th in
  let _list := get_sources_by_class SourceDownload self in
  match probe transfers windows overwrite_existing self _list th with
  | (th, Ok _) => (schedule_at_idle (Emit "processing-stop") th, Ok ())
  | (th, Err Py.StopRequested) => (th, Ok ())
  | (th, Err e) => (th, Err e)
  end.

End WithStopRequest.

(** *** The deferred calls, on the main loop *)

(** The loop of [on_speed_measured] over the download sources, in the
    order of the list: the sources as the loop leaves them, and the
    exception that ended it, if one did. [source.domain] is read first,
    then [urlparse(url).netloc]. *)
Fixpoint speed_loop (checked : string → bool) (url : string) (speed : PyFloat)
    (l : list Source.t) : list Source.t * option Py.exn :=
  match l with
  | [] => ([], None)
  | source :: rest =>
      if Source.isinstance SourceDownload source then
        match Source.domain checked source with
        | Err e => (source :: rest, Some e)
        | Ok domain =>
            match Lists.netloc checked url with
            | Err e => (source :: rest, Some e)
            | Ok netloc =>
                let source :=
                  if bool_decide (domain = Some netloc)
                     && negb (bool_decide (Source.url source = url))
                  then Source.set_speed (SpBytes speed) source
                  else source in
                let '(rest, e) := speed_loop checked url speed rest in
                (source :: rest, e)
            end
        end
      else
        let '(rest, e) := speed_loop checked url speed rest in
        (source :: rest, e)
  end.

(** [on_speed_measured(widget, url, speed)] *)
Definition on_speed_measured (w : World) (url : string) (speed : PyFloat)
    (self : File.t) : outcome unit :=
  match speed_loop (valid_netloc w) url speed (sources self) with
  | (l, None) => Return () (set_sources l self)
  | (l, Some e) => Raise e (set_sources l self)
  end.

(** [_success(speed)] of [speed_test], for the source [r]: the speed is
    stored and the signal it emits handled by [on_speed_measured], if
    that is connected. An exception of the handler is reported by the
    signal machinery and does not reach [emit]: the file is left as
    the handler left it. *)
Definition _success (w : World) (r : nat) (speed : PyFloat) (self : File.t)
    : File.t :=
  match sources self !! r with
  | Some source =>
      let self :=
        set_sources (<[r := Source.set_speed (SpBytes speed) source]> (sources self)) self in
      if Source.connected source
      then state_of (on_speed_measured w (Source.url source) speed self)
      else self
  | None => self
  end.

(** [_error(speed, error, error_code)] of [speed_test]. *)
Definition _error (w : World) (r : nat) (speed : PyFloat) (err : option Py.exn)
    (code : option Z) (self : File.t) : File.t :=
  match sources self !! r with
  | Some source =>
      let source := Source.set_speed SpFalse source in
      let source :=
        if truthy_availability (Source._available source)
        then Source.set_available AvFalse source else source in
      let source := Source.set_error err code source in
      let self := set_sources (<[r := source]> (sources self)) self in
      if Source.connected source
      then state_of (on_speed_measured w (Source.url source) speed self)
      else self
  | None => self
  end.

(** [SourceCache.__init__] with a [memfile]: [save_memfile] writes the
    temporary file (a failure is caught and logged), [os.rename] moves
    it to [url]; the object keeps [url] as it was given. *)
Definition new_cache (w : World) (source_id : string) (url tmpfile : string)
    : World * result Source.t :=
  let written := if writable w tmpfile then {[tmpfile]} ∪ files w else files w in
  if bool_decide (tmpfile ∈ written) then
    (set_files ({[url]} ∪ written ∖ {[tmpfile]}) w,
     Ok (Source.new SourceCache source_id url true))
  else (set_files written w, Err Py.OSError).

(** [_add_cached(memfile)] of [run_speedtest]. *)
Definition _add_cached (w : World) (self : File.t) : World * outcome unit :=
  let new_id := str_of_id (_unique_id (Some self) "tempcache" None) in
  match dest_file w self with
  | Raise e self => (w, Raise e self)
  | Return dest self =>
      match download_file w self with
      | Raise e self => (w, Raise e self)
      | Return tmp self =>
          match new_cache w new_id dest tmp with
          | (w, Err e) => (w, Raise e self)
          | (w, Ok _new_source) =>
              match add_source _new_source self with
              | Raise e self => (w, Raise e self)
              | Return _ self =>
                  (w, Return () (set_cache_source (Some (length (sources self) - 1)) self))
              end
          end
      end
  end.

(** One deferred call. *)
Definition run_task (task : Task) (w : World) (self : File.t)
    : World * outcome unit :=
  match task with
  | Emit _ => (w, Return () self)
  | Success r speed => (w, Return () (_success w r speed self))
  | Error r speed e code => (w, Return () (_error w r speed e code self))
  | Prepare => (w, prepare w self)
  | AddCached _ => _add_cached w self
  end.

(** The main loop runs the calls in the order they were scheduled; an
    exception in one does not keep the next from running. The
    exceptions are collected. *)
Fixpoint main_loop (tasks : list Task) (w : World) (self : File.t)
    : World * File.t * list Py.exn :=
  match tasks with
  | [] => (w, self, [])
  | task :: rest =>
      match run_task task w self with
      | (w, Return _ self) => main_loop rest w self
      | (w, Raise e self) =>
          let '(w, self, errors) := main_loop rest w self in
          (w, self, e :: errors)
      end
  end.

(** The cache sources of a file. *)
Definition cache_sources (self : File.t) : list (nat * Source.t) :=
  get_sources_by_class SourceCache self.

(** A transfer that never leaves the running state. *)
Definition never_leaves_running (transfer : Transfer) (window : nat) : Prop :=
  ∀ k, k < window → state (transfer k) = RUNNING.

(** *** Example runs *)

(** A stop request that is never set. *)
Definition never_stopped : nat → bool := λ _, false.

(** A transfer that is complete, with the whole file in memory, at the
    first look. *)
Definition completes_at_once : Transfer :=
  λ _, {| state := COMPLETED; average_speed := 1000000;
          is_file_completed := true;
          memfile := Some [Byte.x50; Byte.x4b];
          dl_error := None; dl_error_code := None |}.

(** A transfer that is still running at every look. *)
Definition stays_running : Transfer :=
  λ _, {| state := RUNNING; average_speed := 0;
          is_file_completed := false; memfile := None;
          dl_error := None; dl_error_code := None |}.

Definition fresh_thread : Thread := {| reads := 0; scheduled := [] |}.

(** A run of the speed test, then the main loop on what it scheduled. *)
Definition run_then_idle (transfers : nat → Transfer) (windows : nat → nat)
    (overwrite_existing : bool) (w : World) (self : File.t)
    : World * File.t * list Py.exn :=
  main_loop
    (scheduled (run_speedtest never_stopped transfers windows overwrite_existing
                  self fresh_thread).1)
    w self.

End Probe.

(** ** [IdleTask] and the scheduling functions of [lutris/util/jobs.py] *)

Module Idle.

(** An [IdleTask] object: the GLib source it is connected to, if any. *)
Record IdleTask : Set := { source_id : option nat; _is_completed : bool }.

(** [IdleTask()] *)
Definition new : IdleTask := {| source_id := None; _is_completed := false |}.

(** [is_connected()] *)
Definition is_connected (self : IdleTask) : bool :=
  bool_decide (is_Some (source_id self)).

(** [is_completed()] *)
Definition is_completed (self : IdleTask) : bool := _is_completed self.

(** [connect(source_id)] *)
Definition connect (id : nat) (self : IdleTask) : IdleTask :=
  if negb (_is_completed self)
  then {| source_id := Some id; _is_completed := _is_completed self |}
  else self.

(** [disconnect()] *)
Definition disconnect (self : IdleTask) : IdleTask :=
  {| source_id := None; _is_completed := _is_completed self |}.

(** [mark_completed()] *)
Definition mark_completed (self : IdleTask) : IdleTask :=
  disconnect {| source_id := source_id self; _is_completed := true |}.

(** [unschedule()]; [glib] is the set of the sources the GLib main loop
    holds, from which [GLib.source_remove] takes one. *)
Definition unschedule (self : IdleTask) (glib : gset nat) : IdleTask * gset nat :=
  match source_id self with
  | Some id => (disconnect self, glib ∖ {[id]})
  | None => (self, glib)
  end.

(** [COMPLETED_IDLE_TASK] *)
Definition COMPLETED_IDLE_TASK : IdleTask := mark_completed new.

(** The GLib main loop as the scheduling functions use it: the sources
    it holds and the id [timeout_add] or [idle_add] gives out next. *)
Record MainLoop : Type := { live : gset nat; next_id : nat }.

(** [schedule_at_idle(func, ...)] and [schedule_repeating_at_idle]: a
    new source is registered and the new task connected to it. *)
Definition schedule (loop : MainLoop) : IdleTask * MainLoop :=
  (connect (next_id loop) new,
   {| live := {[next_id loop]} ∪ live loop; next_id := S (next_id loop) |}).

(** The [wrapper] of [schedule_at_idle] when the main loop calls it:
    whether [func] returns or raises, the task is disconnected. *)
Definition wrapper (task : IdleTask) : IdleTask := disconnect task.

(** The [wrapper] of [schedule_repeating_at_idle]; [answer] is what
    [func] returned, [None] if it raised: the task is disconnected
    unless [func] asked to be repeated. *)
Definition wrapper_repeating (answer : option bool) (task : IdleTask) : IdleTask :=
  match answer with
  | Some true => task
  | _ => disconnect task
  end.

(** The ids the main loop gives out are new. *)
Definition fresh_ids (loop : MainLoop) : Prop :=
  ∀ id, id ∈ live loop → id < next_id loop.

End Idle.

(** ** More of [lutris/installer/installer_file_source.py] *)

Module SourceOps.

Import Source File.

(** The [url] setter: the user and the cache source put [file://] in
    front of a path that does not have it; the other classes store the
    value as it is. *)
Definition set_url (url : string) (s : Source.t) : Source.t :=
  let stored :=
    match cls s with
    | SourceUser | SourceCache =>
        if Py.startswith "file://" url then url else "file://" +:+ url
    | _ => url
    end in
  {| cls := cls s; source_id := source_id s; _url := stored;
     _available := _available s; _speed := _speed s;
     error := error s; error_code := error_code s;
     _temporary := _temporary s; connected := connected s |}.

(** The names the module [installer_file_source] binds. *)
Definition module_names : list string :=
  ["os"; "time"; "BytesIO"; "_"; "Optional"; "Union"; "urlparse"; "GObject";
   "Gtk"; "GdkPixbuf"; "GLib"; "Gdk"; "system"; "Downloader";
   "is_file_available"; "logger"; "restricted_domains_contain";
   "thread_namespace"; "check_stop"; "StopRequested"; "schedule_at_idle";
   "InstallerFileSource"; "SourceSteam"; "SourceDownload"; "SourceUser";
   "SourceCache"].

(** [raise name(...)]: the exception raised is the one named, if the
    module knows the name, and NameError otherwise. *)
Definition raise_named {A} (name : string) (e : Py.exn) : result A :=
  if bool_decide (name ∈ module_names) then Err e else Err Py.NameError.

(** [checksum.split(":", 1)], unpacked into two names: [None] where the
    unpacking raises ValueError. *)
Definition split_checksum (checksum : string) : option (string * string) :=
  match String.index 0 ":" checksum with
  | Some i => Some (String.substring 0 i checksum, Py.drop (S i) checksum)
  | None => None
  end.

(** [check_hash(dest_file)] of a source with the given [checksum];
    [get_file_checksum] is the function of [lutris.util.system]. *)
Definition check_hash (get_file_checksum : string → string → string)
    (checksum : option string) (dest_file : option string) : result unit :=
  match checksum, dest_file with
  | Some checksum, Some dest_file =>
      if negb (Py.truthy_str checksum) || negb (Py.truthy_str dest_file) then Ok ()
      else
        match split_checksum checksum with
        | None => raise_named "ScriptingError" Py.ScriptingError
        | Some (hash_type, expected_hash) =>
            let calculated_hash := get_file_checksum dest_file hash_type in
            if negb (bool_decide (calculated_hash = expected_hash))
            then raise_named "ScriptingError" Py.ScriptingError
            else Ok ()
        end
  | _, _ => Ok ()
  end.

End SourceOps.

(** ** More of [lutris/installer/installer_file.py] *)

Module FileOps.

Import Source File.

(** [is_downloadable()] *)
Definition is_downloadable (self : File.t) : bool :=
  bool_decide (0 < length (get_sources_by_class SourceDownload self)).

(** The class of the active source, [None] for no active source. *)
Definition active_class (self : File.t) : option Class :=
  cls <$> (active_source self ≫= (sources self !!.)).

(** The [default_provider] property. *)
Definition default_provider (self : File.t) : result string :=
  if bool_decide (active_class self = Some SourceCache) then Ok "pga"
  else if bool_decide (active_class self = Some SourceSteam) then Ok "steam"
  else if bool_decide (active_class self = Some SourceUser) then Ok "user"
  else if is_downloadable self then Ok "download"
  else let! _ := File.url self in Err Py.ValueError.

(** The [providers] property. *)
Definition providers (self : File.t) : gset string :=
  (if bool_decide (0 < length (get_sources_by_class SourceSteam self))
   then {["steam"]} else ∅)
  ∪ (if bool_decide (cls <$> (cache_source self ≫= (sources self !!.)) = Some SourceCache)
     then {["pga"]} else ∅)
  ∪ {["user"]}
  ∪ (if is_downloadable self then {["download"]} else ∅).

(** [select_source(ref.source_id)] for a reference read off the object;
    AttributeError for [None]. *)
Definition select_ref (w : World) (depth : nat) (ref : option nat) (self : File.t)
    : outcome unit :=
  match ref ≫= (sources self !!.) with
  | Some s =>
      match select_source w depth (source_id s) self with
      | Return _ self => Return () self
      | Raise e self => Raise e self
      end
  | None => Raise Py.AttributeError self
  end.

(** [change_provider(new_provider)]. In the last branch the message is
    formatted with one argument for its two places. *)
Definition change_provider (w : World) (depth : nat) (new_provider : string)
    (self : File.t) : outcome unit :=
  if bool_decide (new_provider = "download") then
    select_ref w depth (_first_valid_download_source self) self
  else if bool_decide (new_provider = "steam") then
    match get_sources_by_class SourceSteam self with
    | (r, _) :: _ => select_ref w depth (Some r) self
    | [] => Raise Py.IndexError self
    end
  else if bool_decide (new_provider = "user") then
    select_ref w depth (_user_source self) self
  else if bool_decide (new_provider = "pga") then
    if bool_decide (is_Some (cache_source self))
    then select_ref w depth (cache_source self) self
    else
      match File.url self with
      | Ok _ => Raise Py.ValueError self
      | Err e => Raise e self
      end
  else
    match File.url self with
    | Ok _ => Raise Py.TypeError self
    | Err e => Raise e self
    end.

(** [speed not in (False, None)]: a speed of zero equals [False];
    not-a-number equals neither. *)
Definition is_measurement (v : Speed) : bool :=
  match v with
  | SpBytes v => negb (float_eq v 0)
  | SpNone | SpFalse => false
  end.

(** [max(_list)] of a list that is not empty: the first item, replaced
    by each later item that is greater than what is kept. *)
Definition py_max (first : PyFloat) (rest : list PyFloat) : PyFloat :=
  foldl (λ kept item, if float_gt item kept then item else kept) first rest.

(** [value == max] for a value of [speed] and a float; [False] equals
    zero. *)
Definition speed_equals (v : Speed) (m : PyFloat) : bool :=
  match v with
  | SpBytes v => float_eq v m
  | SpFalse => float_eq 0 m
  | SpNone => false
  end.

(** The speeds [speed_fastest] keeps of [get_values_from_sources("speed")]. *)
Definition measurements (self : File.t) : list PyFloat :=
  omap (λ v, match v with
             | SpBytes z => if is_measurement v then Some z else None
             | _ => None
             end)
       (Source.speed <$> sources self).

(** The [speed_fastest] property: [None] without a measurement, else the
    url and the speed of the first source whose speed equals the
    greatest; IndexError when no speed equals it. *)
Definition speed_fastest (self : File.t) : result (option (string * Speed)) :=
  match measurements self with
  | [] => Ok None
  | first :: rest =>
      let fastest := py_max first rest in
      match filter (λ rs : nat * Source.t, speed_equals (Source.speed rs.2) fastest = true)
                   (enumerate self) with
      | (_, s) :: _ => Ok (Some (Source.url s, Source.speed s))
      | [] => Err Py.IndexError
      end
  end.

(** What identifies a source whatever is measured on it. *)
Definition identity (s : Source.t) : Class * string * string :=
  (cls s, source_id s, _url s).

(** [cache_source] is the reference to the cache sources of the file:
    to the only one, or [None] when there is none. *)
Definition cache_tracked (self : File.t) : Prop :=
  (Probe.cache_sources self).*1
  = match cache_source self with Some c => [c] | None => [] end.

(** The [is_offline] property. *)
Definition is_offline (self : File.t) : bool :=
  match get_sources_by_class SourceDownload self with
  | [] => false
  | _sources =>
      forallb (λ rs : nat * Source.t, bool_decide (Source._available rs.2 = AvFalse))
              _sources
  end.

(** The calls a speed test over [_list] may hand to the main loop. *)
Definition may_defer (_list : list (nat * Source.t)) (self : File.t)
    (task : Probe.Task) : Prop :=
  (∃ r s v, (r, s) ∈ _list ∧ task = Probe.Success r v)
  ∨ (∃ r s v e c, (r, s) ∈ _list ∧ task = Probe.Error r v e c)
  ∨ (cache_source self = None
     ∧ (task = Probe.Prepare ∨ ∃ m, task = Probe.AddCached m)).

(** A file with a Steam source and a mirror, and the object [__init__]
    makes of it: the Steam source is active. *)
Definition steam_and_mirror : FileMeta :=
  MetaDict
    {| meta_filename := Some "f.zip"; meta_top_url := None;
       meta_items := [("steam", {| meta_url := Some "$STEAM:123:f.zip" |});
                      ("mirror", {| meta_url := Some "http://a.test/f.zip" |})] |}.

Definition steam_and_mirror_file : File.t :=
  {| game_slug := "game"; id := "file";
     _filename := Some "f.zip"; _multiple_sources := true;
     _url_override := None;
     sources := [Source.new SourceSteam "steam" "$STEAM:123:f.zip" false;
                 Source.connect (Source.new SourceDownload "mirror" "http://a.test/f.zip" false);
                 Source.new SourceUser "user" "N/A" false];
     _user_source := Some 2; cache_source := None; active_source := Some 0;
     _first_valid_download_source := None;
     _dest_file_override := None; _dest_file_found := None |}.

End FileOps.

(** ** The availability check: [SourceDownload.get_availability] and
    [InstallerFile.get_availability] *)

Module Availability.

Import Source File.

(** A call handed to [schedule_at_idle] by the check. *)
Inductive Task : Set :=
| Emit (signal : string)
| Change (source : nat) (availability : Source.Availability).

Record Thread : Set := { reads : nat; scheduled : list Task }.

Definition schedule_at_idle (task : Task) (th : Thread) : Thread :=
  {| reads := reads th; scheduled := scheduled th ++ [task] |}.

Definition after_read (th : Thread) : Thread :=
  {| reads := S (reads th); scheduled := scheduled th |}.

Section WithWorld.

(** The stop request as the thread reads it, the file system, and what
    [is_file_available] answers for the source of each reference. *)
Variable stop : nat → bool.
Variable files : gset string.
Variable is_file_available : nat → Source.Availability.

(** [get_availability()] of the download source [r]: a [file://] url is
    looked up on disk and nothing is scheduled. *)
Definition get_availability (r : nat) (source : Source.t) (th : Thread)
    : Thread * Source.Availability :=
  if Py.startswith "file://" (Source.url source) then
    (th, if bool_decide (Py.drop 7 (Source.url source) ∈ files) then AvTrue else AvFalse)
  else
    let _available := is_file_available r in
    (schedule_at_idle (Change r _available) th, _available).

(** The loop of [InstallerFile.get_availability]. *)
Fixpoint check (all_files : bool) (_list : list (nat * Source.t)) (th : Thread)
    : Thread * result unit :=
  match _list with
  | [] => (th, Ok ())
  | (r, source) :: rest =>
      if stop (reads th) then (after_read th, Err Py.StopRequested)
      else
        let th := after_read th in
        let th :=
          if negb all_files && truthy_availability (Source.available files source)
          then th
          else (get_availability r source th).1 in
        if stop (reads th) then (after_read th, Err Py.StopRequested)
        else check all_files rest (after_read th)
  end.

(** [InstallerFile.get_availability(all_files)] *)
Definition run (all_files : bool) (self : File.t) (th : Thread)
    : Thread * result unit :=
  let th := schedule_at_idle (Emit "processing-start") th in
  let _list := get_sources_by_class SourceDownload self in
  match check all_files _list th with
  | (th, Ok _) => (schedule_at_idle (Emit "processing-stop") th, Ok ())
  | (th, Err _) => (th, Ok ())
  end.

End WithWorld.

(** [_change(availability)], on the main loop: the value is stored; the
    signal it schedules in turn changes nothing in the file. *)
Definition _change (r : nat) (a : Source.Availability) (self : File.t) : File.t :=
  set_sources (alter (Source.set_available a) r (sources self)) self.

Definition run_task (task : Task) (self : File.t) : File.t :=
  match task with
  | Emit _ => self
  | Change r a => _change r a self
  end.

(** The main loop on the calls scheduled, oldest first. *)
Definition main_loop (tasks : list Task) (self : File.t) : File.t :=
  foldl (λ self task, run_task task self) self tasks.

#[export] Instance Task_eq_dec : EqDecision Task.
Proof. solve_decision. Defined.

(** The changes a check that is never stopped defers, in order. *)
Definition expected_changes (files : gset string)
    (is_file_available : nat → Source.Availability) (all_files : bool)
    (_list : list (nat * Source.t)) : list Task :=
  omap (λ rs : nat * Source.t,
          if negb all_files && truthy_availability (Source.available files rs.2)
          then None
          else if Py.startswith "file://" (Source.url rs.2) then None
          else Some (Change rs.1 (is_file_available rs.1)))
       _list.

End Availability.

(** * Properties *)

(** ** The job scheduler *)

Module JobsFacts.

Import Jobs.

Lemma add_job_rejected func cb name j self :
  _active_processes self !! name = Some j →
  add_job func cb (Some name) self = (self, None).
Proof. intros Hj. unfold add_job. by rewrite Hj. Qed.

Lemma add_job_accepted func cb name self :
  _active_processes self !! name = None →
  ∃ self',
    add_job func cb (Some name) self = (self', Some (py_str name))
    ∧ _active_processes self' = <[name := length (threads self)]> (_active_processes self)
    ∧ threads self' !! length (threads self)
      = Some {| function := func;
                callback := {| user_callback := cb; job_name := name |};
                stop_request := false; callback_task := None; running := true |}
    ∧ main_loop self' = main_loop self ∧ called self' = called self.
Proof.
  intros Hn. unfold add_job. rewrite Hn. eexists. split; [done|]. simpl.
  split_and!; try done.
  rewrite lookup_app_r by lia. by rewrite Nat.sub_diag.
Qed.

Lemma add_jobs_rejected name calls j self :
  _active_processes self !! name = Some j →
  add_jobs name calls self = (self, replicate (length calls) None).
Proof.
  intros Hj. induction calls as [|[f cb] calls IH]; [done|].
  simpl. rewrite (add_job_rejected _ _ _ j) by done. by rewrite IH.
Qed.

Lemma ended_alter_stop (job i : nat) (ts : list AsyncCall) :
  (∃ a, ts !! job = Some a ∧ running a = false) →
  ∃ a, alter set_stop i ts !! job = Some a ∧ running a = false.
Proof.
  intros (a & Ha & Hr). rewrite list_lookup_alter.
  destruct (decide (i = job)) as [->|]; [|eauto].
  rewrite Ha. simpl. eauto.
Qed.

Lemma ended_remove_job job name send self :
  ended job self → ended job (remove_job name send self).1.
Proof.
  unfold ended, remove_job. intros H.
  destruct (_active_processes self !! name); simpl; [|done].
  destruct send; [by apply ended_alter_stop | done].
Qed.

Lemma ended_idle job raised self : ended job self → ended job (idle raised self).
Proof.
  intros H. unfold idle. destruct (main_loop self) as [|call rest]; [done|].
  destruct (threads self !! idle_job call) as [a|]; [|done].
  destruct (user_callback (callback a)), raised; try done;
    by apply ended_remove_job.
Qed.

Lemma ended_step job ev self : ended job self → ended job (step ev self).
Proof.
  intros H. destruct ev as [f cb n|n s| |j c| |e]; simpl.
  - unfold add_job. destruct (_ !! _); simpl; [done|].
    destruct H as (a & Ha & Hr). exists a. split; [|done]. simpl.
    rewrite lookup_app_l; [done | by eapply lookup_lt_Some].
  - by apply ended_remove_job.
  - unfold ended, remove_jobs. simpl.
    apply (map_fold_weak_ind
             (λ ts (_ : gmap PyKey nat), ∃ a, ts !! job = Some a ∧ running a = false));
      [done|].
    intros i x m r _ Hr. by apply ended_alter_stop.
  - unfold target. destruct (threads self !! j) as [a'|] eqn:Hj; [|done].
    destruct (running a') eqn:Hrun; simpl; [|done].
    destruct H as (a & Ha & Hr).
    assert (j ≠ job) by (intros ->; congruence).
    destruct (stop_request a'); simpl; exists a; simpl;
      by rewrite list_lookup_insert_ne.
  - by apply ended_idle.
  - by apply ended_idle.
Qed.

Lemma seen_calls_remove_job job name send self :
  seen_calls job (remove_job name send self).1 = seen_calls job self.
Proof.
  unfold seen_calls, remove_job.
  by destruct (_active_processes self !! name).
Qed.

Lemma seen_calls_idle job raised self :
  seen_calls job (idle raised self) = seen_calls job self.
Proof.
  unfold idle. destruct (main_loop self) as [|call rest] eqn:Hm; [done|].
  transitivity (seen_calls job
    {| _active_processes := _active_processes self; threads := threads self;
       main_loop := rest; called := called self ++ [call] |}).
  - destruct (threads self !! idle_job call) as [a|]; [|done].
    destruct (user_callback (callback a)), raised; try done;
      apply seen_calls_remove_job.
  - unfold seen_calls. simpl. by rewrite Hm, <- app_assoc.
Qed.

(** Once a job has ended, nothing that happens adds to its calls. *)
Lemma seen_calls_step job ev self :
  ended job self → seen_calls job (step ev self) = seen_calls job self.
Proof.
  intros (a & Ha & Hr). destruct ev as [f cb n|n s| |j c| |e]; simpl.
  - unfold seen_calls, add_job. by destruct (_active_processes self !! _).
  - apply seen_calls_remove_job.
  - done.
  - unfold target. destruct (threads self !! j) as [a'|] eqn:Hj; [|done].
    destruct (running a') eqn:Hrun; simpl; [|done].
    assert (j ≠ job) by (intros ->; congruence).
    destruct (stop_request a'); simpl; [done|].
    unfold seen_calls, calls_of. simpl.
    rewrite app_assoc, filter_app, filter_cons. simpl.
    rewrite decide_False by done. by rewrite filter_nil, app_nil_r.
  - apply seen_calls_idle.
  - apply seen_calls_idle.
Qed.

Lemma seen_calls_run job evs self :
  ended job self → seen_calls job (run evs self) = seen_calls job self.
Proof.
  revert self. induction evs as [|ev evs IH]; intros self H; [done|].
  unfold run in *. simpl. rewrite IH by by apply ended_step.
  by apply seen_calls_step.
Qed.

Lemma target_ends job a c self :
  threads self !! job = Some a → ended job (target job c self).
Proof.
  intros Ha. unfold ended, target. rewrite Ha.
  assert (job < length (threads self)) by by eapply lookup_lt_Some.
  destruct (running a) eqn:Hr; simpl; [|eauto].
  destruct (stop_request a); simpl; rewrite list_lookup_insert_eq by done; eauto.
Qed.

(** What [target] does with the callback, by the stop request. *)
Lemma target_seen_calls job a c self :
  threads self !! job = Some a → running a = true →
  seen_calls job (target job c self)
  = seen_calls job self
    ++ (if stop_request a then []
        else [{| idle_job := job; idle_result := result_of c;
                 idle_error := error_of c |}]).
Proof.
  intros Ha Hr. unfold target. rewrite Ha, Hr. simpl.
  destruct (stop_request a); simpl; [by rewrite app_nil_r|].
  unfold seen_calls, calls_of. simpl.
  rewrite app_assoc, filter_app, filter_cons. simpl.
  by rewrite decide_True.
Qed.

Lemma calls_of_nil_app job l1 l2 :
  calls_of job (l1 ++ l2) = [] → calls_of job l1 = [] ∧ calls_of job l2 = [].
Proof. unfold calls_of. rewrite filter_app. apply app_eq_nil. Qed.

(** C4. When the work of a job is done (it returned, or raised an
    exception that was captured) and the stop request of the job is
    set, its callback is not scheduled and, whatever happens next, is
    never run; when the stop request is not set, the callback is
    scheduled on the main loop with the result and the error, exactly
    once. In particular [remove_job(name)] followed by the end of the
    work never lets the callback run. *)
Theorem callback_only_when_not_stopped (self : ProcessManager) (job : nat)
    (a : AsyncCall) (c : Completion) :
  threads self !! job = Some a → running a = true → seen_calls job self = [] →
  (stop_request a = true →
     main_loop (target job c self) = main_loop self
     ∧ ∀ evs, calls_of job (main_loop (run evs (target job c self))) = []
              ∧ calls_of job (called (run evs (target job c self))) = [])
  ∧ (stop_request a = false →
     main_loop (target job c self)
     = main_loop self ++ [{| idle_job := job; idle_result := result_of c;
                             idle_error := error_of c |}]
     ∧ ∀ evs, seen_calls job (run evs (target job c self))
              = [{| idle_job := job; idle_result := result_of c;
                    idle_error := error_of c |}])
  ∧ (∀ name evs,
       _active_processes self !! name = Some job →
       calls_of job (main_loop (run (EvRemoveJob name true :: EvTarget job c :: evs) self)) = []
       ∧ calls_of job (called (run (EvRemoveJob name true :: EvTarget job c :: evs) self)) = []).
Proof.
  intros Ha Hr Hnone. split_and!.
  - intros Hs. split.
    + unfold target. by rewrite Ha, Hr, Hs.
    + intros evs.
      pose proof (seen_calls_run job evs (target job c self)
                    (target_ends _ _ c _ Ha)) as Hrun.
      rewrite (target_seen_calls _ _ _ _ Ha Hr), Hs, Hnone in Hrun.
      by apply calls_of_nil_app in Hrun as [H1 H2].
  - intros Hs. split.
    + unfold target. by rewrite Ha, Hr, Hs.
    + intros evs.
      rewrite (seen_calls_run job evs _ (target_ends _ _ c _ Ha)).
      by rewrite (target_seen_calls _ _ _ _ Ha Hr), Hs, Hnone.
  - intros name evs Hname.
    set (self1 := (remove_job name true self).1).
    assert (threads self1 !! job = Some (set_stop a)) as Ha1.
    { unfold self1, remove_job. rewrite Hname. simpl.
      by rewrite list_lookup_alter_eq, Ha. }
    assert (seen_calls job self1 = []) as Hnone1.
    { unfold self1. by rewrite seen_calls_remove_job. }
    pose proof (seen_calls_run job evs (target job c self1)
                  (target_ends _ _ c _ Ha1)) as Hrun.
    rewrite (target_seen_calls _ _ _ _ Ha1 Hr), Hnone1 in Hrun. simpl in Hrun.
    apply calls_of_nil_app in Hrun as [H1 H2].
    change (run (EvRemoveJob name true :: EvTarget job c :: evs) self)
      with (run evs (target job c self1)).
    done.
Qed.

Lemma callback_only_when_not_stopped_witness :
  calls_of 0 (called (run [EvRemoveJob (KStr "probe") true;
                           EvTarget 0 (Returned 1); EvIdle; EvIdle] one_job)) = [].
Proof.
  refine (proj2 (proj2 (proj2 (callback_only_when_not_stopped one_job 0
            {| function := {| py_id := 7 |};
               callback := {| user_callback := Some 0; job_name := KStr "probe" |};
               stop_request := false; callback_task := None; running := true |}
            (Returned 1) _ _ _)) (KStr "probe") [EvIdle; EvIdle] _)).
  - reflexivity.
  - reflexivity.
  - reflexivity.
  - vm_compute. reflexivity.
Defined.

(** C5. Of the [add_job] calls made under one name while a job is
    tracked under it, only the first succeeds and returns the name;
    every later one returns [None] (no exception) and leaves the
    manager, and with it the job in the map, as it was. *)
Theorem add_job_same_name (self : ProcessManager) (name : PyKey)
    (func : PyFunction) (cb : option nat)
    (calls : list (PyFunction * option nat)) :
  _active_processes self !! name = None →
  add_jobs name ((func, cb) :: calls) self
  = ((add_job func cb (Some name) self).1,
     Some (py_str name) :: replicate (length calls) None)
  ∧ _active_processes (add_job func cb (Some name) self).1 !! name
    = Some (length (threads self))
  ∧ threads (add_job func cb (Some name) self).1 !! length (threads self)
    = Some {| function := func;
              callback := {| user_callback := cb; job_name := name |};
              stop_request := false; callback_task := None; running := true |}
  ∧ ∀ later j f' cb',
      _active_processes later !! name = Some j →
      add_job f' cb' (Some name) later = (later, None).
Proof.
  intros Hn.
  destruct (add_job_accepted func cb name self Hn)
    as (self' & Hadd & Hmap & Hjob & _ & _).
  assert (_active_processes self' !! name = Some (length (threads self))) as Hin.
  { rewrite Hmap. apply lookup_insert_eq. }
  split_and!.
  - simpl. rewrite Hadd. simpl.
    by rewrite (add_jobs_rejected _ _ _ _ Hin).
  - by rewrite Hadd.
  - by rewrite Hadd.
  - intros later j f' cb' Hj. by eapply add_job_rejected.
Qed.

Lemma add_job_same_name_witness :
  add_jobs (KStr "probe")
    [({| py_id := 7 |}, Some 0); ({| py_id := 8 |}, None); ({| py_id := 7 |}, Some 1)]
    empty_manager
  = (one_job, [Some "probe"; None; None]).
Proof.
  refine (proj1 (add_job_same_name empty_manager (KStr "probe") {| py_id := 7 |}
                   (Some 0) [({| py_id := 8 |}, None); ({| py_id := 7 |}, Some 1)] _)).
  reflexivity.
Defined.

(** C10. An [add_job] call without a name stores the job under the
    integer [id(func)] and returns the string [str(id(func))]: with
    the returned name, [remove_job] answers [False] and removes and
    stops nothing, and the containment test is false, while the job is
    still in the map under the integer. (No job is tracked under that
    very string already.) *)
Theorem add_job_without_name (self : ProcessManager) (func : PyFunction)
    (cb : option nat) :
  _active_processes self !! KInt (py_id func) = None →
  _active_processes self !! KStr (pretty (py_id func)) = None →
  ∃ self',
    add_job func cb None self = (self', Some (pretty (py_id func)))
    ∧ _active_processes self' !! KInt (py_id func) = Some (length (threads self))
    ∧ threads self' !! length (threads self)
      = Some {| function := func;
                callback := {| user_callback := cb; job_name := KInt (py_id func) |};
                stop_request := false; callback_task := None; running := true |}
    ∧ remove_job (KStr (pretty (py_id func))) true self' = (self', PyFalse)
    ∧ contains (KStr (pretty (py_id func))) self' = false
    ∧ contains (KInt (py_id func)) self' = true.
Proof.
  intros Hint Hstr. unfold add_job. rewrite Hint. eexists. split; [done|].
  simpl.
  assert (<[KInt (py_id func) := length (threads self)]> (_active_processes self)
            !! KStr (pretty (py_id func)) = None) as Hmiss.
  { by rewrite lookup_insert_ne. }
  split_and!.
  - apply lookup_insert_eq.
  - rewrite lookup_app_r by lia. by rewrite Nat.sub_diag.
  - unfold remove_job. simpl. by rewrite Hmiss.
  - unfold contains. simpl. rewrite Hmiss. apply bool_decide_eq_false.
    by intros [? ?].
  - unfold contains. simpl. rewrite lookup_insert_eq. apply bool_decide_eq_true.
    eauto.
Qed.

Lemma add_job_without_name_witness :
  ∃ self',
    add_job {| py_id := 7 |} None None empty_manager = (self', Some "7")
    ∧ remove_job (KStr "7") true self' = (self', PyFalse)
    ∧ contains (KStr "7") self' = false
    ∧ contains (KInt 7) self' = true.
Proof.
  destruct (add_job_without_name empty_manager {| py_id := 7 |} None)
    as (self' & H1 & _ & _ & H2 & H3 & H4).
  - reflexivity.
  - reflexivity.
  - exists self'. exact (conj H1 (conj H2 (conj H3 H4))).
Defined.

End JobsFacts.

(** ** Source selection *)

Module FileFacts.

Import Source File.

Lemma enumerate_from_lookup i l k :
  enumerate_from i l !! k = (λ s, (i + k, s)) <$> l !! k.
Proof.
  revert i k. induction l as [|s l IH]; intros i [|k]; simpl; try done.
  - by rewrite Nat.add_0_r.
  - rewrite IH. by replace (S i + k) with (i + S k) by lia.
Qed.

Lemma elem_of_enumerate self r s :
  (r, s) ∈ enumerate self ↔ sources self !! r = Some s.
Proof.
  unfold enumerate. rewrite list_elem_of_lookup. split.
  - intros [k Hk]. rewrite enumerate_from_lookup in Hk.
    destruct (sources self !! k) eqn:E; simplify_eq/=. done.
  - intros H. exists r. by rewrite enumerate_from_lookup, H.
Qed.

Lemma by_class_lookup c self r s rest :
  get_sources_by_class c self = (r, s) :: rest →
  sources self !! r = Some s ∧ cls s = c.
Proof.
  intros H.
  assert ((r, s) ∈ get_sources_by_class c self) as Hin by (rewrite H; left).
  apply list_elem_of_filter in Hin as [Hc Hin].
  by apply elem_of_enumerate in Hin.
Qed.

Lemma by_id_lookup x self r s rest :
  get_sources_by_value_source_id x self = (r, s) :: rest →
  sources self !! r = Some s ∧ source_id s = x.
Proof.
  intros H.
  assert ((r, s) ∈ get_sources_by_value_source_id x self) as Hin by (rewrite H; left).
  apply list_elem_of_filter in Hin as [Hc Hin].
  by apply elem_of_enumerate in Hin.
Qed.

Lemma find_elem_of {A} (p : A → bool) l x :
  find p l = Some x → x ∈ l ∧ p x = true.
Proof.
  intros H. apply find_some in H as [H1 H2]. by rewrite list_elem_of_In.
Qed.

Lemma by_id_head self r s :
  NoDup (get_values_from_sources_source_id self) →
  sources self !! r = Some s →
  ∃ rest, get_sources_by_value_source_id (source_id s) self = (r, s) :: rest.
Proof.
  intros Hnd Hr.
  assert ((r, s) ∈ get_sources_by_value_source_id (source_id s) self) as Hin.
  { apply list_elem_of_filter. split; [done|]. by apply elem_of_enumerate. }
  destruct (get_sources_by_value_source_id (source_id s) self)
    as [|[r' s'] rest] eqn:E; [by apply not_elem_of_nil in Hin|].
  assert ((r', s') ∈ get_sources_by_value_source_id (source_id s) self) as Hin'
    by (rewrite E; left).
  apply list_elem_of_filter in Hin' as [Hid Hr']. simpl in Hid.
  apply elem_of_enumerate in Hr'.
  assert (r' = r) as ->.
  { eapply (NoDup_lookup _ _ _ _ Hnd);
      unfold get_values_from_sources_source_id;
      rewrite list_lookup_fmap; [rewrite Hr' | rewrite Hr]; simpl; by f_equal. }
  exists rest. congruence.
Qed.

Lemma set_url_override_None self :
  _url_override self = None → set_url_override None self = self.
Proof. destruct self; simpl; by intros ->. Qed.

Lemma set_first_valid_same v self :
  _first_valid_download_source self = v →
  set_first_valid_download_source v self = self.
Proof. destruct self; simpl; by intros ->. Qed.

(** [select_source] leaves the sources and the other attributes of the
    frame as they are, whatever its outcome. *)
Lemma select_source_frame w depth source_id self :
  frame (state_of (select_source w depth source_id self)) = frame self.
Proof.
  revert source_id self. induction depth as [|depth IH]; intros x self; [done|].
  simpl. repeat case_match; simpl; rewrite ?IH; done.
Qed.

(** A selection that returns has cleared the override and made the
    source it returns, an owned source, the active one. *)
Lemma select_source_Return w depth source_id self r self' :
  select_source w depth source_id self = Return r self' →
  _url_override self' = None ∧ active_source self' = Some r
  ∧ is_Some (sources self' !! r).
Proof.
  revert source_id self. induction depth as [|depth IH]; intros x self H; [done|].
  simpl in H. repeat case_match; simplify_eq/=; eauto.
  all: split_and!; [done.. |].
  all: match goal with
       | H : get_sources_by_value_source_id _ _ = _ |- _ =>
           apply by_id_lookup in H as [H _]; simpl in H; eauto
       end.
Qed.

Lemma frame_eq a b :
  frame a = frame b →
  sources a = sources b ∧ cache_source a = cache_source b
  ∧ _user_source a = _user_source b.
Proof. unfold frame. by intros [=]. Qed.

Lemma init_download_frame w a b :
  frame a = frame b → init_download w a = init_download w b.
Proof.
  intros (Hs & Hc & _)%frame_eq.
  unfold init_download, get_sources_amount, get_sources_by_class, enumerate.
  by rewrite Hs, Hc.
Qed.

(** A selection that returns leaves the recorded first valid download
    source as it was, if it was what ["|init"] records. *)
Lemma select_source_first_valid w depth x self r self' :
  select_source w depth x self = Return r self' →
  (∀ f, init_download w self = Some f → _first_valid_download_source self = Some f) →
  _first_valid_download_source self' = _first_valid_download_source self.
Proof.
  revert x self. induction depth as [|depth IH]; intros x self H Hfv; [done|].
  cbn [select_source] in H.
  change (_first_valid_download_source self)
    with (_first_valid_download_source (url_override None self)).
  assert (∀ f, init_download w (url_override None self) = Some f →
               _first_valid_download_source (url_override None self) = Some f)
    as Hfv0 by exact Hfv.
  clear Hfv. generalize dependent (url_override None self). clear self.
  intros self H Hfv.
  repeat case_match; simplify_eq/=; try done.
  all: try (by eapply IH).
  all: apply IH in H;
    [ rewrite H; simpl; symmetry; apply Hfv
    | simpl; intros f <-; symmetry;
      erewrite (init_download_frame _ _ self) by done ];
    unfold init_download; repeat case_match; simplify_eq/=; try done;
    repeat case_match; simplify_eq/=; try done; try congruence.
Qed.

Ltac same_lookup :=
  repeat match goal with
  | H1 : ?t = Some _, H2 : ?t = Some _ |- _ => rewrite H1 in H2; simplify_eq
  | H1 : ?t = Some _, H2 : ?t = None |- _ => rewrite H1 in H2; discriminate
  | H1 : ?t = _ :: _, H2 : ?t = [] |- _ => rewrite H1 in H2; discriminate
  | H1 : ?t = _ :: _, H2 : ?t = _ :: _ |- _ => rewrite H1 in H2; simplify_eq
  end.

Lemma sources_eq_accessors a b :
  sources a = sources b →
  get_sources_amount a = get_sources_amount b
  ∧ (∀ c, get_sources_by_class c a = get_sources_by_class c b)
  ∧ get_values_from_sources_source_id a = get_values_from_sources_source_id b
  ∧ (∀ x, get_sources_by_value_source_id x a = get_sources_by_value_source_id x b).
Proof.
  intros H.
  unfold get_sources_amount, get_sources_by_class, get_values_from_sources_source_id,
    get_sources_by_value_source_id, enumerate.
  by rewrite H.
Qed.

(** Selecting again what was just selected returns the same source
    and leaves the object as it is. *)
Lemma select_source_again w depth x self r self' :
  select_source w depth x self = Return r self' →
  select_source w depth x self' = Return r self'.
Proof.
  revert x self. induction depth as [|depth IH]; intros x self H; [done|].
  destruct (select_source_Return _ _ _ _ _ _ H) as (Hu & Ha & [s Hs]).
  pose proof (select_source_frame w (S depth) x self) as Hf.
  rewrite H in Hf. simpl in Hf.
  change (frame self) with (frame (url_override None self)) in Hf.
  cbn [select_source] in H |- *.
  unfold url_override. rewrite !(set_url_override_None self') by done.
  fold (url_override None self) in *.
  rewrite Ha. cbv beta iota. rewrite Hs. cbv beta iota.
  generalize dependent (url_override None self). clear self. intros self H Hf.
  destruct (bool_decide (source_id s = x)) eqn:Hx; cbv beta iota; [done|].
  destruct (frame_eq _ _ Hf) as (Hsrc & Hc & Hus).
  destruct (sources_eq_accessors _ _ Hsrc) as (Hn & Hcl & Hids & Hid).
  rewrite Hn, !Hcl, Hids, Hid, Hsrc, Hc, Hus.
  destruct (active_source self) as [a|] eqn:Hact;
    [ destruct (sources self !! a) as [sa|] eqn:Hsa; [|done];
      destruct (bool_decide (source_id sa = x)) eqn:Hsax;
      [ simplify_eq; same_lookup; congruence | ] | ];
    cbv beta iota in H.
  all: repeat case_match; simplify_eq/=; try done.
  all: try (by eapply IH).
  all: try match goal with
       | H : get_sources_by_value_source_id _ _ = _ :: _ |- _ =>
           apply by_id_lookup in H as [? <-]; same_lookup;
           by rewrite bool_decide_eq_false in Hx
       end.
  all: pose proof (select_source_first_valid _ _ _ _ _ _ H) as Hfv;
    simpl in Hfv;
    rewrite set_first_valid_same; [by eapply IH | apply Hfv].
  all: intros f; erewrite (init_download_frame _ _ self) by done.
  all: unfold init_download; repeat case_match; simplify_eq/=; try done;
    repeat case_match; simplify_eq/=; try done; try congruence.
Qed.

Lemma select_source_url_kept w depth x self :
  _url_override self = None →
  _url_override (state_of (select_source w depth x self)) = None.
Proof.
  revert x self. induction depth as [|depth IH]; intros x self H; [done|].
  simpl. repeat case_match; simpl; try done; by apply IH.
Qed.

(** Whatever its outcome, a selection clears the override. *)
Lemma select_source_clears_override w depth x self :
  0 < depth → _url_override (state_of (select_source w depth x self)) = None.
Proof.
  destruct depth as [|depth]; [lia|]. intros _.
  simpl. repeat case_match; simpl; try done; by apply select_source_url_kept.
Qed.

Lemma not_reserved_init i :
  Py.startswith "|" i = false → i ≠ "|init" ∧ i ≠ "|auto_available".
Proof. intros H. split; by intros ->. Qed.

(** Selecting the id of an owned source makes that source the active
    one, when ids are unique and the id is not a reserved one. *)
Lemma select_source_owned w depth self r s :
  NoDup (get_values_from_sources_source_id self) →
  Py.startswith "|" (source_id s) = false →
  sources self !! r = Some s →
  (∀ a, active_source self = Some a → a < length (sources self)) →
  active_source (state_of (select_source w (S depth) (source_id s) self)) = Some r.
Proof.
  intros Hnd [Hi Ha]%not_reserved_init Hr Hact.
  destruct (by_id_head self r s Hnd Hr) as [rest Hhead].
  assert (source_id s ∈ get_values_from_sources_source_id self) as Hin.
  { unfold get_values_from_sources_source_id. apply list_elem_of_fmap.
    exists s. split; [done|]. by eapply list_elem_of_lookup_2. }
  cbn [select_source].
  change (get_values_from_sources_source_id (url_override None self))
    with (get_values_from_sources_source_id self).
  change (get_sources_by_value_source_id (source_id s) (url_override None self))
    with (get_sources_by_value_source_id (source_id s) self).
  change (active_source (url_override None self)) with (active_source self).
  change (sources (url_override None self)) with (sources self).
  rewrite (bool_decide_eq_false_2 _ Hi), (bool_decide_eq_false_2 _ Ha).
  rewrite (bool_decide_eq_true_2 _ Hin), Hhead. simpl.
  destruct (active_source self) as [a|] eqn:Hact'.
  - destruct (lookup_lt_is_Some_2 _ _ (Hact a eq_refl)) as [sa Hsa].
    rewrite Hsa. case_bool_decide as Hid; simpl.
    + rewrite Hact'. f_equal.
      eapply (NoDup_lookup _ _ _ _ Hnd);
        unfold get_values_from_sources_source_id;
        rewrite list_lookup_fmap; [rewrite Hsa | rewrite Hr]; simpl; by f_equal.
    + destruct (filename w _); [|done]. by destruct (Source.domain _ _).
  - destruct (filename w _); [|done]. by destruct (Source.domain _ _).
Qed.


Lemma first_ref_Some l r :
  first_ref l = Some r → ∃ s rest, l = (r, s) :: rest.
Proof. destruct l as [|[r' s] rest]; intros [=]; subst; eauto. Qed.

Lemma first_ref_None l : first_ref l = None → l = [].
Proof. by destruct l as [|[r' s] rest]. Qed.


Lemma new_source_not_cache u i s : _new_source u i = Ok s → cls s ≠ SourceCache.
Proof. unfold _new_source. repeat case_match; by intros [= <-]. Qed.

Lemma read_items_not_cache items srcs used l :
  Forall (λ s, cls s ≠ SourceCache) srcs →
  read_items items srcs used = Ok l →
  Forall (λ s, cls s ≠ SourceCache) l.
Proof.
  revert srcs used. induction items as [|[key value] items IH]; intros srcs used Hs.
  - by intros [= <-].
  - simpl. destruct (meta_url value) as [u|]; [|done].
    destruct (_new_source u _) as [s|] eqn:Hnew; [|done]. simpl.
    apply IH. apply Forall_app. split; [done|].
    apply Forall_singleton. by eapply new_source_not_cache.
Qed.

Lemma read_sources_not_cache w file_meta srcs name multiple :
  _read_sources_from_file w file_meta = Ok (srcs, name, multiple) →
  Forall (λ s, cls s ≠ SourceCache) srcs.
Proof.
  unfold _read_sources_from_file.
  set (read := match file_meta with MetaUrl _ => _ | MetaDict _ => _ end).
  assert (∀ l n, read = Ok (l, n) → Forall (λ s, cls s ≠ SourceCache) l) as Hread.
  { unfold read. intros l n. destruct file_meta as [u|d].
    - destruct (_new_source u "1") as [s|] eqn:Hnew; [|done].
      intros [= <- _]. apply Forall_singleton. by eapply new_source_not_cache.
    - destruct (meta_top_url d) as [u|].
      + destruct (_new_source u "1") as [s|] eqn:Hnew; [|done].
        intros [= <- _]. apply Forall_singleton. by eapply new_source_not_cache.
      + destruct (read_items _ _ _) as [l'|] eqn:Hitems; [|done].
        intros [= <- _]. by eapply read_items_not_cache. }
  destruct read as [[l n]|]; [|done]. specialize (Hread l n eq_refl).
  simpl. unfold uses_pga_cache. simpl.
  destruct (has_valid_custom_cache_path w); [done|]. simpl.
  intros [= <- _ _].
  assert (Forall (λ s, cls s ≠ SourceCache)
            ((λ source, if isinstance SourceDownload source
                        then connect source else source) <$> l)) as Hconn.
  { apply Forall_fmap. eapply Forall_impl; [exact Hread|].
    intros s Hs. simpl. by destruct (isinstance SourceDownload s). }
  destruct (existsb _ _); [done|].
  apply Forall_app. split; [done|]. by apply Forall_singleton.
Qed.

(** The object [__init__] makes keeps the invariants of the data model
    as soon as its ids are unique and none of them is reserved. *)
Lemma construction_wf w depth game_slug file_id file_meta self :
  __init__ w depth game_slug file_id file_meta = Ok self →
  NoDup (get_values_from_sources_source_id self) →
  Forall (λ s, Py.startswith "|" (source_id s) = false) (sources self) →
  wf self.
Proof.
  unfold __init__.
  destruct (_read_sources_from_file w file_meta) as [[[srcs name] multiple]|] eqn:Hread;
    [|done].
  simpl. destruct (filter _ _) as [|[user su] rest] eqn:Huser; [done|].
  destruct (select_source _ _ _ _) as [r self'|] eqn:Hsel; [|done].
  intros [= ->] Hnd Hres.
  match type of Hsel with
  | select_source _ _ _ ?st = _ =>
      pose proof (select_source_frame w depth "|init" st) as Hf
  end.
  rewrite Hsel in Hf. apply frame_eq in Hf as (Hsrc & Hc & Hus).
  destruct (sources_eq_accessors _ _ Hsrc) as (_ & Hcl & _ & _). simpl in *.
  destruct (select_source_Return _ _ _ _ _ _ Hsel) as (_ & Ha & [s Hs]).
  split; try done.
  - rewrite Hc, Hcl. unfold get_sources_by_class, enumerate. simpl.
    apply read_sources_not_cache in Hread.
    destruct (filter (λ rs : nat * Source.t, cls rs.2 = SourceCache) _)
      as [|[i x] l] eqn:Hfilter; [done|].
    assert ((i, x) ∈ filter (λ rs : nat * Source.t, cls rs.2 = SourceCache)
                       (enumerate_from 0 srcs)) as Hin by (rewrite Hfilter; left).
    apply list_elem_of_filter in Hin as [Hcls Hin]. simpl in Hcls.
    apply list_elem_of_lookup in Hin as [k Hk].
    rewrite enumerate_from_lookup in Hk.
    destruct (srcs !! k) as [y|] eqn:Hy; simplify_eq/=.
    by destruct (Forall_lookup_1 _ _ _ _ Hread Hy).
  - rewrite Hus, Hcl. unfold get_sources_by_class, enumerate in *. simpl in *.
    by rewrite Huser.
  - intros a Ha'. rewrite Ha in Ha'. simplify_eq. by eapply lookup_lt_Some.
Qed.

Lemma cached_file_wf : wf cached_file.
Proof.
  split.
  - apply (bool_decide_unpack (NoDup (get_values_from_sources_source_id cached_file))).
    vm_compute. exact I.
  - repeat constructor.
  - reflexivity.
  - reflexivity.
  - eexists. reflexivity.
  - intros a [= <-]. simpl. lia.
Defined.


Lemma select_source_keeps_active w depth x self :
  has_active self → has_active (state_of (select_source w depth x self)).
Proof.
  revert x self. induction depth as [|depth IH]; intros x self H; [done|].
  simpl. repeat case_match; simpl; try done; try (by apply IH).
  all: unfold has_active; simpl.
  all: match goal with
       | H : get_sources_by_value_source_id _ _ = _ :: _ |- _ =>
           apply by_id_lookup in H as [H _]; simpl in H; eauto
       end.
Qed.

Lemma add_source_keeps_active source self :
  has_active self → has_active (state_of (add_source source self)).
Proof.
  intros (r & s & Ha & Hs). unfold add_source.
  repeat case_match; simpl; try (by exists r, s).
  exists r, s. split; [done|]. simpl.
  rewrite lookup_app_l; [done | by eapply lookup_lt_Some].
Qed.

(** C8. A file that [__init__] has made has an active source, one
    reference to one of the sources it owns, and selecting or adding
    sources keeps it so. A selection that returns is idempotent:
    selecting the same id again returns the same source and leaves the
    object exactly as it was ([select_source] sends no signal at all).
    And every selection clears the override of the url, whatever source
    it selects. *)
Theorem select_source_idempotent (w : World) (depth : nat) :
  (∀ game_slug file_id file_meta self,
     __init__ w depth game_slug file_id file_meta = Ok self →
     has_active self)
  ∧ (∀ source_id self,
       has_active self →
       has_active (state_of (select_source w depth source_id self)))
  ∧ (∀ source self,
       has_active self → has_active (state_of (add_source source self)))
  ∧ (∀ source_id self r self',
       select_source w depth source_id self = Return r self' →
       select_source w depth source_id self' = Return r self'
       ∧ _url_override self' = None)
  ∧ (∀ source_id self,
       0 < depth →
       _url_override (state_of (select_source w depth source_id self)) = None).
Proof.
  split_and!.
  - intros game_slug file_id file_meta self. unfold __init__.
    destruct (_read_sources_from_file w file_meta) as [[[srcs name] multiple]|];
      [|done].
    simpl. destruct (filter _ _) as [|[user su] rest]; [done|].
    destruct (select_source _ _ _ _) as [r self'|] eqn:Hsel; [|done].
    intros [= ->].
    destruct (select_source_Return _ _ _ _ _ _ Hsel) as (_ & Ha & [s Hs]).
    unfold has_active. eauto.
  - intros x self H. by apply select_source_keeps_active.
  - intros source self H. by apply add_source_keeps_active.
  - intros x self r self' H. split.
    + by eapply select_source_again.
    + by destruct (select_source_Return _ _ _ _ _ _ H) as (Hu & _).
  - intros x self Hd. by apply select_source_clears_override.
Qed.

Lemma select_source_idempotent_witness :
  select_source example_world 3 "b"
    (state_of (select_source example_world 3 "b" two_mirrors_file))
  = Return 1 (state_of (select_source example_world 3 "b" two_mirrors_file))
  ∧ _url_override (state_of (select_source example_world 3 "b" two_mirrors_file))
    = None.
Proof.
  apply (proj1 (proj2 (proj2 (proj2 (select_source_idempotent example_world 3))))
           "b" two_mirrors_file 1).
  vm_compute. reflexivity.
Defined.

(** C1 (the code does otherwise). With the sources [a.test], [b.test]
    and the user source, neither mirror restricted, and [a.test] found
    unavailable, [select_source("|auto_available")] returns [a.test]
    and leaves it the active source: the loop returns the first
    download source that is not restricted without asking whether it is
    available. With no such source the method ends in the
    AttributeError of [self._sources]. *)
Theorem auto_available_ignores_availability :
  __init__ example_world 3 "game" "file" two_mirrors = Ok two_mirrors_file
  ∧ select_source example_world 3 "|auto_available"
      (found_unavailable 0 two_mirrors_file)
    = Return 0 (found_unavailable 0 two_mirrors_file)
  ∧ active_source (found_unavailable 0 two_mirrors_file) = Some 0
  ∧ (Source.url <$> sources (found_unavailable 0 two_mirrors_file) !! 0)
    = Some "http://a.test/f.zip"
  ∧ (Source.available ∅ <$> sources (found_unavailable 0 two_mirrors_file) !! 0)
    = Some AvFalse
  ∧ select_source example_world 3 "|auto_available" user_only_file
    = Raise Py.AttributeError user_only_file.
Proof. split_and!; vm_compute; reflexivity. Qed.

(** C6 (the code does otherwise). [_unique_id] runs its counter loop
    and then returns the id it was given: a source added under the id
    of another keeps that id, and the user source made for a file
    whose mirror is called ["user"] is called ["user"] as well. The
    first key of a dict is taken as it is, reserved bar included. *)
Theorem unique_id_returns_colliding_id :
  _unique_id (Some two_mirrors_file) "a" None = Some "a"
  ∧ (∃ self',
       add_source (Source.new SourceDownload "a" "http://c.test/f.zip" false)
         two_mirrors_file = Return "a" self'
       ∧ get_values_from_sources_source_id self' = ["a"; "b"; "user"; "a"])
  ∧ (∃ self,
       __init__ example_world 3 "game" "file" mirror_called_user = Ok self
       ∧ get_values_from_sources_source_id self = ["user"; "user"])
  ∧ (∃ self,
       __init__ example_world 3 "game" "file" mirror_called_bar = Ok self
       ∧ get_values_from_sources_source_id self = ["|x"; "user"]).
Proof.
  split_and!.
  - vm_compute. reflexivity.
  - eexists. split; vm_compute; reflexivity.
  - eexists. split; vm_compute; reflexivity.
  - eexists. split; vm_compute; reflexivity.
Qed.

(** C9. On a file that owns one source only, reading [has_no_sources]
    raises NameError, and so do [uses_pga_cache()] and [is_cached],
    which read it, instead of answering [False]. *)
Theorem has_no_sources_raises_NameError (w : World) (self : File.t) :
  length (sources self) = 1 →
  has_no_sources (Some self) = Err Py.NameError
  ∧ uses_pga_cache w (Some self) = Err Py.NameError
  ∧ is_cached w self = Raise Py.NameError self.
Proof.
  intros H.
  assert (source_class_named "UserSource" = Err Py.NameError) as Hname
    by (vm_compute; reflexivity).
  assert (has_no_sources (Some self) = Err Py.NameError) as Hno.
  { unfold has_no_sources. rewrite bool_decide_eq_true_2 by done.
    by rewrite Hname. }
  unfold is_cached, uses_pga_cache. by rewrite Hno.
Qed.

Lemma has_no_sources_raises_NameError_witness :
  has_no_sources (Some user_only_file) = Err Py.NameError
  ∧ uses_pga_cache example_world (Some user_only_file) = Err Py.NameError
  ∧ is_cached example_world user_only_file = Raise Py.NameError user_only_file.
Proof.
  apply (has_no_sources_raises_NameError example_world user_only_file).
  reflexivity.
Defined.

Lemma unique_loop_in rounds source_id new_id i id_list :
  unique_loop rounds source_id new_id i id_list ∈ id_list →
  ∀ k, k < rounds → source_id +:+ pretty (i + k) ∈ id_list.
Proof.
  revert new_id i. induction rounds as [|rounds IH]; intros new_id i H k Hk; [lia|].
  simpl in H. case_bool_decide; [|done].
  destruct k as [|k].
  - rewrite Nat.add_0_r. destruct rounds as [|rounds]; [done|].
    simpl in H. by case_bool_decide.
  - replace (i + S k) with (S i + k) by lia. eapply IH; [done | lia].
Qed.

(** The loop of [_unique_id] ends by its own test within the rounds it
    is given: the id it ends on is not in the list. *)
Lemma unique_loop_leaves source_id id_list :
  unique_loop (S (length id_list)) source_id source_id 0 id_list ∉ id_list.
Proof.
  intros H. pose proof (unique_loop_in _ _ _ _ _ H) as Hall.
  assert (NoDup ((λ k : nat, source_id +:+ pretty k) <$> seq 0 (S (length id_list))))
    as Hnd.
  { apply NoDup_fmap_2; [|apply NoDup_seq].
    intros k k' Hk. apply String.app_inj in Hk. by apply (inj pretty) in Hk. }
  assert (((λ k : nat, source_id +:+ pretty k) <$> seq 0 (S (length id_list)))
            ⊆ id_list) as Hsub.
  { intros x (k & -> & Hk%elem_of_seq)%list_elem_of_fmap. apply (Hall k). lia. }
  pose proof (submseteq_length _ _ (NoDup_submseteq _ _ Hnd Hsub)) as Hlen.
  rewrite length_fmap, length_seq in Hlen. lia.
Qed.

(** [add_source] never comes to the branch kept for a missing
    [self.sources]. *)
Lemma unique_id_of_object self source_id :
  is_Some (_unique_id (Some self) source_id None).
Proof. unfold _unique_id. simpl. eauto. Qed.

End FileFacts.

(** ** The speed test *)

Module ProbeFacts.

Import Source File Probe.

Lemma poll_times_out stop transfer source window k th :
  (∀ n, stop n = false) →
  (∀ j, j < window → state (transfer (k + j)) = RUNNING) →
  poll stop transfer source window k th
  = ({| reads := reads th + 2 * window; scheduled := scheduled th |}, Ok None).
Proof.
  intros Hstop. revert k th.
  induction window as [|window IH]; intros k th Hrun.
  - simpl. destruct th. simpl. by rewrite Nat.add_0_r.
  - simpl. rewrite !Hstop.
    specialize (Hrun 0 ltac:(lia)) as H0. rewrite Nat.add_0_r in H0. rewrite H0.
    rewrite IH.
    + simpl. do 2 f_equal. lia.
    + intros j Hj. replace (S k + j) with (k + S j) by lia. apply Hrun. lia.
Qed.

Lemma probe_all_time_out stop transfers windows overwrite_existing self _list th :
  (∀ n, stop n = false) →
  (∀ r, never_leaves_running (transfers r) (windows r)) →
  ∃ th', probe stop transfers windows overwrite_existing self _list th = (th', Ok ())
         ∧ scheduled th' = scheduled th.
Proof.
  intros Hstop Hrun. revert th.
  induction _list as [|[r source] rest IH]; intros th; simpl; [eauto|].
  rewrite !Hstop. destruct (negb overwrite_existing && _).
  - destruct (IH (after_read (after_read th))) as (th' & -> & Hs). eauto.
  - unfold speed_test. rewrite poll_times_out by (done || apply Hrun).
    rewrite !Hstop.
    match goal with |- context [probe _ _ _ _ _ rest ?t] =>
      destruct (IH t) as (th' & -> & Hs) end.
    eauto.
Qed.

(** C7 (as the code has it). With no stop requested, the speed test of
    a download source whose transfer never leaves the running state
    within the window returns nothing and schedules no call: the speed
    of the source is left as it was (the time-out is only logged), and
    the run goes on to the next download source. A run in which every
    transfer times out schedules the two processing signals only. *)
Theorem timed_out_probe_goes_on (stop : nat → bool) (transfers : nat → Transfer)
    (windows : nat → nat) (overwrite_existing : bool) (self : File.t)
    (r : nat) (source : Source.t) (rest : list (nat * Source.t)) (th : Thread) :
  (∀ n, stop n = false) →
  never_leaves_running (transfers r) (windows r) →
  negb overwrite_existing && truthy_speed (Source.speed source) = false →
  let tested := {| reads := S (reads th) + 2 * windows r; scheduled := scheduled th |} in
  speed_test stop (transfers r) (windows r) r (after_read th) = (tested, Ok None)
  ∧ probe stop transfers windows overwrite_existing self ((r, source) :: rest) th
    = probe stop transfers windows overwrite_existing self rest (after_read tested)
  ∧ ((∀ r', never_leaves_running (transfers r') (windows r')) →
     scheduled (run_speedtest stop transfers windows overwrite_existing self th).1
     = scheduled th ++ [Emit "processing-start"; Emit "processing-stop"]).
Proof.
  intros Hstop Hrun Htested tested.
  assert (speed_test stop (transfers r) (windows r) r (after_read th)
          = (tested, Ok None)) as Htest.
  { unfold speed_test. rewrite poll_times_out; [done | done |].
    intros j Hj. by apply Hrun. }
  split_and!; [done | |].
  - simpl. rewrite !Hstop, Htested, Htest. by rewrite Hstop.
  - intros Hall. unfold run_speedtest.
    destruct (probe_all_time_out stop transfers windows overwrite_existing self
                (get_sources_by_class SourceDownload self)
                (schedule_at_idle (Emit "processing-start") th) Hstop Hall)
      as (th' & -> & Hsched).
    cbn [fst scheduled schedule_at_idle]. rewrite Hsched.
    cbn [scheduled schedule_at_idle]. by rewrite <- app_assoc.
Qed.

Lemma stays_running_never_leaves : never_leaves_running stays_running 25.
Proof. intros k _. reflexivity. Defined.

Lemma timed_out_probe_goes_on_witness :
  probe never_stopped (λ _, stays_running) (λ _, 25) false two_mirrors_file
    (get_sources_by_class SourceDownload two_mirrors_file) fresh_thread
  = probe never_stopped (λ _, stays_running) (λ _, 25) false two_mirrors_file
      [(1, Source.connect (Source.new SourceDownload "b" "http://b.test/f.zip" false))]
      {| reads := 52; scheduled := [] |}.
Proof.
  exact (proj1 (proj2
    (timed_out_probe_goes_on never_stopped (λ _, stays_running) (λ _, 25) false
       two_mirrors_file 0
       (Source.connect (Source.new SourceDownload "a" "http://a.test/f.zip" false))
       [(1, Source.connect (Source.new SourceDownload "b" "http://b.test/f.zip" false))]
       fresh_thread (λ _, eq_refl) stays_running_never_leaves eq_refl))).
Defined.

(** C7 as stated fails: after a run in which the transfer of [a.test]
    stays running through the whole window, and the main loop has run
    what was scheduled, the speed of the source is still [None], not
    [False]. *)
Lemma timed_out_probe_speed_stays_None :
  never_leaves_running stays_running 25
  ∧ (Source.speed <$>
       sources (run_then_idle (λ _, stays_running) (λ _, 25) false
                  example_world two_mirrors_file).1.2 !! 0)
    = Some SpNone
  ∧ (Source.speed <$>
       sources (run_then_idle (λ _, stays_running) (λ _, 25) false
                  example_world two_mirrors_file).1.2 !! 0)
    ≠ Some SpFalse.
Proof.
  split_and!.
  - apply stays_running_never_leaves.
  - vm_compute. reflexivity.
  - vm_compute. discriminate.
Qed.

(** C3 (the code does otherwise). A file with two mirrors, no cache
    source, and transfers that are complete at the first look: the run
    schedules the speed of the first mirror, [prepare] and
    [_add_cached], and stops probing (nothing is scheduled for the
    second mirror); the main loop then adds one cache source and the
    file is on disk under the destination path. But the cache source
    keeps the path as it was given, and its [available] looks for the
    path without its first seven characters: it is false. A second
    run, even a forced one, adds no second cache source. *)
Theorem probed_cache_source_not_available :
  let run := run_then_idle (λ _, completes_at_once) (λ _, 25) false
               example_world two_mirrors_file in
  let again := run_then_idle (λ _, completes_at_once) (λ _, 25) true
                 run.1.1 run.1.2 in
  cache_sources two_mirrors_file = []
  ∧ scheduled (run_speedtest never_stopped (λ _, completes_at_once) (λ _, 25) false
                 two_mirrors_file fresh_thread).1
    = [Emit "processing-start"; Success 0 1000000; Prepare;
       AddCached [Byte.x50; Byte.x4b]; Emit "processing-stop"]
  ∧ run.2 = []
  ∧ cache_sources run.1.2
    = [(3, Source.new SourceCache "tempcache"
             "/home/user/.cache/lutris/installer/game/file/f.zip" true)]
  ∧ cache_source run.1.2 = Some 3
  ∧ elements (files run.1.1)
    = ["/home/user/.cache/lutris/installer/game/file/f.zip"]
  ∧ Py.drop 7 "/home/user/.cache/lutris/installer/game/file/f.zip"
    = "ser/.cache/lutris/installer/game/file/f.zip"
  ∧ (Source.available (files run.1.1) <$> sources run.1.2 !! 3) = Some AvFalse
  ∧ length (cache_sources again.1.2) = 1.
Proof. split_and!; vm_compute; reflexivity. Qed.

(** C2 (the code does otherwise). A cache source that exists is passed
    over by [select_source("|init")] in two ways. A file whose first
    mirror is called ["tempcache"] gets, from a speed test that has
    the whole file, a cache source under the same id, since
    [_unique_id] returns the id it was given; [cache_source] refers to
    it, but ["|init"] selects by that id, and the first source of the
    id is the mirror: the mirror is the active source, also when
    another source was active before. And a cache source added with
    [add_source] is not recorded in [cache_source], so ["|init"] goes
    on to the download sources. Besides, ["|init"] raises ValueError
    when the restriction test cannot parse the url of a mirror. *)
Theorem init_passes_over_cache_source :
  (∃ self,
     __init__ example_world 3 "game" "file" mirror_called_tempcache = Ok self
     ∧ let run := run_then_idle (λ _, completes_at_once) (λ _, 25) false
                    example_world self in
       run.2 = []
       ∧ get_values_from_sources_source_id run.1.2
         = ["tempcache"; "b"; "user"; "tempcache"]
       ∧ cache_source run.1.2 = Some 3
       ∧ (cls <$> sources run.1.2 !! 3) = Some SourceCache
       ∧ (cls <$> sources run.1.2 !! 0) = Some SourceDownload
       ∧ select_source example_world 3 "|init" run.1.2 = Return 0 run.1.2
       ∧ active_source run.1.2 = Some 0
       ∧ active_source (state_of (select_source example_world 3 "b" run.1.2))
         = Some 1
       ∧ active_source
           (state_of (select_source example_world 3 "|init"
                        (state_of (select_source example_world 3 "b" run.1.2))))
         = Some 0)
  ∧ (∃ self,
       add_source (Source.new SourceCache "cache" "/home/user/f.zip" false)
         two_mirrors_file = Return "cache" self
       ∧ (cls <$> sources self !! 3) = Some SourceCache
       ∧ cache_source self = None
       ∧ select_source example_world 3 "|init" self = Return 0 self
       ∧ (cls <$> sources self !! 0) = Some SourceDownload)
  ∧ __init__ example_world 3 "game" "file" mirror_with_bracket
    = Err Py.ValueError.
Proof.
  split_and!.
  - eexists. split; [vm_compute; reflexivity|].
    split_and!; vm_compute; reflexivity.
  - eexists. split; [vm_compute; reflexivity|].
    split_and!; vm_compute; reflexivity.
  - vm_compute. reflexivity.
Qed.

End ProbeFacts.


(** ** More on the job scheduler *)

Module SchedulerFacts.

Import Jobs.

(** X1. [remove_job] takes the named job, and only it, out of the map, sets
    its stop request when asked to and touches no other AsyncCall; a
    second removal finds nothing. *)
Theorem remove_job_takes_one (self : ProcessManager) (name : PyKey) (job : nat)
    (send_stop_request : bool) :
  _active_processes self !! name = Some job →
  (remove_job name send_stop_request self).2 = Ref job
  ∧ contains name (remove_job name send_stop_request self).1 = false
  ∧ S (len (remove_job name send_stop_request self).1) = len self
  ∧ (∀ other, other ≠ name →
       _active_processes (remove_job name send_stop_request self).1 !! other
       = _active_processes self !! other)
  ∧ threads (remove_job name send_stop_request self).1 !! job
    = (if send_stop_request then set_stop else id) <$> threads self !! job
  ∧ (∀ j, j ≠ job →
       threads (remove_job name send_stop_request self).1 !! j = threads self !! j)
  ∧ remove_job name send_stop_request (remove_job name send_stop_request self).1
    = ((remove_job name send_stop_request self).1, PyFalse).
Proof.
  intros Hj. unfold remove_job at 1 2 3 4 5 6. rewrite Hj. simpl. split_and!.
  - done.
  - unfold contains. simpl. rewrite lookup_delete_eq.
    apply bool_decide_eq_false. by intros [? ?].
  - unfold len. simpl.
    rewrite <- (insert_delete_id (_active_processes self) name job Hj) at 2.
    by rewrite map_size_insert_None by apply lookup_delete_eq.
  - intros other Hne. by rewrite lookup_delete_ne.
  - destruct send_stop_request.
    + by rewrite list_lookup_alter_eq.
    + by destruct (threads self !! job).
  - intros j Hne. destruct send_stop_request; [|done].
    by rewrite list_lookup_alter_ne.
  - unfold remove_job. rewrite Hj. simpl. by rewrite lookup_delete_eq.
Qed.

Lemma remove_job_takes_one_witness :
  (remove_job (KStr "probe") true one_job).2 = Ref 0
  ∧ contains (KStr "probe") (remove_job (KStr "probe") true one_job).1 = false.
Proof.
  destruct (remove_job_takes_one one_job (KStr "probe") 0 true) as (H1 & H2 & _).
  - reflexivity.
  - exact (conj H1 H2).
Defined.

Lemma stop_all_spec (m : gmap PyKey nat) (ts0 : list AsyncCall) :
  let ts := map_fold (λ _ job ts, alter set_stop job ts) ts0 m in
  (∀ j, ts !! j = ts0 !! j ∨ ts !! j = set_stop <$> ts0 !! j)
  ∧ (∀ name j, m !! name = Some j → ts !! j = set_stop <$> ts0 !! j)
  ∧ (∀ j, (∀ name, m !! name ≠ Some j) → ts !! j = ts0 !! j).
Proof.
  apply (map_fold_weak_ind
           (λ ts (m : gmap PyKey nat),
              (∀ j, ts !! j = ts0 !! j ∨ ts !! j = set_stop <$> ts0 !! j)
              ∧ (∀ name j, m !! name = Some j → ts !! j = set_stop <$> ts0 !! j)
              ∧ (∀ j, (∀ name, m !! name ≠ Some j) → ts !! j = ts0 !! j))).
  - split_and!; [by left | by intros ?? ?%lookup_empty_Some | done].
  - intros i x m' r Hi (Hany & Hin & Hout).
    assert (alter set_stop x r !! x = set_stop <$> ts0 !! x) as Hx.
    { rewrite list_lookup_alter_eq.
      destruct (Hany x) as [-> | ->]; [done|].
      by destruct (ts0 !! x). }
    split_and!.
    + intros j. destruct (decide (x = j)) as [<-|Hne]; [by right|].
      rewrite list_lookup_alter_ne by done. apply Hany.
    + intros name j Hname. destruct (decide (x = j)) as [<-|Hne]; [done|].
      rewrite list_lookup_alter_ne by done.
      apply lookup_insert_Some in Hname as [[_ ?]|[_ Hname]]; [done|].
      by eapply Hin.
    + intros j Hnot.
      assert (x ≠ j) as Hne.
      { intros <-. apply (Hnot i). by rewrite lookup_insert_eq. }
      rewrite list_lookup_alter_ne by done. apply Hout.
      intros name Hname. apply (Hnot name).
      rewrite lookup_insert_ne; [done|]. intros <-. congruence.
Qed.

(** X2. [remove_jobs] empties the map and sets the stop request of every
    job that was in it, and of no other; what the main loop already
    holds stays there. *)
Theorem remove_jobs_stops_all (self : ProcessManager) :
  len (remove_jobs self) = 0
  ∧ (∀ name, contains name (remove_jobs self) = false)
  ∧ (∀ name j, _active_processes self !! name = Some j →
       threads (remove_jobs self) !! j = set_stop <$> threads self !! j)
  ∧ (∀ j, (∀ name, _active_processes self !! name ≠ Some j) →
       threads (remove_jobs self) !! j = threads self !! j)
  ∧ main_loop (remove_jobs self) = main_loop self.
Proof.
  destruct (stop_all_spec (_active_processes self) (threads self)) as (_ & Hin & Hout).
  split_and!; done.
Qed.

(** X3. Submitting a job under a new name and removing it again leaves the
    map as it was: [remove_job] returns the job just made, with its
    stop request set, and the AsyncCalls that were there are untouched. *)
Theorem add_job_remove_job (self : ProcessManager) (func : PyFunction)
    (cb : option nat) (name : PyKey) :
  _active_processes self !! name = None →
  let added := (add_job func cb (Some name) self).1 in
  (remove_job name true added).2 = Ref (length (threads self))
  ∧ _active_processes (remove_job name true added).1 = _active_processes self
  ∧ (stop_request <$> threads (remove_job name true added).1 !! length (threads self))
    = Some true
  ∧ (∀ j, j < length (threads self) →
       threads (remove_job name true added).1 !! j = threads self !! j).
Proof.
  intros Hn added. unfold added, add_job. rewrite Hn. simpl.
  unfold remove_job. simpl. rewrite lookup_insert_eq. simpl. split_and!.
  - done.
  - by apply delete_insert_id.
  - rewrite list_lookup_alter_eq, lookup_app_r by lia.
    by rewrite Nat.sub_diag.
  - intros j Hj. rewrite list_lookup_alter_ne by lia. by rewrite lookup_app_l.
Qed.

Lemma add_job_remove_job_witness :
  _active_processes
    (remove_job (KStr "probe") true
       (add_job {| py_id := 7 |} None (Some (KStr "probe")) empty_manager).1).1
  = ∅.
Proof.
  refine (proj1 (proj2 (add_job_remove_job empty_manager {| py_id := 7 |} None
                          (KStr "probe") _))).
  reflexivity.
Defined.

(** X4. A job submitted under a new name that comes to its end without a
    stop request has its callback run once by the main loop, with the
    result and the error. When the caller's callback returns, or there
    is none, the job is out of the map afterwards; when it raises,
    [remove_job] is not reached: the job stays in the map and its stop
    request is not set. *)
Theorem job_runs_to_completion (self : ProcessManager) (func : PyFunction)
    (cb : option nat) (name : PyKey) (c : Completion) (e : Py.exn) :
  _active_processes self !! name = None →
  main_loop self = [] →
  let job := length (threads self) in
  let call := {| idle_job := job; idle_result := result_of c;
                 idle_error := error_of c |} in
  let done := run [EvAddJob func cb (Some name); EvTarget job c; EvIdle] self in
  let failed :=
    run [EvAddJob func cb (Some name); EvTarget job c; EvIdleRaises e] self in
  _active_processes done = _active_processes self
  ∧ called done = called self ++ [call]
  ∧ main_loop done = []
  ∧ called failed = called self ++ [call]
  ∧ main_loop failed = []
  ∧ _active_processes failed
    = match cb with
      | Some _ => <[name := job]> (_active_processes self)
      | None => _active_processes self
      end
  ∧ (is_Some cb → (stop_request <$> threads failed !! job) = Some false).
Proof.
  intros Hn Hloop job call done failed. unfold done, failed, run. simpl.
  unfold add_job. rewrite Hn. simpl.
  unfold target. simpl. rewrite lookup_app_r by lia. rewrite Nat.sub_diag. simpl.
  unfold idle. simpl. rewrite Hloop. simpl.
  rewrite list_lookup_insert_eq by (rewrite length_app; simpl; lia). simpl.
  unfold remove_job. simpl. rewrite lookup_insert_eq. simpl.
  assert (Hdel : delete name (<[name:=length (threads self)]> (_active_processes self))
                 = _active_processes self) by (by apply delete_insert_id).
  destruct cb as [f|]; simpl; split_and!; try done.
  all: try (by intros [? ?]).
  all: try (intros _; by rewrite list_lookup_insert_eq by (rewrite length_app; simpl; lia)).
Qed.

Lemma job_runs_to_completion_witness :
  called (run [EvAddJob {| py_id := 7 |} None (Some (KStr "probe"));
               EvTarget 0 (Returned 3); EvIdle] empty_manager)
  = [{| idle_job := 0; idle_result := Some 3%Z; idle_error := None |}].
Proof.
  refine (proj1 (proj2 (job_runs_to_completion empty_manager {| py_id := 7 |} None
                          (KStr "probe") (Returned 3) Py.RuntimeError _ _)));
    reflexivity.
Defined.

(** X5. The main loop takes the oldest call off its queue and runs it.
    When the caller's callback returns, or there is none, the call
    removes whatever job the map holds under the name at that time and
    sets its stop request: when the name has been given to a newer job
    meanwhile, it is the newer job that is removed and stopped. When
    the caller's callback raises, nothing is removed or stopped. *)
Theorem late_callback_removes_by_name (self : ProcessManager) (call : IdleCall)
    (rest : list IdleCall) (a : AsyncCall) (j : nat) (raised : option Py.exn) :
  main_loop self = call :: rest →
  threads self !! idle_job call = Some a →
  _active_processes self !! job_name (callback a) = Some j →
  called (idle raised self) = called self ++ [call]
  ∧ main_loop (idle raised self) = rest
  ∧ (user_callback (callback a) = None ∨ raised = None →
     contains (job_name (callback a)) (idle raised self) = false
     ∧ threads (idle raised self) !! j = set_stop <$> threads self !! j)
  ∧ (is_Some (user_callback (callback a)) → is_Some raised →
     _active_processes (idle raised self) = _active_processes self
     ∧ threads (idle raised self) = threads self).
Proof.
  intros Hloop Ha Hj. unfold idle. rewrite Hloop, Ha.
  unfold remove_job. simpl. rewrite Hj.
  destruct (user_callback (callback a)) as [f|], raised as [e|]; simpl;
    split_and!; try done.
  all: try (by intros [?|?]).
  all: try (by intros [? ?]).
  all: try (by intros _ [? ?]).
  all: intros _; split;
    [ unfold contains; simpl; rewrite lookup_delete_eq;
      apply bool_decide_eq_false; by intros [? ?]
    | by rewrite list_lookup_alter_eq ].
Qed.

(** A manager in which the job [0] has ended with its callback waiting,
    was removed, and the name given to the job [1]. *)
Lemma late_callback_removes_by_name_witness :
  let self :=
    run [EvAddJob {| py_id := 7 |} None (Some (KStr "probe"));
         EvTarget 0 (Returned 3);
         EvRemoveJob (KStr "probe") true;
         EvAddJob {| py_id := 8 |} None (Some (KStr "probe"))] empty_manager in
  contains (KStr "probe") self = true
  ∧ contains (KStr "probe") (idle None self) = false
  ∧ (stop_request <$> threads (idle None self) !! 1) = Some true.
Proof.
  intros self.
  destruct (late_callback_removes_by_name self
              {| idle_job := 0; idle_result := Some 3%Z; idle_error := None |} []
              {| function := {| py_id := 7 |};
                 callback := {| user_callback := None; job_name := KStr "probe" |};
                 stop_request := true; callback_task := Some 0; running := false |}
              1 None eq_refl eq_refl eq_refl) as (_ & _ & H & _).
  destruct (H (or_introl eq_refl)) as [H3 H4].
  split_and!; [reflexivity | exact H3 | by rewrite H4].
Defined.

End SchedulerFacts.


(** ** Idle tasks *)

Module IdleFacts.

Import Idle.

(** X6. An idle task does nothing once it was used or has completed:
    [unschedule] disconnects the task and a second call changes
    nothing; a completed task cannot be connected again, and
    unscheduling it, or a task whose wrapper has run, leaves the
    sources of the main loop alone; the wrapper of a repeating call
    leaves the task as it is while the call asks to be repeated, and
    disconnects it when the call answers false or raises. *)
Theorem idle_task_used_once (task : IdleTask) (glib : gset nat) (id : nat) :
  is_connected (unschedule task glib).1 = false
  ∧ unschedule (unschedule task glib).1 (unschedule task glib).2
    = unschedule task glib
  ∧ connect id (mark_completed task) = mark_completed task
  ∧ unschedule (mark_completed task) glib = (mark_completed task, glib)
  ∧ unschedule (wrapper task) glib = (wrapper task, glib)
  ∧ wrapper_repeating (Some true) task = task
  ∧ unschedule (wrapper_repeating (Some false) task) glib
    = (wrapper_repeating (Some false) task, glib)
  ∧ unschedule (wrapper_repeating None task) glib
    = (wrapper_repeating None task, glib)
  ∧ unschedule COMPLETED_IDLE_TASK glib = (COMPLETED_IDLE_TASK, glib)
  ∧ is_completed COMPLETED_IDLE_TASK = true.
Proof.
  destruct task as [[s|] completed]; split_and!; done.
Qed.

(** X7. Scheduling a call and unscheduling it before it runs leaves the
    main loop with the sources it had, when the ids it gives out are
    new; the task comes back connected, and the ids stay new. *)
Theorem schedule_unschedule (loop : MainLoop) :
  fresh_ids loop →
  is_connected (schedule loop).1 = true
  ∧ (unschedule (schedule loop).1 (live (schedule loop).2)).2 = live loop
  ∧ fresh_ids (schedule loop).2.
Proof.
  intros Hfresh. unfold schedule. simpl. split_and!.
  - done.
  - assert (next_id loop ∉ live loop) as Hnew by (intros ?%Hfresh; lia).
    apply set_eq. intros x.
    rewrite elem_of_difference, elem_of_union, elem_of_singleton. split.
    + by intros [[->|?] ?].
    + intros Hx. split; [by right|]. by intros ->.
  - intros id. simpl. rewrite elem_of_union, elem_of_singleton.
    intros [-> | ?%Hfresh]; lia.
Qed.

Lemma schedule_unschedule_witness :
  (unschedule (schedule {| live := {[0; 1]}; next_id := 2 |}).1
     (live (schedule {| live := {[0; 1]}; next_id := 2 |}).2)).2
  = {[0; 1]}.
Proof.
  refine (proj1 (proj2 (schedule_unschedule {| live := {[0; 1]}; next_id := 2 |} _))).
  intros id. simpl. rewrite elem_of_union, !elem_of_singleton. lia.
Defined.

End IdleFacts.


(** ** Strings *)

Module StringFacts.

Import Lists.

Lemma prefix_empty (s : string) : String.prefix "" s = true.
Proof. by destruct s. Qed.

Lemma append_nil (s : string) : "" +:+ s = s.
Proof. reflexivity. Qed.

Lemma append_cons (c : ascii) (t s : string) : String c t +:+ s = String c (t +:+ s).
Proof. reflexivity. Qed.

Lemma drop_length_app (a b : string) : Py.drop (String.length a) (a +:+ b) = b.
Proof. induction a as [|c a IH]; [by destruct b|done]. Qed.

Lemma string_length_app (a b : string) :
  String.length (a +:+ b) = String.length a + String.length b.
Proof. induction a as [|c a IH]; simpl; [done|by rewrite IH]. Qed.

Lemma endswith_app (a b : string) : Py.endswith b (a +:+ b) = true.
Proof.
  unfold Py.endswith. apply bool_decide_eq_true.
  rewrite string_length_app.
  replace (String.length a + String.length b - String.length b)
    with (String.length a) by lia.
  apply drop_length_app.
Qed.

Lemma substring_length_app (t h : string) :
  String.substring 0 (String.length t) (t +:+ h) = t.
Proof.
  induction t as [|c t IH]; [by destruct h|].
  rewrite append_cons. cbn. by rewrite IH.
Qed.

Lemma index_cons (p : string) (a : ascii) (s : string) :
  String.index 0 p (String a s)
  = if String.prefix p (String a s) then Some 0
    else match String.index 0 p s with Some n => Some (S n) | None => None end.
Proof. reflexivity. Qed.

Lemma prefix_colon (a : ascii) (s : string) :
  String.prefix ":" (String a s) = bool_decide (a = ":"%char).
Proof.
  change (String.prefix ":" (String a s))
    with (if Ascii.ascii_dec ":" a then String.prefix "" s else false).
  destruct (Ascii.ascii_dec ":" a) as [<-|Hc].
  - by rewrite prefix_empty.
  - by rewrite bool_decide_eq_false_2.
Qed.

Lemma index_colon_app (t h : string) :
  String.index 0 ":" t = None →
  String.index 0 ":" (t +:+ ":" +:+ h) = Some (String.length t).
Proof.
  induction t as [|c t IH]; intros Hi.
  - rewrite !append_nil, append_cons, index_cons, prefix_colon. done.
  - rewrite append_cons, index_cons, prefix_colon.
    rewrite index_cons, prefix_colon in Hi.
    case_bool_decide; [done|].
    destruct (String.index 0 ":" t) eqn:E; [done|].
    rewrite IH by done. done.
Qed.

Lemma startswith_file_app (path : string) :
  Py.startswith "file://" ("file://" +:+ path) = true.
Proof.
  change ("file://" +:+ path) with
    (String "f" (String "i" (String "l" (String "e" (String ":"
       (String "/" (String "/" path))))))).
  unfold Py.startswith. cbn. apply prefix_empty.
Qed.

Lemma startswith_NA u :
  Py.startswith "N/A" u = true → Py.startswith "$STEAM" u = false.
Proof.
  destruct u as [|c u]; [done|]. unfold Py.startswith.
  change (String.prefix "N/A" (String c u))
    with (if Ascii.ascii_dec "N" c then String.prefix "/A" u else false).
  destruct (Ascii.ascii_dec "N" c) as [<-|]; done.
Qed.

Lemma slice_1_0 s : Py.slice 1 0 s = "".
Proof. unfold Py.slice. destruct s as [|c [|c' s]]; done. Qed.

End StringFacts.

(** ** Restricted domains *)

Module ListsFacts.

Import Lists StringFacts.

Lemma scheme_char_no_delim a :
  is_scheme_char a = true →
  bool_decide (a = "/"%char) || bool_decide (a = "?"%char)
  || bool_decide (a = "#"%char) = false.
Proof.
  intros H.
  repeat case_bool_decide; subst; try done; vm_compute in H; done.
Qed.

Lemma until_delim_app (host rest : string) :
  all_chars is_scheme_char host = true →
  until_delim (host +:+ rest) = host +:+ until_delim rest.
Proof.
  induction host as [|c host IH]; simpl; [done|].
  intros [Hc Hh]%andb_prop.
  rewrite (scheme_char_no_delim _ Hc), IH; done.
Qed.

Lemma scheme_char_plain a :
  is_scheme_char a = true →
  is_unsafe a = false ∧ is_ascii a = true
  ∧ bool_decide (a = "["%char) = false ∧ bool_decide (a = "]"%char) = false.
Proof.
  destruct a as [[] [] [] [] [] [] [] []]; vm_compute; intros H;
    first [discriminate H | done].
Qed.

Lemma remove_unsafe_app (a b : string) :
  remove_unsafe (a +:+ b) = remove_unsafe a +:+ remove_unsafe b.
Proof.
  induction a as [|c a IH]; [done|].
  rewrite append_cons. cbn [remove_unsafe].
  destruct (is_unsafe c); [done|]. by rewrite append_cons, IH.
Qed.

Lemma remove_unsafe_scheme_chars (host : string) :
  all_chars is_scheme_char host = true → remove_unsafe host = host.
Proof.
  induction host as [|c host IH]; [done|]. cbn [all_chars remove_unsafe].
  intros [Hc Hh]%andb_prop. destruct (scheme_char_plain _ Hc) as (-> & _).
  by rewrite IH.
Qed.

Lemma has_char_app c (a b : string) :
  has_char c (a +:+ b) = has_char c a || has_char c b.
Proof.
  induction a as [|x a IH]; [done|].
  rewrite append_cons. cbn [has_char]. by rewrite IH, orb_assoc.
Qed.

Lemma all_chars_app p (a b : string) :
  all_chars p (a +:+ b) = all_chars p a && all_chars p b.
Proof.
  induction a as [|x a IH]; [done|].
  rewrite append_cons. cbn [all_chars]. by rewrite IH, andb_assoc.
Qed.

Lemma scheme_chars_plain (host : string) :
  all_chars is_scheme_char host = true →
  has_char "[" host = false ∧ has_char "]" host = false
  ∧ all_chars is_ascii host = true.
Proof.
  induction host as [|c host IH]; [done|]. cbn [all_chars has_char].
  intros [Hc Hh]%andb_prop.
  destruct (scheme_char_plain _ Hc) as (_ & -> & -> & ->).
  destruct (IH Hh) as (-> & -> & ->). done.
Qed.

(** The network location of a url that starts with [http://] or
    [https://]. *)
Lemma netloc_http checked (secure : bool) (tail : string) :
  netloc checked ((if secure then "https://" else "http://") +:+ tail)
  = let n := until_delim (remove_unsafe tail) in
    if xorb (has_char "[" n) (has_char "]" n) then Err Py.ValueError
    else if (has_char "[" n || negb (all_chars is_ascii n)) && negb (checked n)
    then Err Py.ValueError
    else Ok n.
Proof.
  unfold netloc.
  assert (E : remove_unsafe
                (lstrip ((if secure then "https://" else "http://") +:+ tail))
              = (if secure then "https://" else "http://") +:+ remove_unsafe tail)
    by (by destruct secure).
  rewrite E. clear E. generalize (remove_unsafe tail). clear tail. intros tail.
  destruct secure.
  - change ("https://" +:+ tail) with
      (String "h" (String "t" (String "t" (String "p" (String "s" (String ":"
         (String "/" (String "/" tail)))))))).
    cbn.
    repeat match goal with
    | |- context [if ?b then String "/" ?x else ?y] =>
        change (if b then String "/" x else y) with (String "/" x)
    end.
    cbn. by rewrite prefix_empty.
  - change ("http://" +:+ tail) with
      (String "h" (String "t" (String "t" (String "p" (String ":"
         (String "/" (String "/" tail))))))).
    cbn.
    repeat match goal with
    | |- context [if ?b then String "/" ?x else ?y] =>
        change (if b then String "/" x else y) with (String "/" x)
    end.
    cbn. by rewrite prefix_empty.
Qed.

(** X8. A url is restricted by the end of its network location alone:
    an http or https url whose host merely ends in [archive.org] is
    restricted, whatever stands in front (there is no dot boundary) and
    whatever the checks of the library would say of other network
    locations, and a url of any other scheme never is. *)
Theorem restricted_by_suffix_only (checked : string → bool) (host path : string) :
  all_chars is_scheme_char host = true →
  restricted_domains_contain checked
    ("http://" +:+ host +:+ "archive.org/" +:+ path) = Ok true
  ∧ restricted_domains_contain checked
      ("https://" +:+ host +:+ "archive.org/" +:+ path) = Ok true
  ∧ netloc checked ("http://" +:+ host +:+ "archive.org/" +:+ path)
    = Ok (host +:+ "archive.org")
  ∧ (∀ url, Py.startswith "http" url = false →
       restricted_domains_contain checked url = Ok false).
Proof.
  intros Hh.
  assert (Hn : ∀ secure : bool,
            netloc checked ((if secure then "https://" else "http://")
                            +:+ host +:+ "archive.org/" +:+ path)
            = Ok (host +:+ "archive.org")).
  { intros secure. rewrite netloc_http. cbv zeta.
    rewrite remove_unsafe_app, remove_unsafe_scheme_chars by done.
    assert (until_delim (host +:+ remove_unsafe ("archive.org/" +:+ path))
            = host +:+ "archive.org") as ->.
    { by rewrite until_delim_app by done. }
    destruct (scheme_chars_plain _ Hh) as (Ho & Hc & Ha).
    rewrite !has_char_app, all_chars_app, Ho, Hc, Ha. done. }
  split_and!.
  - unfold restricted_domains_contain.
    assert (Py.startswith "http" ("http://" +:+ host +:+ "archive.org/" +:+ path)
            = true) as -> by done.
    cbn [negb]. rewrite (Hn false).
    cbn [restricted_domains existsb]. by rewrite endswith_app.
  - unfold restricted_domains_contain.
    assert (Py.startswith "http" ("https://" +:+ host +:+ "archive.org/" +:+ path)
            = true) as -> by done.
    cbn [negb]. rewrite (Hn true).
    cbn [restricted_domains existsb]. by rewrite endswith_app.
  - apply (Hn false).
  - unfold restricted_domains_contain. by intros url ->.
Qed.

Lemma restricted_by_suffix_only_witness :
  restricted_domains_contain (λ _, false)
    ("http://" +:+ "not" +:+ "archive.org/" +:+ "f.zip") = Ok true.
Proof. apply (restricted_by_suffix_only (λ _, false) "not" "f.zip"). reflexivity. Defined.

End ListsFacts.

(** ** The url setter and the checksum *)

Module SourceOpsFacts.

Import Source File SourceOps StringFacts.

(** X9. The [url] setter of the user and the cache source stores a url
    that starts with [file://], and setting the stored url again
    changes nothing; after setting a plain path, [available] tests
    exactly that path. *)
Theorem url_setter_puts_scheme (s : Source.t) (path : string) (files : gset string) :
  cls s = SourceUser ∨ cls s = SourceCache →
  Py.startswith "file://" (Source.url (set_url path s)) = true
  ∧ set_url (Source.url (set_url path s)) (set_url path s) = set_url path s
  ∧ (Py.startswith "file://" path = false →
     Source.available files (set_url path s)
     = if bool_decide (path ∈ files) then AvTrue else AvFalse).
Proof.
  intros Hc.
  assert (Hu : Source.url (set_url path s)
               = if Py.startswith "file://" path then path else "file://" +:+ path).
  { unfold set_url, Source.url. destruct Hc as [-> | ->]; done. }
  assert (Hp : Py.startswith "file://" (Source.url (set_url path s)) = true).
  { rewrite Hu. destruct (Py.startswith "file://" path) eqn:E; [done|].
    apply startswith_file_app. }
  split_and!; [done| |].
  - unfold set_url, Source.url.
    cbn [cls _url source_id _available _speed error error_code _temporary connected].
    destruct Hc as [-> | ->];
      (destruct (Py.startswith "file://" path) eqn:E;
       [by rewrite E | by rewrite startswith_file_app]).
  - intros Hn. unfold Source.available.
    replace (cls (set_url path s)) with (cls s) by done.
    rewrite Hu, Hn.
    change (Py.drop 7 ("file://" +:+ path)) with path.
    destruct Hc as [-> | ->]; done.
Qed.

Lemma url_setter_puts_scheme_witness :
  Source.available {["/games/f.zip"]}
    (set_url "/games/f.zip" (Source.new SourceUser "user" "N/A" false))
  = AvTrue.
Proof.
  destruct (url_setter_puts_scheme (Source.new SourceUser "user" "N/A" false)
              "/games/f.zip" {["/games/f.zip"]} (or_introl eq_refl))
    as (_ & _ & H).
  rewrite H by reflexivity.
  rewrite bool_decide_eq_true_2 by set_solver. reflexivity.
Defined.

Lemma split_checksum_app (t h : string) :
  String.index 0 ":" t = None → split_checksum (t +:+ ":" +:+ h) = Some (t, h).
Proof.
  intros Hi. unfold split_checksum. rewrite index_colon_app by done.
  rewrite substring_length_app.
  f_equal. f_equal.
  clear Hi. induction t as [|c t IH]; [done|]. exact IH.
Qed.

Lemma raise_ScriptingError {A} :
  @raise_named A "ScriptingError" Py.ScriptingError = Err Py.NameError.
Proof. reflexivity. Qed.

(** X10. [check_hash] returns silently without a checksum or a
    destination, and when the hash of the type before the first colon
    equals what follows it. Every other call ends in NameError, never
    in ScriptingError: the module does not import that name. *)
Theorem check_hash_never_ScriptingError
    (get_file_checksum : string → string → string)
    (checksum dest_file : option string) :
  (check_hash get_file_checksum checksum dest_file = Ok ()
   ∨ check_hash get_file_checksum checksum dest_file = Err Py.NameError)
  ∧ (check_hash get_file_checksum checksum dest_file = Ok () ↔
     Py.truthy_ostr checksum = false ∨ Py.truthy_ostr dest_file = false
     ∨ ∃ hash_type expected_hash,
         (checksum ≫= split_checksum) = Some (hash_type, expected_hash)
         ∧ get_file_checksum (default "" dest_file) hash_type = expected_hash)
  ∧ (∀ hash_type expected_hash dest,
       String.index 0 ":" hash_type = None → dest ≠ "" →
       check_hash get_file_checksum
         (Some (hash_type +:+ ":" +:+ expected_hash)) (Some dest)
       = if bool_decide (get_file_checksum dest hash_type = expected_hash)
         then Ok () else Err Py.NameError).
Proof.
  split_and!.
  - unfold check_hash. rewrite !raise_ScriptingError.
    repeat case_match; auto.
  - unfold check_hash. rewrite !raise_ScriptingError.
    destruct checksum as [c|], dest_file as [d|]; cbn; [|naive_solver..].
    destruct (Py.truthy_str c) eqn:Ec; cbn; [|naive_solver].
    destruct (Py.truthy_str d) eqn:Ed; cbn; [|naive_solver].
    destruct (split_checksum c) as [[t h]|]; cbn.
    + case_bool_decide; cbn; [naive_solver|].
      split; [done|]. intros [?|[?|(? & ? & ? & ?)]]; simplify_eq.
    + split; [done|]. intros [?|[?|(? & ? & ? & ?)]]; simplify_eq.
  - intros t h d Hi Hd. unfold check_hash.
    rewrite split_checksum_app, !raise_ScriptingError by done.
    assert (Py.truthy_str (t +:+ ":" +:+ h) = true) as ->.
    { unfold Py.truthy_str. rewrite bool_decide_eq_false_2; [done|].
      by destruct t. }
    assert (Py.truthy_str d = true) as ->.
    { unfold Py.truthy_str. by rewrite bool_decide_eq_false_2. }
    cbn. by case_bool_decide.
Qed.

Lemma check_hash_never_ScriptingError_witness :
  check_hash (λ _ _, "0f") (Some ("md5" +:+ ":" +:+ "ff")) (Some "/tmp/f.zip")
  = Err Py.NameError.
Proof.
  destruct (check_hash_never_ScriptingError (λ _ _, "0f") None None) as (_ & _ & H).
  rewrite (H "md5" "ff" "/tmp/f.zip") by done. reflexivity.
Defined.

End SourceOpsFacts.

(** ** Providers, speeds, construction and destination *)

Module FileOpsFacts.

Import Source File FileOps FileFacts StringFacts.

Lemma float_eq_real (a : PyFloat) (m : Z) : float_eq a m = true ↔ a = Real m.
Proof.
  destruct a as [x|]; cbn; [|done]. case_bool_decide; naive_solver.
Qed.

Lemma elem_of_measurements self v :
  v ∈ measurements self ↔
  float_eq v 0 = false ∧ ∃ s, s ∈ sources self ∧ Source.speed s = SpBytes v.
Proof.
  unfold measurements. rewrite list_elem_of_omap. split.
  - intros (sp & (s & -> & Hs)%list_elem_of_fmap & Hv).
    destruct (Source.speed s) as [| |z] eqn:E; try done.
    cbn in Hv. destruct (float_eq z 0) eqn:Hz; simplify_eq/=. eauto.
  - intros (Hv & s & Hs & E). exists (SpBytes v). split.
    + apply list_elem_of_fmap. eauto.
    + cbn. by rewrite Hv.
Qed.

Lemma measurements_first self first rest :
  measurements self = first :: rest →
  ∃ r s, sources self !! r = Some s ∧ Source.speed s = SpBytes first
    ∧ ∀ r' s', r' < r → sources self !! r' = Some s' →
        is_measurement (Source.speed s') = false.
Proof.
  unfold measurements. induction (sources self) as [|x l IH]; [done|].
  cbn [fmap list_fmap omap list_omap].
  destruct (Source.speed x) as [| |z] eqn:E.
  - intros (r & s & Hl & Hs & Hfirst)%IH. exists (S r), s. split_and!; try done.
    intros [|r'] s' Hlt Hl'; simplify_eq/=; [by rewrite E|]. eapply Hfirst; [|done]. lia.
  - intros (r & s & Hl & Hs & Hfirst)%IH. exists (S r), s. split_and!; try done.
    intros [|r'] s' Hlt Hl'; simplify_eq/=; [by rewrite E|]. eapply Hfirst; [|done]. lia.
  - destruct (is_measurement (SpBytes z)) eqn:Hz.
    + intros [= <- <-]. exists 0, x. split_and!; try done. intros; lia.
    + intros (r & s & Hl & Hs & Hfirst)%IH. exists (S r), s. split_and!; try done.
      intros [|r'] s' Hlt Hl'; simplify_eq/=; [by rewrite E|]. eapply Hfirst; [|done]. lia.
Qed.

Lemma py_max_nan rest : py_max NaN rest = NaN.
Proof. unfold py_max. induction rest as [|x rest IH]; [done|]. cbn. by destruct x. Qed.

Lemma py_max_real (first : Z) rest :
  ∃ m : Z, py_max first rest = Real m
    ∧ Real m ∈ Real first :: rest
    ∧ ∀ v : Z, Real v ∈ Real first :: rest → (v ≤ m)%Z.
Proof.
  unfold py_max. revert first. induction rest as [|x rest IH]; intros first; cbn [foldl].
  - exists first. split_and!; [done|apply elem_of_cons; by left|].
    intros v [= ->]%list_elem_of_singleton. lia.
  - destruct x as [x|]; cbn [float_gt].
    + case_bool_decide as Hlt.
      * destruct (IH x) as (m & -> & Hin & Hle). exists m. split_and!; [done| |].
        { apply elem_of_cons. by right. }
        intros v Hv. rewrite !elem_of_cons in Hv.
        destruct Hv as [[= ->]|[[= ->]|Hv]].
        -- etrans; [|apply Hle, elem_of_cons; by left]. lia.
        -- apply Hle, elem_of_cons; by left.
        -- apply Hle, elem_of_cons; by right.
      * destruct (IH first) as (m & -> & Hin & Hle). exists m. split_and!; [done| |].
        { apply elem_of_cons in Hin as [Hin|Hin]; apply elem_of_cons;
          [by left|right; apply elem_of_cons; by right]. }
        intros v Hv. rewrite !elem_of_cons in Hv.
        destruct Hv as [[= ->]|[[= ->]|Hv]].
        -- apply Hle, elem_of_cons; by left.
        -- etrans; [|apply Hle, elem_of_cons; by left]. lia.
        -- apply Hle, elem_of_cons; by right.
    + destruct (IH first) as (m & -> & Hin & Hle). exists m. split_and!; [done| |].
      { apply elem_of_cons in Hin as [Hin|Hin]; apply elem_of_cons;
          [by left|right; apply elem_of_cons; by right]. }
      intros v Hv. rewrite !elem_of_cons in Hv.
      destruct Hv as [[= ->]|[[=]|Hv]].
      -- apply Hle, elem_of_cons; by left.
      -- apply Hle, elem_of_cons; by right.
Qed.

Lemma filter_enumerate_first (P : nat * Source.t → Prop) `{∀ x, Decision (P x)}
    i l r s rest :
  filter P (enumerate_from i l) = (r, s) :: rest →
  (i ≤ r)%nat ∧ l !! (r - i) = Some s ∧ P (r, s)
  ∧ ∀ r' s', (i ≤ r')%nat → r' < r → l !! (r' - i) = Some s' → ¬ P (r', s').
Proof.
  revert i. induction l as [|x l IH]; intros i; [done|].
  simpl enumerate_from. rewrite filter_cons. case_decide as HP.
  - intros [= <- <- <-]. replace (i - i) with 0 by lia. split_and!; try done.
    intros; lia.
  - intros (Hi & Hl & HPr & Hfirst)%IH. split_and!; [lia| |done|].
    + replace (r - i) with (S (r - S i)) by lia. done.
    + intros r' s' Hr' Hlt Hl'. destruct (decide (r' = i)) as [->|Hne].
      * replace (i - i) with 0 in Hl' by lia. by simplify_eq/=.
      * apply Hfirst; [lia|lia|].
        replace (r' - i) with (S (r' - S i)) in Hl' by lia. done.
Qed.

Lemma filter_enumerate_nil (P : nat * Source.t → Prop) `{∀ x, Decision (P x)} i l :
  filter P (enumerate_from i l) = [] → ∀ k s, l !! k = Some s → ¬ P (i + k, s).
Proof.
  revert i. induction l as [|x l IH]; intros i; [done|].
  simpl enumerate_from. rewrite filter_cons. case_decide as HP; [done|].
  intros Hf [|k] s Hl; simplify_eq/=.
  - by replace (i + 0) with i by lia.
  - replace (i + S k) with (S i + k) by lia. by eapply IH.
Qed.

(** X11. [speed_fastest] looks at the speeds that are neither [None]
    nor [False] nor zero, in the order of the sources. Without one it
    answers [None]. When the first of them is a number, it gives the url
    and the speed of the first source whose speed is the greatest of
    the numbers among them; a not-a-number among the later ones is
    passed over. When the first of them is not-a-number, [max] keeps it,
    no speed equals it, and the property raises IndexError. *)
Theorem speed_fastest_is_maximum (self : File.t) :
  match speed_fastest self with
  | Ok None =>
      ∀ s v, s ∈ sources self → Source.speed s = SpBytes v → v = Real 0
  | Ok (Some (u, sp)) =>
      ∃ r s (m : Z),
        sources self !! r = Some s ∧ u = Source.url s ∧ sp = SpBytes (Real m)
        ∧ Source.speed s = SpBytes (Real m) ∧ m ≠ 0%Z
        ∧ (∀ s' (v : Z), s' ∈ sources self → Source.speed s' = SpBytes (Real v) →
             v ≠ 0%Z → (v ≤ m)%Z)
        ∧ (∀ r' s', r' < r → sources self !! r' = Some s' →
             Source.speed s' ≠ SpBytes (Real m))
        ∧ (∀ k s', sources self !! k = Some s' → Source.speed s' = SpBytes NaN →
             ∃ k' s'', k' < k ∧ sources self !! k' = Some s''
               ∧ is_measurement (Source.speed s'') = true)
  | Err e =>
      e = Py.IndexError
      ∧ ∃ r s, sources self !! r = Some s ∧ Source.speed s = SpBytes NaN
          ∧ ∀ r' s', r' < r → sources self !! r' = Some s' →
              is_measurement (Source.speed s') = false
  end.
Proof.
  unfold speed_fastest.
  destruct (measurements self) as [|first rest] eqn:Hm.
  - intros s v Hs Hv. destruct (float_eq v 0) eqn:Hz; [by apply float_eq_real in Hz|].
    assert (v ∈ measurements self) as Hin by (apply elem_of_measurements; eauto).
    rewrite Hm in Hin. by apply elem_of_nil in Hin.
  - destruct (measurements_first _ _ _ Hm) as (r0 & s0 & Hl0 & Hsp0 & Hfirst0).
    destruct first as [first|].
    + destruct (py_max_real first rest) as (m & -> & Hin & Hle).
      rewrite <- Hm in Hin, Hle.
      apply elem_of_measurements in Hin as (Hm0 & s1 & Hs1 & Hsp1).
      assert (Heq : ∀ s, speed_equals (Source.speed s) m = true
                         ↔ Source.speed s = SpBytes (Real m)).
      { intros s. destruct (Source.speed s) as [| |v]; cbn [speed_equals]; [done| |].
        - split; [|done]. intros [= <-]%float_eq_real. by cbn in Hm0.
        - rewrite float_eq_real. naive_solver. }
      destruct (filter _ (enumerate self)) as [|[r s] l] eqn:Hf.
      * apply list_elem_of_lookup in Hs1 as [k Hk].
        eapply filter_enumerate_nil in Hf; [|exact Hk]. cbn in Hf.
        exfalso. by apply Hf, Heq.
      * apply filter_enumerate_first in Hf as (_ & Hl & HP & Hfirst). cbn in HP.
        replace (r - 0) with r in Hl by lia.
        apply Heq in HP. exists r, s, m. split_and!; try done.
        -- intros ->. by cbn in Hm0; case_bool_decide.
        -- intros s' v Hs' Hv Hne. apply Hle, elem_of_measurements. split; [|eauto].
           cbn. by apply bool_decide_eq_false_2; intros [= ->].
        -- intros r' s' Hlt Hl' Hsp. apply (Hfirst r' s'); [lia|done| |].
           { by replace (r' - 0) with r' by lia. }
           cbn. by apply Heq.
        -- intros k s' Hk Hnan. exists r0, s0. split_and!; [|done|].
           2:{ rewrite Hsp0. cbn [is_measurement].
               assert (Real first ∈ measurements self) as Hin0
                 by (rewrite Hm; apply elem_of_cons; by left).
               apply elem_of_measurements in Hin0 as [-> _]. done. }
           destruct (decide (r0 < k)) as [|Hge]; [done|].
           destruct (decide (k = r0)) as [Hk0|Hne];
             [exfalso; rewrite Hk0, Hl0 in Hk; congruence|].
           assert (k < r0) as Hlt by lia.
           specialize (Hfirst0 k s' Hlt Hk). by rewrite Hnan in Hfirst0.
    + rewrite py_max_nan.
      assert (filter (λ rs : nat * Source.t, speed_equals (Source.speed rs.2) NaN = true)
                     (enumerate self) = []) as ->.
      { induction (enumerate self) as [|[k s] l IH]; [done|].
        rewrite filter_cons, IH. cbn. case_decide as HP; [|done].
        by destruct (Source.speed s) as [| |[v|]]. }
      split; [done|]. exists r0, s0. done.
Qed.

Example speed_fastest_raises :
  let slow := Source.set_speed (SpBytes NaN) (Source.new SourceDownload "a" "http://a.test/f.zip" false) in
  let fast := Source.set_speed (SpBytes 7) (Source.new SourceDownload "b" "http://b.test/f.zip" false) in
  speed_fastest (set_sources [slow; fast] two_mirrors_file) = Err Py.IndexError
  ∧ ∃ u, speed_fastest (set_sources [fast; slow] two_mirrors_file) = Ok (Some (u, SpBytes 7)).
Proof. split; [done|]. by eexists. Qed.

Lemma by_class_elem_of c self r s :
  (r, s) ∈ get_sources_by_class c self ↔ sources self !! r = Some s ∧ cls s = c.
Proof.
  unfold get_sources_by_class. rewrite list_elem_of_filter, elem_of_enumerate.
  cbn. tauto.
Qed.

Lemma by_class_nonempty c self r s :
  sources self !! r = Some s → cls s = c →
  0 < length (get_sources_by_class c self).
Proof.
  intros Hl Hc.
  assert (Hin : (r, s) ∈ get_sources_by_class c self) by (by apply by_class_elem_of).
  destruct (get_sources_by_class c self); [by apply elem_of_nil in Hin|cbn; lia].
Qed.

Lemma wf_cache_class self r s :
  wf self → sources self !! r = Some s → cls s = SourceCache →
  ∃ c s', cache_source self = Some c ∧ sources self !! c = Some s'
          ∧ cls s' = SourceCache.
Proof.
  intros Hwf Hl Hc. pose proof (by_class_nonempty _ _ _ _ Hl Hc) as Hn.
  rewrite (wf_cache _ Hwf).
  destruct (get_sources_by_class SourceCache self) as [|[c s'] rest] eqn:E;
    [cbn in Hn; lia|].
  apply by_class_lookup in E as [? ?]. exists c, s'. done.
Qed.

Lemma wf_cache_ref self c :
  wf self → cache_source self = Some c →
  ∃ s, sources self !! c = Some s ∧ cls s = SourceCache.
Proof.
  intros Hwf Hc. rewrite (wf_cache _ Hwf) in Hc.
  apply first_ref_Some in Hc as (s & rest & E).
  apply by_class_lookup in E. eauto.
Qed.

Lemma wf_user_ref self :
  wf self → ∃ u s, _user_source self = Some u ∧ sources self !! u = Some s
                   ∧ cls s = SourceUser.
Proof.
  intros Hwf. destruct (wf_has_user _ Hwf) as [u Hu]. exists u.
  pose proof Hu as Hu'. rewrite (wf_user _ Hwf) in Hu'.
  apply first_ref_Some in Hu' as (s & rest & E).
  apply by_class_lookup in E as [? ?]. eauto.
Qed.

Lemma default_provider_of_class self r s :
  active_source self = Some r → sources self !! r = Some s →
  default_provider self
  = Ok (match cls s with
        | SourceCache => "pga" | SourceSteam => "steam"
        | SourceUser => "user" | SourceDownload => "download"
        end).
Proof.
  intros Ha Hl. unfold default_provider.
  assert (Hc : active_class self = Some (cls s)).
  { unfold active_class. rewrite Ha. cbn. by rewrite Hl. }
  rewrite Hc.
  destruct (cls s) eqn:E; repeat case_bool_decide; simplify_eq; try done.
  unfold is_downloadable.
  rewrite bool_decide_eq_true_2; [done|]. by eapply by_class_nonempty.
Qed.

(** X12. On a file that keeps the invariants of the data model and
    has an active source, [default_provider] does not raise and answers
    one of [providers]. *)
Theorem default_provider_is_a_provider (self : File.t) :
  wf self → has_active self →
  ∃ p, default_provider self = Ok p ∧ p ∈ providers self.
Proof.
  intros Hwf (r & s & Ha & Hl).
  rewrite (default_provider_of_class _ _ _ Ha Hl). eexists; split; [done|].
  unfold providers. rewrite !elem_of_union.
  destruct (cls s) eqn:E.
  - left; left; left. rewrite bool_decide_eq_true_2; [by apply elem_of_singleton|].
    by eapply by_class_nonempty.
  - right. unfold is_downloadable.
    rewrite bool_decide_eq_true_2; [by apply elem_of_singleton|].
    by eapply by_class_nonempty.
  - left; right. by apply elem_of_singleton.
  - left; left; right.
    destruct (wf_cache_class _ _ _ Hwf Hl E) as (c & s' & Hc & Hl' & E').
    rewrite Hc. cbn. rewrite Hl'. cbn. rewrite E'.
    rewrite bool_decide_eq_true_2 by done. by apply elem_of_singleton.
Qed.

Lemma default_provider_is_a_provider_witness :
  ∃ p, default_provider cached_file = Ok p ∧ p ∈ providers cached_file.
Proof.
  apply (default_provider_is_a_provider cached_file).
  - apply cached_file_wf.
  - exists 0, (Source.connect (Source.new SourceDownload "a" "http://a.test/f.zip" false)).
    split; reflexivity.
Defined.

Lemma select_ref_state w depth r s self :
  wf self → sources self !! r = Some s →
  let self' := state_of (select_ref w (S depth) (Some r) self) in
  active_source self' = Some r ∧ sources self' = sources self.
Proof.
  intros Hwf Hl self'.
  assert (Hs : self' = state_of (select_source w (S depth) (source_id s) self)).
  { unfold self', select_ref. cbn [mbind option_bind]. rewrite Hl.
    by destruct (select_source w (S depth) (source_id s) self). }
  rewrite Hs. split.
  - apply select_source_owned; [apply Hwf| |done|apply Hwf].
    pose proof (wf_reserved _ Hwf) as Hr.
    rewrite Forall_lookup in Hr. by apply (Hr r s).
  - pose proof (select_source_frame w (S depth) (source_id s) self) as Hf.
    by apply frame_eq in Hf as (? & _).
Qed.

(** X13. Changing to one of the [providers] of a file makes it the
    [default_provider], whether or not the selection raises afterwards
    in its log line, and leaves the sources as they are; for
    ["download"] the first valid download source must have been
    recorded. *)
Theorem change_provider_selects (w : World) (depth : nat) (p : string)
    (self : File.t) :
  wf self → p ∈ providers self →
  (p = "download" →
   ∃ r s, _first_valid_download_source self = Some r
          ∧ sources self !! r = Some s ∧ cls s = SourceDownload) →
  default_provider (state_of (change_provider w (S depth) p self)) = Ok p
  ∧ sources (state_of (change_provider w (S depth) p self)) = sources self.
Proof.
  intros Hwf Hp Hd.
  assert (Hsel : ∀ r s, sources self !! r = Some s →
            default_provider (state_of (select_ref w (S depth) (Some r) self))
            = Ok (match cls s with
                  | SourceCache => "pga" | SourceSteam => "steam"
                  | SourceUser => "user" | SourceDownload => "download"
                  end)
            ∧ sources (state_of (select_ref w (S depth) (Some r) self)) = sources self).
  { intros r s Hl. destruct (select_ref_state w depth r s self Hwf Hl) as [Ha Hs].
    split; [|done]. apply (default_provider_of_class _ r s); [done|]. by rewrite Hs. }
  unfold providers in Hp. rewrite !elem_of_union in Hp.
  destruct Hp as [[[Hp|Hp]|Hp]|Hp].
  - case_bool_decide as Hn; [|by apply elem_of_empty in Hp].
    apply elem_of_singleton in Hp as ->.
    unfold change_provider. rewrite bool_decide_eq_false_2 by done.
    rewrite bool_decide_eq_true_2 by done.
    destruct (get_sources_by_class SourceSteam self) as [|[r s] rest] eqn:E;
      [cbn in Hn; lia|].
    apply by_class_lookup in E as [Hl Hc].
    destruct (Hsel r s Hl) as [H1 H2]. by rewrite Hc in H1.
  - case_bool_decide as Hn; [|by apply elem_of_empty in Hp].
    apply elem_of_singleton in Hp as ->.
    unfold change_provider. rewrite !bool_decide_eq_false_2 by done.
    rewrite bool_decide_eq_true_2 by done.
    destruct (cache_source self) as [c|] eqn:Hc; [|done].
    destruct (wf_cache_ref _ _ Hwf Hc) as (s & Hl & Hcls).
    rewrite bool_decide_eq_true_2 by done.
    destruct (Hsel c s Hl) as [H1 H2]. by rewrite Hcls in H1.
  - apply elem_of_singleton in Hp as ->.
    unfold change_provider. rewrite !bool_decide_eq_false_2 by done.
    rewrite bool_decide_eq_true_2 by done.
    destruct (wf_user_ref _ Hwf) as (u & s & -> & Hl & Hcls).
    destruct (Hsel u s Hl) as [H1 H2]. by rewrite Hcls in H1.
  - destruct (is_downloadable self); [|by apply elem_of_empty in Hp].
    apply elem_of_singleton in Hp as ->.
    destruct (Hd eq_refl) as (r & s & Hf & Hl & Hcls).
    unfold change_provider. rewrite bool_decide_eq_true_2 by done.
    rewrite Hf. destruct (Hsel r s Hl) as [H1 H2]. by rewrite Hcls in H1.
Qed.

Lemma change_provider_selects_witness :
  default_provider (state_of (change_provider example_world 1 "pga" cached_file))
  = Ok "pga".
Proof.
  refine (proj1 (change_provider_selects example_world 0 "pga" cached_file
                   cached_file_wf _ _)).
  - unfold providers. rewrite !elem_of_union. left; left; right. reflexivity.
  - discriminate.
Defined.

Lemma filename_single_source w self :
  length (sources self) = 1 → _multiple_sources self = false →
  filename w self = Err Py.NameError.
Proof.
  intros Hl Hm. unfold filename. destruct (sources self) as [|s l] eqn:Hs; [done|].
  rewrite Hm. rewrite bool_decide_eq_true_2 by done.
  unfold uses_pga_cache, has_no_sources. rewrite Hs.
  rewrite bool_decide_eq_true_2 by done. reflexivity.
Qed.

Lemma select_single_never_returns w depth x self r self' :
  active_source self = None → length (sources self) = 1 →
  _multiple_sources self = false →
  select_source w depth x self ≠ Return r self'.
Proof.
  revert x self. induction depth as [|depth IH]; intros x self Ha Hl Hm; [done|].
  simpl. rewrite Ha.
  repeat case_match; try done; try (by apply IH).
  rewrite filename_single_source in *; done.
Qed.

Lemma read_sources_multiple w file_meta srcs name multiple :
  _read_sources_from_file w file_meta = Ok (srcs, name, multiple) →
  multiple = bool_decide (1 < length (filter (λ s, cls s ≠ SourceUser) srcs)).
Proof.
  unfold _read_sources_from_file.
  destruct (match file_meta with MetaUrl _ => _ | MetaDict _ => _ end)
    as [[l n]|]; [|done].
  simpl. unfold uses_pga_cache. simpl.
  destruct (has_valid_custom_cache_path w); [done|]. simpl.
  by intros [= <- _ <-].
Qed.

(** X14. An object that [__init__] returns owns at least two sources,
    among them the user source [_user_source] refers to, and no cache
    source. A file whose only source is the user's (a url [N/A]), and
    any file under a valid custom cache path, does not get through
    [__init__]. *)
Theorem construction_needs_two_sources (w : World) (depth : nat)
    (game_slug file_id : string) (file_meta : FileMeta) (self : File.t) :
  __init__ w depth game_slug file_id file_meta = Ok self →
  1 < length (sources self)
  ∧ (∃ u s, _user_source self = Some u ∧ sources self !! u = Some s
            ∧ cls s = SourceUser)
  ∧ cache_source self = None
  ∧ Forall (λ s, cls s ≠ SourceCache) (sources self)
  ∧ has_valid_custom_cache_path w = false
  ∧ (∀ url, file_meta = MetaUrl url → Py.startswith "N/A" url = false).
Proof.
  unfold __init__.
  destruct (_read_sources_from_file w file_meta) as [[[srcs name] multiple]|] eqn:Hread;
    [|done].
  simpl. destruct (filter _ _) as [|[user su] rest] eqn:Huser; [done|].
  destruct (select_source _ _ _ _) as [r self'|] eqn:Hsel; [|done].
  intros [= ->].
  match type of Hsel with
  | select_source _ _ _ ?st = _ =>
      pose proof (select_source_frame w depth "|init" st) as Hf;
      pose proof (select_single_never_returns w depth "|init" st r self eq_refl) as Hne
  end.
  rewrite Hsel in Hf. apply frame_eq in Hf as (Hsrc & Hc & Hus). simpl in *.
  apply (by_class_lookup SourceUser
           {| game_slug := game_slug; id := replace_dash file_id; _filename := name;
              _multiple_sources := multiple; _url_override := None; sources := srcs;
              _user_source := None; cache_source := None; active_source := None;
              _first_valid_download_source := None; _dest_file_override := None;
              _dest_file_found := None |}) in Huser as [Hu Hcu]. simpl in Hu.
  assert (Hlen : 1 < length srcs).
  { destruct (decide (1 < length srcs)) as [|Hn]; [done|]. exfalso.
    apply Hne; [| |done].
    - apply lookup_lt_Some in Hu. lia.
    - rewrite (read_sources_multiple _ _ _ _ _ Hread).
      apply bool_decide_eq_false_2.
      pose proof (length_filter (λ s, cls s ≠ SourceUser) srcs). lia. }
  assert (Hw : has_valid_custom_cache_path w = false).
  { revert Hread. unfold _read_sources_from_file.
    destruct (match file_meta with MetaUrl _ => _ | MetaDict _ => _ end)
      as [[l n]|]; [|done].
    simpl. unfold uses_pga_cache. simpl.
    by destruct (has_valid_custom_cache_path w). }
  rewrite Hsrc, Hus, Hc. split_and!; try done.
  - by exists user, su.
  - by eapply read_sources_not_cache.
  - intros url -> . destruct (Py.startswith "N/A" url) eqn:Hna; [exfalso|done].
    revert Hread. unfold _read_sources_from_file, _new_source.
    rewrite (startswith_NA _ Hna), Hna. simpl. unfold uses_pga_cache. simpl.
    rewrite Hw. simpl. intros [= <- _ _]. simpl in Hlen. lia.
Qed.

Lemma construction_needs_two_sources_witness :
  1 < length (sources two_mirrors_file)
  ∧ (∃ u s, _user_source two_mirrors_file = Some u
            ∧ sources two_mirrors_file !! u = Some s ∧ cls s = SourceUser)
  ∧ cache_source two_mirrors_file = None
  ∧ Forall (λ s, cls s ≠ SourceCache) (sources two_mirrors_file)
  ∧ has_valid_custom_cache_path example_world = false
  ∧ (∀ url, two_mirrors = MetaUrl url → Py.startswith "N/A" url = false).
Proof.
  apply (construction_needs_two_sources example_world 3 "game" "file" two_mirrors).
  reflexivity.
Defined.

Lemma frame_dest a b :
  frame a = frame b →
  _dest_file_override a = _dest_file_override b
  ∧ _dest_file_found a = _dest_file_found b.
Proof. unfold frame. by intros [= _ _ _ _ _ _ _ -> ->]. Qed.

Lemma dest_file_kept w self p :
  (Py.truthy_ostr (_dest_file_override self) = true
   ∧ default "" (_dest_file_override self) = p)
  ∨ (Py.truthy_ostr (_dest_file_override self) = false
     ∧ Py.truthy_ostr (_dest_file_found self) = true
     ∧ default "" (_dest_file_found self) = p) →
  dest_file w self = Return p self.
Proof.
  unfold dest_file. intros [[-> <-]|(-> & -> & <-)]; done.
Qed.

(** X15. Once [dest_file] has answered a path that is not empty, it
    answers the same path from then on: on another file system, after
    any later [select_source], and under any url override. *)
Theorem dest_file_is_sticky (w : World) (self self' : File.t) (p : string) :
  dest_file w self = Return p self' → p ≠ "" →
  (∀ w', dest_file w' self' = Return p self')
  ∧ (∀ w' depth source_id,
       dest_file w' (state_of (select_source w' depth source_id self'))
       = Return p (state_of (select_source w' depth source_id self')))
  ∧ (∀ w' url,
       dest_file w' (url_override url self') = Return p (url_override url self')).
Proof.
  intros Hd Hp.
  assert (Hk : (Py.truthy_ostr (_dest_file_override self') = true
                ∧ default "" (_dest_file_override self') = p)
               ∨ (Py.truthy_ostr (_dest_file_override self') = false
                  ∧ Py.truthy_ostr (_dest_file_found self') = true
                  ∧ default "" (_dest_file_found self') = p)).
  { revert Hd. unfold dest_file.
    destruct (Py.truthy_ostr (_dest_file_override self)) eqn:Ho.
    { intros [= <- <-]. by left. }
    destruct (Py.truthy_ostr (_dest_file_found self)) eqn:Hf.
    { intros [= <- <-]. by right. }
    destruct (find_dest_file w self) as [q|]; [|done].
    intros [= <- <-]. right. simpl. split_and!; [done| |done].
    unfold Py.truthy_str. by rewrite bool_decide_eq_false_2. }
  split_and!.
  - intros w'. by apply dest_file_kept.
  - intros w' depth x. apply dest_file_kept.
    destruct (frame_dest _ _ (select_source_frame w' depth x self')) as [-> ->].
    done.
  - intros w' url. by apply dest_file_kept.
Qed.

Lemma dest_file_is_sticky_witness :
  dest_file example_world
    (state_of (select_source example_world 3 "b"
                 (state_of (dest_file example_world two_mirrors_file))))
  = Return "/home/user/.cache/lutris/installer/game/file/f.zip"
      (state_of (select_source example_world 3 "b"
                   (state_of (dest_file example_world two_mirrors_file)))).
Proof.
  apply (dest_file_is_sticky example_world two_mirrors_file
           (state_of (dest_file example_world two_mirrors_file))
           "/home/user/.cache/lutris/installer/game/file/f.zip");
    [reflexivity | discriminate].
Defined.

Lemma unique_id_normal self source_id :
  _unique_id (Some self) source_id None
  = Some (if Py.startswith "|" source_id || negb (Py.truthy_str source_id)
          then "source" else source_id).
Proof.
  unfold _unique_id. simpl. rewrite slice_1_0.
  destruct (Py.startswith "|" source_id); [done|]. simpl.
  by destruct (Py.truthy_str source_id).
Qed.

(** X16. [add_source] puts the source at the end and leaves every
    reference and the active, cache and user source as they are; the id
    it returns is never empty and never starts with the bar, and is the
    id given when that is so already. It raises, ValueError, only for a
    cache source when the file has one, and then changes nothing. *)
Theorem add_source_appends (source : Source.t) (self : File.t) :
  match add_source source self with
  | Return new_id self' =>
      sources self' = sources self ++ [Source.set_source_id new_id source]
      ∧ (∀ r s, sources self !! r = Some s → sources self' !! r = Some s)
      ∧ Py.startswith "|" new_id = false ∧ new_id ≠ ""
      ∧ (Py.startswith "|" (source_id source) = false → source_id source ≠ "" →
         new_id = source_id source)
      ∧ active_source self' = active_source self
      ∧ cache_source self' = cache_source self
      ∧ _user_source self' = _user_source self
  | Raise e self' =>
      e = Py.ValueError ∧ self' = self
      ∧ cls source = SourceCache ∧ is_Some (cache_source self)
  end.
Proof.
  unfold add_source. rewrite unique_id_normal.
  destruct (isinstance SourceCache source && _) eqn:Hc.
  - apply andb_prop in Hc as [Hi Hs]. unfold isinstance in Hi.
    apply bool_decide_eq_true in Hi. apply bool_decide_eq_true in Hs. done.
  - cbn [sources set_sources active_source cache_source _user_source].
    split_and!; try done.
    + intros r s Hl. by apply lookup_app_l_Some.
    + destruct (Py.startswith "|" (source_id source)) eqn:E; [done|].
      by destruct (Py.truthy_str (source_id source)).
    + destruct (Py.startswith "|" (source_id source)) eqn:E; [done|].
      unfold Py.truthy_str.
      destruct (decide (source_id source = "")) as [Heq|Hne];
        [rewrite bool_decide_eq_true_2 by done
        |rewrite bool_decide_eq_false_2 by done]; done.
    + intros -> Hn. unfold Py.truthy_str.
      by rewrite bool_decide_eq_false_2.
Qed.

(** X17. A file constructed with a Steam source has no first valid
    download source recorded: [change_provider("download")] raises
    AttributeError and leaves the object alone, although ["download"]
    is among its [providers] when it has a download source. *)
Theorem steam_file_cannot_change_to_download (w : World) (depth : nat)
    (game_slug file_id : string) (file_meta : FileMeta) (self : File.t) :
  __init__ w depth game_slug file_id file_meta = Ok self →
  get_sources_by_class SourceSteam self ≠ [] →
  _first_valid_download_source self = None
  ∧ (∀ w' depth', change_provider w' depth' "download" self
                  = Raise Py.AttributeError self)
  ∧ (is_downloadable self = true → "download" ∈ providers self).
Proof.
  unfold __init__.
  destruct (_read_sources_from_file w file_meta) as [[[srcs name] multiple]|] eqn:Hread;
    [|done].
  simpl. destruct (filter _ _) as [|[user su] rest] eqn:Huser; [done|].
  destruct (select_source _ _ _ _) as [r self'|] eqn:Hsel; [|done].
  intros [= ->] Hsteam.
  match type of Hsel with
  | select_source _ _ _ ?st = _ =>
      pose proof (select_source_frame w depth "|init" st) as Hf;
      pose proof (select_source_first_valid w depth "|init" st r self Hsel) as Hfirst
  end.
  rewrite Hsel in Hf. apply frame_eq in Hf as (Hsrc & Hc & Hus).
  destruct (sources_eq_accessors _ _ Hsrc) as (_ & Hcl & _ & _). simpl in *.
  assert (Hnone : _first_valid_download_source self = None).
  { apply Hfirst. intros f. unfold init_download. simpl.
    rewrite <- Hcl.
    destruct (get_sources_by_class SourceSteam self); [done|].
    by case_bool_decide. }
  split_and!; [done| |].
  - intros w' depth'. unfold change_provider, select_ref.
    rewrite bool_decide_eq_true_2 by done. by rewrite Hnone.
  - intros Hd. unfold providers. rewrite Hd. apply elem_of_union_r.
    by apply elem_of_singleton.
Qed.

Lemma steam_file_cannot_change_to_download_witness :
  _first_valid_download_source steam_and_mirror_file = None
  ∧ (∀ w' depth', change_provider w' depth' "download" steam_and_mirror_file
                  = Raise Py.AttributeError steam_and_mirror_file)
  ∧ (is_downloadable steam_and_mirror_file = true
     → "download" ∈ providers steam_and_mirror_file).
Proof.
  apply (steam_file_cannot_change_to_download example_world 3 "game" "file"
           steam_and_mirror); [reflexivity | discriminate].
Defined.

Lemma select_source_names_file w depth x self r self' :
  active_source self = None →
  select_source w depth x self = Return r self' →
  ∃ f, filename w self' = Ok f.
Proof.
  revert x self. induction depth as [|depth IH]; intros x self Ha; [done|].
  simpl. rewrite Ha.
  repeat case_match; try done; try (by apply IH).
  intros [= <- <-]. eauto.
Qed.

Lemma filename_Some w self f :
  filename w self = Ok f → sources self ≠ [] →
  ∃ name, f = Some name
          ∧ (_multiple_sources self = true → _filename self = Some name ∧ name ≠ "").
Proof.
  unfold filename. intros Hf Hs.
  destruct (sources self) as [|s l] eqn:E; [done|].
  destruct (_multiple_sources self).
  - destruct (_filename self) as [n|] eqn:En; [|done].
    unfold Py.truthy_ostr, Py.truthy_str in Hf.
    case_bool_decide; [done|]. simpl in Hf. injection Hf as <-. eauto.
  - revert Hf. unfold bind.
    repeat case_match; intros; simplify_eq; by eexists.
Qed.

(** X24. [filename] of a constructed file returns a name on the file
    system of its construction. A file with more than one source
    besides the user's has the [filename] of its dict, which is not
    empty: without one, [__init__] does not return. *)
Theorem constructed_file_has_filename (w : World) (depth : nat)
    (game_slug file_id : string) (file_meta : FileMeta) (self : File.t) :
  __init__ w depth game_slug file_id file_meta = Ok self →
  ∃ name,
    filename w self = Ok (Some name)
    ∧ (_multiple_sources self = true → _filename self = Some name ∧ name ≠ "")
    ∧ (∀ d, file_meta = MetaDict d → _filename self = meta_filename d)
    ∧ (∀ url, file_meta = MetaUrl url → _filename self = Some "").
Proof.
  unfold __init__.
  destruct (_read_sources_from_file w file_meta) as [[[srcs name] multiple]|] eqn:Hread;
    [|done].
  simpl. destruct (filter _ _) as [|[user su] rest] eqn:Huser; [done|].
  destruct (select_source _ _ _ _) as [r self'|] eqn:Hsel; [|done].
  intros [= ->].
  match type of Hsel with
  | select_source _ _ _ ?st = _ =>
      pose proof (select_source_frame w depth "|init" st) as Hf;
      pose proof (select_source_names_file w depth "|init" st r self eq_refl Hsel)
        as [f Hname]
  end.
  rewrite Hsel in Hf. simpl in Hf.
  assert (Hsrc : sources self = srcs) by (by injection Hf).
  assert (Hfn : _filename self = name) by (by injection Hf).
  destruct (filename_Some w self f Hname) as (n & -> & Hm).
  { rewrite Hsrc. intros ->. done. }
  exists n. split_and!; [done|done|..].
  - intros d ->. rewrite Hfn. revert Hread. unfold _read_sources_from_file.
    destruct (meta_top_url d).
    + destruct (_new_source _ _); [|done]. simpl.
      unfold uses_pga_cache. simpl.
      destruct (has_valid_custom_cache_path w); [done|]. simpl.
      by intros [= _ <- _].
    + destruct (read_items _ _ _); [|done]. simpl.
      unfold uses_pga_cache. simpl.
      destruct (has_valid_custom_cache_path w); [done|]. simpl.
      by intros [= _ <- _].
  - intros url ->. rewrite Hfn. revert Hread. unfold _read_sources_from_file.
    destruct (_new_source _ _); [|done]. simpl.
    unfold uses_pga_cache. simpl.
    destruct (has_valid_custom_cache_path w); [done|]. simpl.
    by intros [= _ <- _].
Qed.

Lemma constructed_file_has_filename_witness :
  ∃ name,
    filename example_world two_mirrors_file = Ok (Some name)
    ∧ (_multiple_sources two_mirrors_file = true
       → _filename two_mirrors_file = Some name ∧ name ≠ "")
    ∧ (∀ d, two_mirrors = MetaDict d → _filename two_mirrors_file = meta_filename d)
    ∧ (∀ url, two_mirrors = MetaUrl url → _filename two_mirrors_file = Some "").
Proof.
  apply (constructed_file_has_filename example_world 3 "game" "file" two_mirrors).
  reflexivity.
Defined.

End FileOpsFacts.

(** ** The deferred calls of the speed test *)

Module MainLoopFacts.

Import Source File FileOps FileFacts Probe.

Lemma enumerate_from_app i l k :
  enumerate_from i (l ++ k)
  = enumerate_from i l ++ enumerate_from (i + length l) k.
Proof.
  revert i. induction l as [|x l IH]; intros i; simpl.
  - by replace (i + 0) with i by lia.
  - rewrite IH. by replace (S i + length l) with (i + S (length l)) by lia.
Qed.

Lemma by_class_refs_ext c a b :
  cls <$> sources a = cls <$> sources b →
  (get_sources_by_class c a).*1 = (get_sources_by_class c b).*1.
Proof.
  unfold get_sources_by_class, enumerate. generalize 0.
  generalize (sources b). induction (sources a) as [|x l IH]; intros [|y k] i Hc;
    try done.
  simpl in Hc. injection Hc as Hxy Hc. simpl enumerate_from.
  rewrite !filter_cons. cbn [snd]. rewrite <- Hxy.
  specialize (IH k (S i) Hc).
  destruct (decide (cls x = c)); [rewrite !fmap_cons|]; by rewrite IH.
Qed.

Lemma identity_cls a b :
  identity <$> sources a = identity <$> sources b →
  cls <$> sources a = cls <$> sources b.
Proof.
  intros H. apply (f_equal (fmap (λ i : Class * string * string, i.1.1))) in H.
  by rewrite <- !list_fmap_compose in H.
Qed.

Lemma speed_loop_identity checked url speed l :
  identity <$> (speed_loop checked url speed l).1 = identity <$> l.
Proof.
  induction l as [|s l IH]; [done|]. cbn [speed_loop].
  destruct (isinstance SourceDownload s).
  - destruct (domain checked s) as [d|]; [|done].
    destruct (Lists.netloc checked url) as [n|]; [|done].
    destruct (speed_loop checked url speed l) as [rest e]. simpl in IH.
    cbn. f_equal; [by case_match | done].
  - destruct (speed_loop checked url speed l) as [rest e]. simpl in IH.
    cbn. by f_equal.
Qed.

Lemma on_speed_measured_state w url speed self :
  identity <$> sources (state_of (on_speed_measured w url speed self))
  = identity <$> sources self
  ∧ active_source (state_of (on_speed_measured w url speed self)) = active_source self
  ∧ _user_source (state_of (on_speed_measured w url speed self)) = _user_source self
  ∧ cache_source (state_of (on_speed_measured w url speed self)) = cache_source self.
Proof.
  unfold on_speed_measured.
  pose proof (speed_loop_identity (valid_netloc w) url speed (sources self)) as H.
  destruct (speed_loop _ _ _ _) as [l [e|]]; done.
Qed.

Lemma insert_identity r s s' (l : list Source.t) :
  l !! r = Some s → identity s' = identity s →
  identity <$> <[r := s']> l = identity <$> l.
Proof.
  intros Hl Hi. rewrite list_fmap_insert, Hi.
  apply list_insert_id. by rewrite list_lookup_fmap, Hl.
Qed.

Lemma success_identity w r speed self :
  identity <$> sources (_success w r speed self) = identity <$> sources self
  ∧ active_source (_success w r speed self) = active_source self
  ∧ _user_source (_success w r speed self) = _user_source self
  ∧ cache_source (_success w r speed self) = cache_source self.
Proof.
  unfold _success. destruct (sources self !! r) as [s|] eqn:Hl; [|done].
  destruct (connected s).
  - match goal with
    | |- context [on_speed_measured w ?u ?v ?st] =>
        destruct (on_speed_measured_state w u v st) as (-> & -> & -> & ->)
    end.
    simpl. split_and!; [|done..]. by eapply insert_identity.
  - simpl. split_and!; [|done..]. by eapply insert_identity.
Qed.

Lemma error_identity w r speed e code self :
  identity <$> sources (_error w r speed e code self) = identity <$> sources self
  ∧ active_source (_error w r speed e code self) = active_source self
  ∧ _user_source (_error w r speed e code self) = _user_source self
  ∧ cache_source (_error w r speed e code self) = cache_source self.
Proof.
  unfold _error. destruct (sources self !! r) as [s|] eqn:Hl; [|done].
  cbv zeta. destruct (connected _).
  - match goal with
    | |- context [on_speed_measured w ?u ?v ?st] =>
        destruct (on_speed_measured_state w u v st) as (-> & -> & -> & ->)
    end.
    simpl. split_and!; [|done..]. eapply insert_identity; [done|].
    by destruct (truthy_availability _).
  - simpl. split_and!; [|done..]. eapply insert_identity; [done|].
    by destruct (truthy_availability _).
Qed.

Lemma dest_file_state w self :
  sources (state_of (dest_file w self)) = sources self
  ∧ active_source (state_of (dest_file w self)) = active_source self
  ∧ _user_source (state_of (dest_file w self)) = _user_source self
  ∧ cache_source (state_of (dest_file w self)) = cache_source self.
Proof. unfold dest_file. by repeat case_match. Qed.

(** What one deferred call does to the sources and the references. *)
Lemma run_task_step task w self :
  let self' := state_of (run_task task w self).2 in
  active_source self' = active_source self
  ∧ _user_source self' = _user_source self
  ∧ ((identity <$> sources self' = identity <$> sources self
      ∧ cache_source self' = cache_source self)
     ∨ (cache_source self = None
        ∧ ∃ s, cls s = SourceCache ∧ sources self' = sources self ++ [s]
               ∧ cache_source self' = Some (length (sources self)))).
Proof.
  destruct task as [sig|r v|r v e c| |m]; simpl.
  - auto.
  - destruct (success_identity w r v self) as (? & ? & ? & ?). auto.
  - destruct (error_identity w r v e c self) as (? & ? & ? & ?). auto.
  - unfold prepare. repeat case_match; simpl; auto.
  - unfold _add_cached.
    destruct (dest_file_state w self) as (Hs1 & Ha1 & Hu1 & Hc1).
    destruct (dest_file w self) as [dest self1|e self1]; simpl in *.
    2:{ rewrite Hs1. auto. }
    unfold download_file.
    destruct (dest_file_state w self1) as (Hs2 & Ha2 & Hu2 & Hc2).
    destruct (dest_file w self1) as [tmp self2|e self2]; simpl in *.
    all: assert (Hs : sources self2 = sources self) by congruence.
    all: assert (Ha : active_source self2 = active_source self) by congruence.
    all: assert (Hu : _user_source self2 = _user_source self) by congruence.
    all: assert (Hc : cache_source self2 = cache_source self) by congruence.
    2:{ rewrite Hs. auto. }
    unfold new_cache. case_bool_decide; simpl.
    2:{ rewrite Hs. auto. }
    unfold add_source. simpl.
    destruct (cache_source self2) as [c|] eqn:Hc'; simpl.
    { rewrite Hs, Hc'. auto. }
    split_and!; [done..|]. right.
    split; [done|]. eexists. split_and!; [|by rewrite Hs|].
    + done.
    + rewrite length_app, Hs. simpl. f_equal. lia.
Qed.

Lemma main_loop_cons task rest w self :
  (main_loop (task :: rest) w self).1
  = (main_loop rest (run_task task w self).1 (state_of (run_task task w self).2)).1.
Proof.
  simpl. destruct (run_task task w self) as [w1 [[] self1|e self1]]; simpl; [done|].
  by destruct (main_loop rest w1 self1) as [[? ?] ?].
Qed.

(** X18. The calls a speed test defers never select another source,
    never remove or reorder a source and never change the class, id or
    url of one: the sources of before are a prefix of those of after,
    and a cache source, once referred to, stays the one referred to. *)
Theorem main_loop_keeps_sources (tasks : list Task) (w : World) (self : File.t) :
  let self' := (main_loop tasks w self).1.2 in
  active_source self' = active_source self
  ∧ _user_source self' = _user_source self
  ∧ (identity <$> sources self) `prefix_of` (identity <$> sources self')
  ∧ (∀ c, cache_source self = Some c → cache_source self' = Some c).
Proof.
  revert w self. induction tasks as [|task rest IH]; intros w self.
  - simpl. done.
  - cbv zeta. rewrite main_loop_cons.
    destruct (run_task_step task w self) as (Ha & Hu & Hs).
    destruct (IH (run_task task w self).1 (state_of (run_task task w self).2))
      as (Ha' & Hu' & Hs' & Hc').
    rewrite Ha', Hu', Ha, Hu. split_and!; [done..| |].
    + etrans; [|exact Hs'].
      destruct Hs as [[-> _]|(_ & s & _ & -> & _)]; [done|].
      rewrite fmap_app. by apply prefix_app_r.
    + intros c Hc. apply Hc'.
      destruct Hs as [[_ ->]|(Hn & _)]; [done|congruence].
Qed.

(** X19. When [cache_source] refers to the only cache source of the
    file, or is [None] and there is none, the same holds after any
    sequence of deferred calls: however many [_add_cached] are queued,
    the file never owns two cache sources. *)
Theorem at_most_one_cache_source (tasks : list Task) (w : World) (self : File.t) :
  cache_tracked self → cache_tracked (main_loop tasks w self).1.2.
Proof.
  revert w self. induction tasks as [|task rest IH]; intros w self Ht; [done|].
  rewrite main_loop_cons. apply IH.
  destruct (run_task_step task w self) as (_ & _ & Hs).
  unfold cache_tracked, cache_sources in *.
  destruct Hs as [[Hi ->]|(Hn & s & Hcls & Hsrc & ->)].
  - rewrite <- Ht. by apply by_class_refs_ext, identity_cls.
  - rewrite Hn in Ht. unfold get_sources_by_class, enumerate in *.
    rewrite Hsrc, enumerate_from_app, filter_app, fmap_app, Ht. simpl.
    rewrite filter_cons. simpl. by rewrite decide_True.
Qed.

Lemma at_most_one_cache_source_witness :
  cache_tracked
    (main_loop [AddCached [Byte.x50]; AddCached [Byte.x4b]] example_world
       two_mirrors_file).1.2.
Proof. apply at_most_one_cache_source. reflexivity. Defined.

Lemma forallb_take_insert {A} (f : A → bool) (l : list A) r x y i :
  l !! r = Some x → f y = f x →
  forallb f (take i (<[r := y]> l)) = forallb f (take i l).
Proof.
  revert r i. induction l as [|a l IH]; intros r i Hl Hf; [done|].
  destruct i as [|i]; [done|]. destruct r as [|r]; simplify_eq/=.
  - by rewrite Hf.
  - f_equal. by apply IH.
Qed.

Lemma speed_loop_lookup checked url speed l i s :
  let shared (s' : Source.t) :=
    match Source.domain checked s', Lists.netloc checked url with
    | Ok d, Ok n =>
        if Source.isinstance SourceDownload s'
           && bool_decide (d = Some n)
           && negb (bool_decide (Source.url s' = url))
        then Source.set_speed (SpBytes speed) s' else s'
    | _, _ => s'
    end in
  let raises (s' : Source.t) :=
    Source.isinstance SourceDownload s'
    && match Source.domain checked s', Lists.netloc checked url with
       | Ok _, Ok _ => false
       | _, _ => true
       end in
  l !! i = Some s →
  (speed_loop checked url speed l).1 !! i
  = Some (if forallb (λ s', negb (raises s')) (take i l) then shared s else s).
Proof.
  cbv zeta. revert i.
  induction l as [|s0 l IH]; intros i Hl; [done|].
  cbn [speed_loop].
  destruct (Source.isinstance SourceDownload s0) eqn:Hc.
  - destruct (Source.domain checked s0) as [d|e] eqn:Hd.
    + destruct (Lists.netloc checked url) as [n|e] eqn:Hn.
      * specialize (IH (pred i)).
        destruct (speed_loop checked url speed l) as [rest e].
        destruct i as [|i]; cbn [lookup list_lookup fst take forallb pred] in *.
        -- injection Hl as <-. by rewrite Hd, Hc.
        -- rewrite Hc, Hd. by apply IH.
      * destruct i as [|i]; cbn [lookup list_lookup fst take forallb pred] in *.
        -- injection Hl as <-. by rewrite Hd.
        -- by rewrite Hc, Hd.
    + destruct i as [|i]; cbn [lookup list_lookup fst take forallb pred] in *.
      * injection Hl as <-. by rewrite Hd.
      * by rewrite Hc, Hd.
  - specialize (IH (pred i)).
    destruct (speed_loop checked url speed l) as [rest e].
    destruct i as [|i]; cbn [lookup list_lookup fst take forallb pred] in *.
    + injection Hl as <-. rewrite Hc. by repeat case_match.
    + rewrite Hc. by apply IH.
Qed.

(** X23. A measurement is shared by domain: [_success] stores the
    speed on its source, [_error] stores [False] with the error and
    takes back an availability that was set. When the source is
    connected to the file, the handler then walks the sources in their
    order and hands the speed to every other download source whose
    network location is that of the measured url and whose url is
    another one; network locations are compared as [urlparse] gives
    them, so two urls that differ by a tab share a speed. The walk ends
    at the first download source for which [urlparse] raises, on its
    url or on the measured one: the sources before it are updated, it
    and the sources after it are as before. *)
Theorem speed_is_shared_by_domain (w : World) (self : File.t) (r : nat)
    (src : Source.t) (v : PyFloat) (e : option Py.exn) (code : option Z) :
  sources self !! r = Some src →
  let checked := valid_netloc w in
  let shared (s' : Source.t) :=
    match Source.domain checked s', Lists.netloc checked (Source.url src) with
    | Ok d, Ok n =>
        if Source.isinstance SourceDownload s'
           && bool_decide (d = Some n)
           && negb (bool_decide (Source.url s' = Source.url src))
        then Source.set_speed (SpBytes v) s' else s'
    | _, _ => s'
    end in
  let raises (s' : Source.t) :=
    Source.isinstance SourceDownload s'
    && match Source.domain checked s', Lists.netloc checked (Source.url src) with
       | Ok _, Ok _ => false
       | _, _ => true
       end in
  let reached (r' : nat) :=
    forallb (λ s', negb (raises s')) (take r' (sources self)) in
  let failed :=
    Source.set_error e code
      (if truthy_availability (_available src)
       then Source.set_available AvFalse (Source.set_speed SpFalse src)
       else Source.set_speed SpFalse src) in
  sources (_success w r v self) !! r = Some (Source.set_speed (SpBytes v) src)
  ∧ sources (_error w r v e code self) !! r = Some failed
  ∧ ∀ r' s', r' ≠ r → sources self !! r' = Some s' →
      sources (_success w r v self) !! r'
      = Some (if connected src && reached r' then shared s' else s')
      ∧ sources (_error w r v e code self) !! r'
        = Some (if connected src && reached r' then shared s' else s').
Proof.
  intros Hl checked shared raises reached failed.
  assert (Hown : ∀ s0, Source.url s0 = Source.url src → shared s0 = s0).
  { intros s0 Hu. unfold shared.
    destruct (Source.domain checked s0) as [d|]; [|done].
    destruct (Lists.netloc checked (Source.url src)) as [n|]; [|done].
    rewrite Hu, (bool_decide_eq_true_2 (Source.url src = Source.url src)) by done.
    by rewrite andb_false_r. }
  assert (Hsame : ∀ s0, cls s0 = cls src → _url s0 = _url src → raises s0 = raises src).
  { intros s0 Hc Hu. unfold raises, Source.isinstance, Source.domain.
    by rewrite Hc, Hu. }
  assert (Hlt : r < length (sources self)) by (by eapply lookup_lt_Some).
  assert (Hsources : ∀ st, sources (state_of (on_speed_measured w (Source.url src) v st))
                           = (speed_loop checked (Source.url src) v (sources st)).1).
  { intros st. unfold on_speed_measured. fold checked.
    by destruct (speed_loop _ _ _ _) as [l [?|]]. }
  assert (Hs : _success w r v self
               = if connected src
                 then state_of (on_speed_measured w (Source.url src) v
                        (set_sources (<[r := Source.set_speed (SpBytes v) src]> (sources self)) self))
                 else set_sources (<[r := Source.set_speed (SpBytes v) src]> (sources self)) self).
  { unfold _success. by rewrite Hl. }
  assert (He : _error w r v e code self
               = if connected src
                 then state_of (on_speed_measured w (Source.url src) v
                        (set_sources (<[r := failed]> (sources self)) self))
                 else set_sources (<[r := failed]> (sources self)) self).
  { unfold _error. rewrite Hl. cbv zeta.
    change (Source.set_error e code _) with failed.
    replace (connected failed) with (connected src)
      by (unfold failed; by destruct (truthy_availability _)).
    replace (Source.url failed) with (Source.url src)
      by (unfold failed; by destruct (truthy_availability _)).
    done. }
  rewrite Hs, He. clear Hs He.
  assert (Hfail : shared failed = failed).
  { apply Hown. unfold failed. by destruct (truthy_availability _). }
  assert (Hfc : cls failed = cls src ∧ _url failed = _url src).
  { unfold failed. by destruct (truthy_availability _). }
  destruct (connected src); rewrite ?Hsources; cbn [sources set_sources andb].
  - split_and!.
    + erewrite speed_loop_lookup by (by apply list_lookup_insert_eq).
      match goal with
      | |- Some (if ?b then ?x else ?y) = _ => change x with (shared y); destruct b
      end; [|done]. by rewrite Hown.
    + erewrite speed_loop_lookup by (by apply list_lookup_insert_eq).
      match goal with
      | |- Some (if ?b then ?x else ?y) = _ => change x with (shared y); destruct b
      end; [|done]. by rewrite Hfail.
    + intros r' s' Hne Hl'.
      erewrite !speed_loop_lookup by (by rewrite list_lookup_insert_ne).
      rewrite (forallb_take_insert _ _ _ src (Source.set_speed (SpBytes v) src))
        by (done || (f_equal; by apply Hsame)).
      rewrite (forallb_take_insert _ _ _ src failed)
        by (done || (f_equal; apply Hsame; apply Hfc)).
      done.
  - split_and!.
    + by rewrite list_lookup_insert_eq.
    + by rewrite list_lookup_insert_eq.
    + intros r' s' Hne Hl'. by rewrite !list_lookup_insert_ne by done.
Qed.

Lemma speed_is_shared_by_domain_witness :
  let a := Source.connect (Source.new SourceDownload "a" "http://a.test/f.zip" false) in
  let b := Source.new SourceDownload "b" ("http://a.test" +:+ String "009" "/g.zip") false in
  let c := Source.new SourceDownload "c" "http://[a.test/h.zip" false in
  let d := Source.new SourceDownload "d" "http://a.test/i.zip" false in
  let self := set_sources [a; b; c; d] two_mirrors_file in
  (Source.speed <$> sources (_success example_world 0 5 self) !! 1) = Some (SpBytes 5)
  ∧ (Source.speed <$> sources (_success example_world 0 5 self) !! 3) = Some SpNone.
Proof.
  intros a b c d self.
  destruct (speed_is_shared_by_domain example_world self 0 a 5 None None eq_refl)
    as (_ & _ & H).
  split.
  - destruct (H 1 b ltac:(done) eq_refl) as [-> _]. done.
  - destruct (H 3 d ltac:(done) eq_refl) as [-> _]. done.
Defined.

End MainLoopFacts.

(** ** What the speed test defers *)

Module SpeedtestFacts.

Import Source File FileOps FileFacts Probe.

Lemma poll_scheduled stop transfer source window k th :
  ((∃ o, (poll stop transfer source window k th).2 = Ok o)
   ∨ (poll stop transfer source window k th).2 = Err Py.UnboundLocalError)
  ∧ ∃ new,
      scheduled (poll stop transfer source window k th).1 = scheduled th ++ new
      ∧ ∀ task, task ∈ new →
          (∃ v, task = Success source v) ∨ (∃ v e c, task = Error source v e c).
Proof.
  revert k th. induction window as [|window IH]; intros k th; simpl.
  { split; [eauto|]. exists []. rewrite app_nil_r. split; [done|].
    by intros task ?%elem_of_nil. }
  destruct (stop (reads th)); simpl.
  { split; [eauto|]. exists []. rewrite app_nil_r. split; [done|].
    by intros task ?%elem_of_nil. }
  destruct (state (transfer k)); simpl.
  - destruct (stop (S (reads th))); simpl.
    + split; [eauto|]. exists []. rewrite app_nil_r. split; [done|].
      by intros task ?%elem_of_nil.
    + destruct (IH (S k) (after_read (after_read th))) as [Hr (new & Hs & Hn)].
      split; [done|]. exists new. split; [by rewrite Hs|done].
  - destruct (stop (S (reads th))); simpl.
    all: split; [eauto|]; eexists [_]; split; [done|].
    all: intros task ->%list_elem_of_singleton; eauto.
  - destruct (stop (S (reads th))); simpl.
    all: split; [eauto|]; eexists [_]; split; [done|].
    all: intros task ->%list_elem_of_singleton; eauto.
  - destruct (stop (S (reads th))); simpl.
    all: split; [eauto|]; eexists [_]; split; [done|].
    all: intros task ->%list_elem_of_singleton; eauto.
Qed.

Lemma may_defer_cons x _list self task :
  may_defer _list self task → may_defer (x :: _list) self task.
Proof.
  intros [(r & s & v & Hin & ->)|[(r & s & v & e & c & Hin & ->)|?]].
  - left. exists r, s, v. split; [by apply elem_of_cons; right|done].
  - right; left. exists r, s, v, e, c. split; [by apply elem_of_cons; right|done].
  - by right; right.
Qed.

Lemma may_defer_head r source _list self task :
  (∃ v, task = Success r v) ∨ (∃ v e c, task = Error r v e c) →
  may_defer ((r, source) :: _list) self task.
Proof.
  intros [[v ->]|(v & e & c & ->)].
  - left. exists r, source, v. split; [apply elem_of_cons; by left|done].
  - right; left. exists r, source, v, e, c.
    split; [apply elem_of_cons; by left|done].
Qed.

Lemma probe_scheduled stop transfers windows overwrite_existing self _list th :
  ((probe stop transfers windows overwrite_existing self _list th).2 = Ok ()
   ∨ (probe stop transfers windows overwrite_existing self _list th).2
     = Err Py.StopRequested
   ∨ (probe stop transfers windows overwrite_existing self _list th).2
     = Err Py.UnboundLocalError)
  ∧ ∃ new,
      scheduled (probe stop transfers windows overwrite_existing self _list th).1
      = scheduled th ++ new
      ∧ ∀ task, task ∈ new → may_defer _list self task.
Proof.
  revert th. induction _list as [|[r source] rest IH]; intros th; simpl.
  { split; [eauto|]. exists []. rewrite app_nil_r. split; [done|].
    by intros task ?%elem_of_nil. }
  assert (Hrest : ∀ th' new0,
    scheduled th' = scheduled th ++ new0 →
    (∀ task, task ∈ new0 → may_defer ((r, source) :: rest) self task) →
    ((probe stop transfers windows overwrite_existing self rest th').2 = Ok ()
     ∨ (probe stop transfers windows overwrite_existing self rest th').2
       = Err Py.StopRequested
     ∨ (probe stop transfers windows overwrite_existing self rest th').2
       = Err Py.UnboundLocalError)
    ∧ ∃ new,
        scheduled (probe stop transfers windows overwrite_existing self rest th').1
        = scheduled th ++ new
        ∧ ∀ task, task ∈ new → may_defer ((r, source) :: rest) self task).
  { intros th' new0 Heq Hn0. destruct (IH th') as [Hr (new & Hs & Hn)].
    split; [done|]. exists (new0 ++ new). rewrite Hs, Heq, app_assoc.
    split; [done|]. intros task [?%Hn0|?%Hn]%elem_of_app; [done|].
    by apply may_defer_cons. }
  assert (Hnil : ∀ task : Task, task ∈ [] → may_defer ((r, source) :: rest) self task)
    by (by intros task ?%elem_of_nil).
  destruct (stop (reads th)); simpl.
  { split; [eauto|]. exists []. rewrite app_nil_r. done. }
  destruct (negb overwrite_existing && truthy_speed (Source.speed source)); simpl.
  { destruct (stop (S (reads th))); simpl.
    - split; [eauto|]. exists []. rewrite app_nil_r. done.
    - apply (Hrest _ []); [by rewrite app_nil_r|done]. }
  unfold speed_test.
  destruct (poll_scheduled stop (transfers r) r (windows r) 0 (after_read th))
    as [Hres (new0 & Hs0 & Hn0)].
  assert (Hn0' : ∀ task, task ∈ new0 → may_defer ((r, source) :: rest) self task).
  { intros task ?%Hn0. by apply may_defer_head. }
  destruct (poll stop (transfers r) r (windows r) 0 (after_read th))
    as [th0 [[_temp|]|e]]; simpl in *.
  - destruct (cache_source self) as [c|] eqn:Hc; simpl.
    + destruct (stop (reads th0)); simpl; (split; [eauto|]);
        exists new0; (split; [done|]); done.
    + destruct (stop (reads th0)); simpl; (split; [eauto|]);
        exists (new0 ++ [Prepare; AddCached _temp]); rewrite Hs0, <- !app_assoc;
        (split; [done|]);
        intros task [?%Hn0'|Ht]%elem_of_app; try done;
        right; right; (split; [done|]);
        apply elem_of_cons in Ht as [-> | ->%list_elem_of_singleton]; eauto.
  - destruct (stop (reads th0)); simpl.
    + split; [eauto|]. exists new0. done.
    + by apply (Hrest _ new0).
  - destruct Hres as [[o Ho]|He]; [discriminate|]. injection He as ->.
    split; [eauto|]. exists new0. done.
Qed.

(** X20. Whatever the stop request and the transfers do,
    [run_speedtest] returns or raises UnboundLocalError, never
    StopRequested; it defers [processing-start] first, and after it
    only [processing-stop], [_success] and [_error] of download sources
    of the file, and, when the file has no cache source, [prepare] and
    [_add_cached]. *)
Theorem run_speedtest_defers_only (stop : nat → bool) (transfers : nat → Transfer)
    (windows : nat → nat) (overwrite_existing : bool) (self : File.t) (th : Thread) :
  ((run_speedtest stop transfers windows overwrite_existing self th).2 = Ok ()
   ∨ (run_speedtest stop transfers windows overwrite_existing self th).2
     = Err Py.UnboundLocalError)
  ∧ ∃ new,
      scheduled (run_speedtest stop transfers windows overwrite_existing self th).1
      = scheduled th ++ Emit "processing-start" :: new
      ∧ ∀ task, task ∈ new →
          task = Emit "processing-stop"
          ∨ (∃ r s v, sources self !! r = Some s ∧ cls s = SourceDownload
                      ∧ task = Success r v)
          ∨ (∃ r s v e c, sources self !! r = Some s ∧ cls s = SourceDownload
                          ∧ task = Error r v e c)
          ∨ (cache_source self = None
             ∧ (task = Prepare ∨ ∃ m, task = AddCached m)).
Proof.
  unfold run_speedtest.
  destruct (probe_scheduled stop transfers windows overwrite_existing self
              (get_sources_by_class SourceDownload self)
              (schedule_at_idle (Emit "processing-start") th))
    as [Hres (new & Hs & Hn)].
  assert (Hn' : ∀ task, task ∈ new →
            task = Emit "processing-stop"
            ∨ (∃ r s v, sources self !! r = Some s ∧ cls s = SourceDownload
                        ∧ task = Success r v)
            ∨ (∃ r s v e c, sources self !! r = Some s ∧ cls s = SourceDownload
                            ∧ task = Error r v e c)
            ∨ (cache_source self = None
               ∧ (task = Prepare ∨ ∃ m, task = AddCached m))).
  { intros task [(r & s & v & Hin & ->)|[(r & s & v & e & c & Hin & ->)|?]]%Hn.
    - apply list_elem_of_filter in Hin as [Hc Hin%elem_of_enumerate]. simpl in Hc.
      right; left. by exists r, s, v.
    - apply list_elem_of_filter in Hin as [Hc Hin%elem_of_enumerate]. simpl in Hc.
      right; right; left. by exists r, s, v, e, c.
    - by right; right; right. }
  destruct (probe _ _ _ _ _ _ _) as [th' [[]|e]]; simpl in *.
  - split; [eauto|]. exists (new ++ [Emit "processing-stop"]).
    rewrite Hs, <- !app_assoc. split; [done|].
    intros task [?%Hn' | ->%list_elem_of_singleton]%elem_of_app; [done|by left].
  - destruct Hres as [He|[He|He]]; [discriminate|injection He as ->..].
    + simpl. split; [eauto|]. exists new. rewrite Hs, <- app_assoc. done.
    + simpl. split; [eauto|]. exists new. rewrite Hs, <- app_assoc. done.
Qed.

End SpeedtestFacts.

(** ** The availability check *)

Module AvailabilityFacts.

Import Source File FileOps FileFacts FileOpsFacts Availability.

Lemma check_never_stopped stop files ifa all_files _list th :
  (∀ n, stop n = false) →
  check stop files ifa all_files _list th
  = ({| reads := reads th + 2 * length _list;
        scheduled := scheduled th ++ expected_changes files ifa all_files _list |},
     Ok ()).
Proof.
  intros Hstop. revert th. induction _list as [|[r s] rest IH]; intros [n l].
  - simpl. by rewrite app_nil_r, Nat.add_0_r.
  - simpl. rewrite !Hstop.
    unfold expected_changes, get_availability. simpl.
    destruct (negb all_files && truthy_availability (Source.available files s)).
    + simpl. rewrite ?Hstop, IH. simpl. f_equal. f_equal. lia.
    + destruct (Py.startswith "file://" (Source.url s)); simpl.
      * rewrite ?Hstop, IH. simpl. f_equal. f_equal. lia.
      * rewrite ?Hstop, IH. simpl. rewrite <- app_assoc. simpl.
        f_equal. f_equal. lia.
Qed.

Lemma main_loop_lookup ifa tasks self r :
  (∀ task, task ∈ tasks →
     (∃ sig, task = Emit sig) ∨ ∃ r', task = Change r' (ifa r')) →
  sources (main_loop tasks self) !! r
  = if bool_decide (Change r (ifa r) ∈ tasks)
    then Source.set_available (ifa r) <$> sources self !! r
    else sources self !! r.
Proof.
  unfold main_loop. revert self.
  induction tasks as [|task rest IH]; intros self Hall; [done|].
  simpl. rewrite IH by (intros ? ?; apply Hall; by right).
  destruct (Hall task) as [[sig ->]|[r' ->]]; [by left| |].
  - simpl. rewrite (bool_decide_ext (Change r (ifa r) ∈ Emit sig :: rest)
                      (Change r (ifa r) ∈ rest)); [done|].
    rewrite elem_of_cons. split; [by intros [?|?]|by right].
  - simpl. destruct (decide (r' = r)) as [->|Hne].
    + rewrite (bool_decide_eq_true_2 (_ ∈ Change r (ifa r) :: rest)) by left.
      rewrite list_lookup_alter.
      rewrite decide_True by done. case_bool_decide; [|done].
      by destruct (sources self !! r).
    + rewrite list_lookup_alter_ne by done.
      rewrite (bool_decide_ext (Change r (ifa r) ∈ Change r' (ifa r') :: rest)
                 (Change r (ifa r) ∈ rest)); [done|].
      rewrite elem_of_cons. split; [|by right].
      intros [Heq|?]; [|done]. injection Heq as -> _. done.
Qed.

Lemma main_loop_active tasks self :
  active_source (main_loop tasks self) = active_source self.
Proof.
  unfold main_loop. revert self.
  induction tasks as [|[sig|r a] l IH]; intros self; simpl; [done|..].
  - apply IH.
  - by rewrite IH.
Qed.

Lemma checked_lookup stop files is_file_available all_files self :
  (∀ n, stop n = false) →
  (run stop files is_file_available all_files self
     {| reads := 0; scheduled := [] |}).2 = Ok ()
  ∧ head (scheduled (run stop files is_file_available all_files self
                       {| reads := 0; scheduled := [] |}).1)
    = Some (Emit "processing-start")
  ∧ last (scheduled (run stop files is_file_available all_files self
                       {| reads := 0; scheduled := [] |}).1)
    = Some (Emit "processing-stop")
  ∧ ∀ r,
      sources (main_loop
                 (scheduled (run stop files is_file_available all_files self
                               {| reads := 0; scheduled := [] |}).1) self) !! r
      = (λ s, if bool_decide (cls s = SourceDownload)
                 && (all_files || negb (truthy_availability (_available s)))
                 && negb (Py.startswith "file://" (Source.url s))
              then Source.set_available (is_file_available r) s
              else s) <$> sources self !! r.
Proof.
  intros Hstop.
  set (tasks := expected_changes files is_file_available all_files
                  (get_sources_by_class SourceDownload self)).
  assert (∃ n, run stop files is_file_available all_files self
                 {| reads := 0; scheduled := [] |}
               = ({| reads := n;
                     scheduled := Emit "processing-start" :: tasks
                                  ++ [Emit "processing-stop"] |}, Ok ()))
    as [n ->].
  { unfold run. rewrite check_never_stopped by done. by eexists. }
  cbn [fst snd scheduled].
  assert (Hall : ∀ task, task ∈ Emit "processing-start" :: tasks ++ [Emit "processing-stop"] →
            (∃ sig, task = Emit sig)
            ∨ ∃ r', task = Change r' (is_file_available r')).
  { intros task [->|[Ht| ->%list_elem_of_singleton]%elem_of_app]%elem_of_cons; eauto.
    apply list_elem_of_omap in Ht as ([r s] & _ & Ht). simpl in Ht.
    repeat case_match; simplify_eq. eauto. }
  assert (Hin : ∀ r s, sources self !! r = Some s →
            Change r (is_file_available r)
              ∈ Emit "processing-start" :: tasks ++ [Emit "processing-stop"]
            ↔ bool_decide (cls s = SourceDownload)
              && (all_files || negb (truthy_availability (_available s)))
              && negb (Py.startswith "file://" (Source.url s)) = true).
  { intros r s Hl. rewrite elem_of_cons, elem_of_app, list_elem_of_singleton.
    unfold tasks, expected_changes. rewrite list_elem_of_omap. split.
    - intros [?|[([r' s'] & [Hc Hin%elem_of_enumerate]%list_elem_of_filter & Ht)|?]];
        [done| |done].
      simpl in Hc, Ht.
      destruct (negb all_files && truthy_availability (Source.available files s'))
        eqn:Hskip; [done|].
      destruct (Py.startswith "file://" (Source.url s')) eqn:Hfile; [done|].
      injection Ht as -> _. rewrite Hl in Hin. injection Hin as <-.
      rewrite bool_decide_eq_true_2 by done.
      unfold Source.available in Hskip. rewrite Hc in Hskip.
      rewrite Hfile. by destruct all_files, (truthy_availability (_available s)).
    - intros [[Hc%bool_decide_eq_true Ha]%andb_prop Hf]%andb_prop.
      right; left. exists (r, s). split.
      + apply list_elem_of_filter. split; [done|]. by apply elem_of_enumerate.
      + simpl. unfold Source.available. rewrite Hc.
        destruct all_files, (truthy_availability (_available s)),
          (Py.startswith "file://" (Source.url s)); simplify_eq/=; done. }
  split_and!; [done|done| |].
  - apply last_Some. by exists (Emit "processing-start" :: tasks).
  - intros r.
    rewrite (main_loop_lookup is_file_available _ _ _ Hall).
    destruct (sources self !! r) as [s|] eqn:Hl; [|by case_bool_decide].
    simpl.
    destruct (bool_decide (cls s = SourceDownload)
              && (all_files || negb (truthy_availability (_available s)))
              && negb (Py.startswith "file://" (Source.url s))) eqn:E.
    + rewrite bool_decide_eq_true_2; [done|]. by apply (Hin r s).
    + rewrite bool_decide_eq_false_2; [done|].
      intros ?%(Hin r s); [congruence|done].
Qed.

(** X21. An availability check that is not stopped returns, defers
    [processing-start] first and [processing-stop] last, and once the
    main loop has run its calls every download source that was to be
    checked and has no [file://] url carries the answer of
    [is_file_available]; every other source, and the active source, is
    as before. *)
Theorem availability_check_marks_sources (stop : nat → bool) (files : gset string)
    (is_file_available : nat → Source.Availability) (all_files : bool)
    (self : File.t) :
  (∀ n, stop n = false) →
  let checked :=
    run stop files is_file_available all_files self {| reads := 0; scheduled := [] |} in
  checked.2 = Ok ()
  ∧ head (scheduled checked.1) = Some (Emit "processing-start")
  ∧ last (scheduled checked.1) = Some (Emit "processing-stop")
  ∧ active_source (main_loop (scheduled checked.1) self) = active_source self
  ∧ ∀ r s,
      sources self !! r = Some s →
      sources (main_loop (scheduled checked.1) self) !! r
      = Some (if bool_decide (cls s = SourceDownload)
                 && (all_files || negb (truthy_availability (_available s)))
                 && negb (Py.startswith "file://" (Source.url s))
              then Source.set_available (is_file_available r) s
              else s).
Proof.
  intros Hstop. cbv zeta.
  destruct (checked_lookup stop files is_file_available all_files self Hstop)
    as (Hr & Hh & Hl & Hs).
  split_and!; [done|done|done|apply main_loop_active|].
  intros r s Hrs. by rewrite Hs, Hrs.
Qed.

Lemma availability_check_marks_sources_witness :
  (Source._available <$>
     sources (main_loop
                (scheduled (run Probe.never_stopped ∅ (λ _, AvFalse) true two_mirrors_file
                              {| reads := 0; scheduled := [] |}).1)
                two_mirrors_file) !! 1)
  = Some AvFalse.
Proof.
  destruct (availability_check_marks_sources Probe.never_stopped ∅ (λ _, AvFalse) true
              two_mirrors_file (λ _, eq_refl)) as (_ & _ & _ & _ & H).
  rewrite (H 1 _ eq_refl). reflexivity.
Defined.

Lemma is_downloadable_spec self :
  is_downloadable self = true
  ↔ ∃ r s, sources self !! r = Some s ∧ cls s = SourceDownload.
Proof.
  unfold is_downloadable. rewrite bool_decide_eq_true. split.
  - destruct (get_sources_by_class SourceDownload self) as [|[r s] l] eqn:E;
      [simpl; lia|].
    intros _. exists r, s. apply by_class_elem_of. rewrite E. by left.
  - intros (r & s & Hin%by_class_elem_of).
    destruct (get_sources_by_class SourceDownload self);
      [by apply elem_of_nil in Hin|simpl; lia].
Qed.

Lemma is_offline_spec self :
  is_offline self = true
  ↔ is_downloadable self = true
    ∧ ∀ r s, sources self !! r = Some s → cls s = SourceDownload →
        _available s = AvFalse.
Proof.
  rewrite is_downloadable_spec. unfold is_offline.
  assert (Hall : forallb (λ rs : nat * Source.t,
                            bool_decide (Source._available rs.2 = AvFalse))
                   (get_sources_by_class SourceDownload self) = true
                 ↔ ∀ r s, sources self !! r = Some s → cls s = SourceDownload →
                     _available s = AvFalse).
  { rewrite <- Is_true_true, forallb_True, Forall_forall. split.
    - intros H r s Hl Hc.
      specialize (H (r, s)). rewrite bool_decide_spec in H. apply H.
      by apply by_class_elem_of.
    - intros H [r s] [? ?]%by_class_elem_of. rewrite bool_decide_spec. eauto. }
  destruct (get_sources_by_class SourceDownload self) as [|[r s] l] eqn:E.
  - split; [done|]. intros [(r & s & Hin%by_class_elem_of) _].
    rewrite E in Hin. by apply elem_of_nil in Hin.
  - rewrite Hall. split; [|tauto]. intros H. split; [|done].
    exists r, s. apply by_class_elem_of. rewrite E. by left.
Qed.

(** X22. After a full availability check that is not stopped, the file
    is offline exactly when it has a download source and
    [is_file_available] answered [False] for each; a download source
    with a [file://] url is never marked by the check and counts with
    the availability it had. *)
Theorem offline_after_check (stop : nat → bool) (files : gset string)
    (is_file_available : nat → Source.Availability) (self : File.t) :
  (∀ n, stop n = false) →
  is_offline
    (main_loop
       (scheduled (run stop files is_file_available true self
                     {| reads := 0; scheduled := [] |}).1)
       self) = true
  ↔ is_downloadable self = true
    ∧ ∀ r s, sources self !! r = Some s → cls s = SourceDownload →
        if Py.startswith "file://" (Source.url s)
        then _available s = AvFalse
        else is_file_available r = AvFalse.
Proof.
  intros Hstop.
  destruct (checked_lookup stop files is_file_available true self Hstop)
    as (_ & _ & _ & Hl).
  rewrite is_offline_spec, !is_downloadable_spec.
  set (self' := main_loop _ self) in *.
  assert (Hcls : ∀ r s, sources self !! r = Some s →
            ∃ s', sources self' !! r = Some s' ∧ cls s' = cls s
                  ∧ _available s'
                    = if bool_decide (cls s = SourceDownload)
                         && negb (Py.startswith "file://" (Source.url s))
                      then is_file_available r else _available s).
  { intros r s Hrs. rewrite Hl, Hrs. simpl. eexists. split; [done|].
    by destruct (bool_decide (cls s = SourceDownload)),
         (Py.startswith "file://" (Source.url s)). }
  assert (Hback : ∀ r s', sources self' !! r = Some s' →
            ∃ s, sources self !! r = Some s).
  { intros r s'. rewrite Hl. destruct (sources self !! r); [eauto|done]. }
  split.
  - intros [(r & s' & Hrs' & Hc') Hall]. split.
    + destruct (Hback _ _ Hrs') as [s Hrs].
      destruct (Hcls _ _ Hrs) as (s'' & Hrs'' & Hc'' & _).
      exists r, s. split; [done|]. congruence.
    + intros r0 s0 Hrs0 Hc0.
      destruct (Hcls _ _ Hrs0) as (s0' & Hrs0' & Hc0' & Ha').
      specialize (Hall r0 s0' Hrs0' ltac:(congruence)).
      rewrite Hall, bool_decide_eq_true_2 in Ha' by done. simpl in Ha'.
      by destruct (Py.startswith "file://" (Source.url s0)).
  - intros [(r & s & Hrs & Hc) Hall]. split.
    + destruct (Hcls _ _ Hrs) as (s' & Hrs' & Hc' & _).
      exists r, s'. split; [done|]. congruence.
    + intros r' s' Hrs' Hc'.
      destruct (Hback _ _ Hrs') as [s0 Hrs0].
      destruct (Hcls _ _ Hrs0) as (s'' & Hrs'' & Hc'' & Ha'').
      assert (s'' = s') as -> by congruence.
      specialize (Hall r' s0 Hrs0 ltac:(congruence)).
      rewrite Ha'', bool_decide_eq_true_2 by congruence. simpl.
      by destruct (Py.startswith "file://" (Source.url s0)).
Qed.

Lemma offline_after_check_witness :
  is_offline
    (main_loop
       (scheduled (run Probe.never_stopped ∅ (λ _, AvFalse) true two_mirrors_file
                     {| reads := 0; scheduled := [] |}).1)
       two_mirrors_file) = true.
Proof.
  apply (offline_after_check Probe.never_stopped ∅ (λ _, AvFalse) two_mirrors_file
           (λ _, eq_refl)).
  split; [reflexivity|].
  intros [|[|[|r]]] s [= <-] Hc; try discriminate Hc; reflexivity.
Defined.

End AvailabilityFacts.
